(** * Intelligent multi-phase migration (agent_mcp/core/intelligent_migration.py)

    A shallow embedding of the analysis chain ([ProjectAnalysisChain]) and of
    the migration manager ([IntelligentMigrationManager]), and the properties
    of the specification stated over it.

    Conventions of the embedding.
    - Text is ASCII: a Python [str] is a [string], [str.lower] maps the
      letters A-Z to a-z, and [k in s] is the substring test.
    - A task is the dictionary made from a row of the [tasks] table; its
      [title] and [status] columns hold text, its [description] column
      holds NULL ([None] in the dictionary) or a text.
    - A Python dict whose order matters is an association list that keeps
      the position of a key on reassignment.
    - The columns [child_tasks], [depends_on_tasks] and [notes] hold either
      NULL or a text; a text is identified with what [json.loads] does on it:
      it raises, or it returns a value.  [json.dumps v] is the text that
      loads back as [v]. *)

From Stdlib Require Import String Ascii List Bool Arith Lia Permutation.
From Stdlib Require Import DecimalString.
Set Warnings "-register-all".

Import ListNotations.
Open Scope string_scope.
Open Scope list_scope.

(** Concatenation of texts, as in an f-string. *)
Infix "+++" := String.append (right associativity, at level 60).

(** ** Text *)

Module Text.

(** [c.lower()] on an ASCII character. *)
Definition lower_ascii (c : ascii) : ascii :=
  let n := nat_of_ascii c in
  if Nat.leb 65 n && Nat.leb n 90 then ascii_of_nat (n + 32) else c.

(** [s.lower()] *)
Fixpoint lower (s : string) : string :=
  match s with
  | EmptyString => EmptyString
  | String c r => String (lower_ascii c) (lower r)
  end.

(** [needle in hay] on strings. *)
Fixpoint contains (needle hay : string) : bool :=
  String.prefix needle hay ||
  match hay with
  | EmptyString => false
  | String _ r => contains needle r
  end.

(** [any(keyword in text for keyword in keywords)] *)
Definition any_in (keywords : list string) (text : string) : bool :=
  existsb (fun keyword => contains keyword text) keywords.

(** [str(n)] for a length or a count. *)
Definition of_nat (n : nat) : string :=
  NilEmpty.string_of_uint (Nat.to_uint n).

(** [f"{x}"] on a nullable text: [None] prints as the word None. *)
Definition format (x : option string) : string :=
  match x with
  | Some s => s
  | None => "None"
  end.

(** [" ".join(l)] *)
Fixpoint join (sep : string) (l : list string) : string :=
  match l with
  | [] => ""
  | [x] => x
  | x :: r => x +++ sep +++ join sep r
  end.

End Text.

(** ** Data model *)

(** Values of [json.loads] / arguments of [json.dumps]. *)
Inductive json : Type :=
| JNull
| JBool (b : bool)
| JNum (n : nat)
| JStr (s : string)
| JArr (items : list json)
| JObj (fields : list (string * json)).

(** A stored text: [Malformed raw] is a text on which [json.loads] raises
    [JSONDecodeError]; [Encoded v] is the text [json.dumps v]. *)
Inductive text : Type :=
| Malformed (raw : string)
| Encoded (v : json).

(** A nullable text column. *)
Inductive cell : Type :=
| Null
| Text (t : text).

(** A row of the [tasks] table, as [dict(row)]. *)
Record task : Type := mkTask {
  task_id : string;
  title : string;
  description : option string;
  assigned_to : option string;
  created_by : string;
  status : string;
  priority : string;
  created_at : string;
  updated_at : string;
  parent_task : option string;
  child_tasks : cell;
  depends_on_tasks : cell;
  notes : cell
}.

(** Python dicts with insertion order. *)
Module Dict.
Section Dict.
Context {V : Type}.

Definition t := list (string * V).

(** [d.get(k)] *)
Fixpoint get (d : t) (k : string) : option V :=
  match d with
  | [] => None
  | (k', v) :: r => if String.eqb k k' then Some v else get r k
  end.

(** [d[k] = v]: a present key keeps its position. *)
Fixpoint set (d : t) (k : string) (v : V) : t :=
  match d with
  | [] => [(k, v)]
  | (k', v') :: r =>
      if String.eqb k k' then (k', v) :: r else (k', v') :: set r k v
  end.

(** [for x in xs: d[key x] = v] *)
Definition set_all {A : Type} (key : A -> string) (v : V) (xs : list A) (d : t) : t :=
  fold_left (fun d x => set d (key x) v) xs d.

Definition keys (d : t) : list string := map fst d.
End Dict.
Arguments t : clear implicits.
End Dict.

(** ** Exceptions *)

Inductive exn : Type :=
| JSONDecodeError     (* json.loads on a text that is not JSON *)
| TypeError           (* json.loads(None) *)
| AttributeError      (* .lower on None; .append on a value that is not a list *)
| OperationalError.   (* sqlite3: the store failed *)

Inductive result (A : Type) : Type :=
| Ok (a : A)
| Raise (e : exn).
Arguments Ok {A} a.
Arguments Raise {A} e.

(** [json.loads(s)] on a stored text. *)
Definition json_loads (s : text) : result json :=
  match s with
  | Malformed _ => Raise JSONDecodeError
  | Encoded v => Ok v
  end.

(** [json.dumps(v)] *)
Definition json_dumps (v : json) : text := Encoded v.

(** ** Step 2: complexity layers *)

Inductive layer : Type :=
| Infrastructure
| CoreFunctionality
| UserInterface
| Integration
| Optimization
| Unclassified.

Definition layer_eqb (a b : layer) : bool :=
  match a, b with
  | Infrastructure, Infrastructure
  | CoreFunctionality, CoreFunctionality
  | UserInterface, UserInterface
  | Integration, Integration
  | Optimization, Optimization
  | Unclassified, Unclassified => true
  | _, _ => false
  end.

(** The dictionary [complexity_analysis]. *)
Record complexity_analysis : Type := mkLayers {
  infrastructure_tasks : list task;
  core_functionality_tasks : list task;
  user_interface_tasks : list task;
  integration_tasks : list task;
  optimization_tasks : list task;
  unclassified_tasks : list task
}.

Definition infrastructure_keywords : list string :=
  ["setup"; "config"; "install"; "database"; "schema"; "auth"; "authentication";
   "environment"; "deployment"; "infrastructure"; "basic"; "core setup"].

Definition core_functionality_keywords : list string :=
  ["calculator"; "algorithm"; "logic"; "processing"; "computation"; "smart";
   "intelligent"; "analysis"; "recommendation"; "search"; "filter"].

Definition user_interface_keywords : list string :=
  ["ui"; "interface"; "component"; "page"; "form"; "button"; "modal";
   "styling"; "design"; "layout"; "responsive"; "user experience"].

Definition integration_keywords : list string :=
  ["integration"; "api"; "service"; "workflow"; "coordination"; "communication";
   "synchronization"; "orchestration"; "pipeline"].

Definition optimization_keywords : list string :=
  ["optimization"; "performance"; "improve"; "enhance"; "polish"; "refine";
   "testing"; "quality"; "monitoring"; "analytics"; "reporting"].

(** The if/elif chain of the loop of [analyze_task_complexity_layers]: the
    task is appended to one list, chosen by its text. *)
Definition classify (acc : complexity_analysis) (t : task) (task_text : string)
    : complexity_analysis :=
  if Text.any_in infrastructure_keywords task_text then
    mkLayers (infrastructure_tasks acc ++ [t]) (core_functionality_tasks acc)
             (user_interface_tasks acc) (integration_tasks acc)
             (optimization_tasks acc) (unclassified_tasks acc)
  else if Text.any_in core_functionality_keywords task_text then
    mkLayers (infrastructure_tasks acc) (core_functionality_tasks acc ++ [t])
             (user_interface_tasks acc) (integration_tasks acc)
             (optimization_tasks acc) (unclassified_tasks acc)
  else if Text.any_in user_interface_keywords task_text then
    mkLayers (infrastructure_tasks acc) (core_functionality_tasks acc)
             (user_interface_tasks acc ++ [t]) (integration_tasks acc)
             (optimization_tasks acc) (unclassified_tasks acc)
  else if Text.any_in integration_keywords task_text then
    mkLayers (infrastructure_tasks acc) (core_functionality_tasks acc)
             (user_interface_tasks acc) (integration_tasks acc ++ [t])
             (optimization_tasks acc) (unclassified_tasks acc)
  else if Text.any_in optimization_keywords task_text then
    mkLayers (infrastructure_tasks acc) (core_functionality_tasks acc)
             (user_interface_tasks acc) (integration_tasks acc)
             (optimization_tasks acc ++ [t]) (unclassified_tasks acc)
  else
    mkLayers (infrastructure_tasks acc) (core_functionality_tasks acc)
             (user_interface_tasks acc) (integration_tasks acc)
             (optimization_tasks acc) (unclassified_tasks acc ++ [t]).

(** One iteration of the loop.  [task.get('description', '')] is the value
    of the column, since the key is in every row; on [None],
    [.lower()] raises [AttributeError].  Otherwise
    [task_text = f"{title} {description}"] with both parts lowercased. *)
Definition classify_step (acc : complexity_analysis) (t : task)
    : result complexity_analysis :=
  let title := Text.lower (title t) in
  match description t with
  | None => Raise AttributeError
  | Some d =>
      let description := Text.lower d in
      Ok (classify acc t (title +++ " " +++ description))
  end.

Definition empty_layers : complexity_analysis := mkLayers [] [] [] [] [] [].

(** The loop: an exception of one iteration ends it. *)
Fixpoint classify_loop (tasks : list task) (acc : complexity_analysis)
    : result complexity_analysis :=
  match tasks with
  | [] => Ok acc
  | t :: rest =>
      match classify_step acc t with
      | Ok acc' => classify_loop rest acc'
      | Raise e => Raise e
      end
  end.

(** [ProjectAnalysisChain.analyze_task_complexity_layers] *)
Definition analyze_task_complexity_layers (tasks : list task)
    : result complexity_analysis :=
  classify_loop tasks empty_layers.

(** The text the chain tests, [f"{title} {description}"] with both parts
    lowercased, for a row whose description is a text.  On a row whose
    description is NULL the loop raises before it builds a text; the
    description reads as empty here. *)
Definition task_text (t : task) : string :=
  Text.lower (title t) +++ " " +++
  Text.lower (match description t with Some d => d | None => "" end).

(** The partition the loop builds when no iteration raises. *)
Definition layers (tasks : list task) : complexity_analysis :=
  fold_left (fun acc t => classify acc t (task_text t)) tasks empty_layers.

(** The bucket of a layer. *)
Definition bucket (l : layer) (cx : complexity_analysis) : list task :=
  match l with
  | Infrastructure => infrastructure_tasks cx
  | CoreFunctionality => core_functionality_tasks cx
  | UserInterface => user_interface_tasks cx
  | Integration => integration_tasks cx
  | Optimization => optimization_tasks cx
  | Unclassified => unclassified_tasks cx
  end.

(** The classifier as the specification words it: the keyword sets in their
    fixed order, and the first one with a hit. *)
Definition layer_table : list (layer * list string) :=
  [(Infrastructure, infrastructure_keywords);
   (CoreFunctionality, core_functionality_keywords);
   (UserInterface, user_interface_keywords);
   (Integration, integration_keywords);
   (Optimization, optimization_keywords)].

Definition first_match (t : task) : layer :=
  match find (fun row => Text.any_in (snd row) (task_text t)) layer_table with
  | Some row => fst row
  | None => Unclassified
  end.

(** ** Step 3: dependencies *)

(** An element of [implicit_dependencies]. *)
Record implicit_dependency : Type := mkImplicit {
  dependent : string;
  dependency : string;
  reason : string
}.

(** The dictionary [dependency_analysis]; the lists [missing_dependencies],
    [dependency_violations] and [suggested_fixes] stay empty in the source. *)
Record dependency_analysis : Type := mkDeps {
  explicit_dependencies : Dict.t json;
  implicit_dependencies : list implicit_dependency
}.

Definition dependency_patterns : list (string * string) :=
  [("component", "api"); ("form", "service"); ("page", "database");
   ("test", "implement"); ("testing", "feature");
   ("advanced", "basic"); ("enhancement", "core"); ("optimization", "implementation");
   ("integration", "component"); ("workflow", "service")].

(** [ProjectAnalysisChain._should_depend_on] *)
Fixpoint should_depend_on_in (patterns : list (string * string))
    (task_title potential_dependency_title : string) : bool :=
  match patterns with
  | [] => false
  | (dependent_keyword, dependency_keyword) :: rest =>
      if Text.contains dependent_keyword task_title
         && Text.contains dependency_keyword potential_dependency_title
      then true
      else should_depend_on_in rest task_title potential_dependency_title
  end.

Definition _should_depend_on : string -> string -> bool :=
  should_depend_on_in dependency_patterns.

(** The value stored under [task_id] by the explicit pass: the column as it
    is when it is not a [str] (NULL, read as [None]), the loaded value when
    [json.loads] succeeds, and [[]] when it raises. *)
Definition explicit_value (depends_on : cell) : json :=
  match depends_on with
  | Null => JNull
  | Text s =>
      match json_loads s with
      | Ok v => v
      | Raise _ => JArr []
      end
  end.

Definition explicit_pass (tasks : list task) : Dict.t json :=
  fold_left (fun d t => Dict.set d (task_id t) (explicit_value (depends_on_tasks t)))
            tasks [].

Definition implicit_reason (task_title other_title : string) : string :=
  "'" +++ task_title +++ "' likely depends on '" +++ other_title +++ "'".

(** The inner loop of the implicit pass, for one [task]. *)
Definition implicit_for (tasks : list task) (t : task) : list implicit_dependency :=
  let task_title := Text.lower (title t) in
  flat_map (fun other_task =>
    if String.eqb (task_id t) (task_id other_task) then []
    else
      let other_title := Text.lower (title other_task) in
      if _should_depend_on task_title other_title
      then [mkImplicit (task_id t) (task_id other_task)
                       (implicit_reason task_title other_title)]
      else []) tasks.

(** [ProjectAnalysisChain.analyze_task_dependencies] *)
Definition analyze_task_dependencies (tasks : list task) : dependency_analysis :=
  mkDeps (explicit_pass tasks) (flat_map (implicit_for tasks) tasks).

(** ** Step 1: project domain *)

Record domain_analysis : Type := mkDomain {
  primary_domain : string;
  domain_scores : Dict.t nat;
  project_complexity : nat;
  has_ui_components : bool;
  has_backend_work : bool;
  has_business_logic : bool
}.

Definition domain_indicators : list (string * list string) :=
  [("web_development", ["website"; "page"; "ui"; "frontend"; "component"; "react";
                        "vue"; "angular"; "html"; "css"; "javascript"]);
   ("backend_development", ["api"; "server"; "database"; "auth"; "authentication";
                            "endpoint"; "service"; "backend"]);
   ("mobile_development", ["mobile"; "app"; "ios"; "android"; "react native";
                           "flutter"; "swift"; "kotlin"]);
   ("data_science", ["data"; "analytics"; "ml"; "machine learning"; "model";
                     "analysis"; "visualization"]);
   ("devops", ["deployment"; "ci/cd"; "docker"; "kubernetes"; "infrastructure";
               "monitoring"]);
   ("business_application", ["dashboard"; "crm"; "quote"; "customer"; "business";
                             "management"; "workflow"])].

(** [sum(1 for keyword in keywords if keyword in combined_text)] *)
Definition keyword_score (keywords : list string) (combined_text : string) : nat :=
  length (filter (fun keyword => Text.contains keyword combined_text) keywords).

(** [max(d, key=d.get)] on a non-empty dict: the first key of maximal value. *)
Fixpoint max_key_from (best : string) (best_score : nat) (d : Dict.t nat) : string :=
  match d with
  | [] => best
  | (k, v) :: r =>
      if Nat.ltb best_score v then max_key_from k v r else max_key_from best best_score r
  end.

Definition max_key (d : Dict.t nat) : string :=
  match d with
  | [] => ""
  | (k, v) :: r => max_key_from k v r
  end.

(** [ProjectAnalysisChain.analyze_project_domain] *)
Definition analyze_project_domain (tasks : list task) : domain_analysis :=
  let all_text := map (fun t => Text.lower (title t +++ " " +++ Text.format (description t)))
                      tasks in
  let combined_text := Text.join " " all_text in
  let scores := map (fun row => (fst row, keyword_score (snd row) combined_text))
                    domain_indicators in
  mkDomain (max_key scores) scores (length tasks)
    (existsb (fun t => Text.contains "component" (Text.lower (title t))) tasks)
    (Text.any_in ["api"; "database"; "server"] combined_text)
    (Text.any_in ["quote"; "calculator"; "business"; "workflow"] combined_text).

(** ** Step 4: phase structure *)

(** An element of [recommended_phases]. *)
Record phase : Type := mkPhase {
  phase_id : string;
  name : string;
  tasks_of : list task;      (* the key 'tasks' *)
  justification : string
}.

(** The dictionary [phase_structure]. *)
Record phase_structure : Type := mkStructure {
  recommended_phases : list phase;
  phase_assignments : Dict.t string;
  reasoning : list string
}.

Definition phase_1_foundation := "phase_1_foundation".
Definition phase_2_intelligence := "phase_2_intelligence".
Definition phase_3_coordination := "phase_3_coordination".
Definition phase_4_optimization := "phase_4_optimization".

(** One iteration of the loop over the unclassified tasks, on the pair
    [(foundation_tasks, coordination_tasks)]. *)
Definition distribute_unclassified (acc : list task * list task) (t : task)
    : list task * list task :=
  let '(foundation_tasks, coordination_tasks) := acc in
  if String.eqb (status t) "completed" then (foundation_tasks ++ [t], coordination_tasks)
  else if Text.any_in ["page"; "ui"; "interface"; "component"] (Text.lower (title t))
       then (foundation_tasks, coordination_tasks ++ [t])
       else (foundation_tasks ++ [t], coordination_tasks).

(** The lists [foundation_tasks] and [coordination_tasks] once the loop over
    the unclassified tasks has run. *)
Definition redistribute (cx : complexity_analysis) : list task * list task :=
  fold_left distribute_unclassified (unclassified_tasks cx)
    (infrastructure_tasks cx, user_interface_tasks cx ++ integration_tasks cx).

(** Truth value of a list. *)
Definition truthy {A : Type} (l : list A) : bool :=
  match l with [] => false | _ => true end.

Definition tasks_suffix (n : nat) : string := " (" +++ Text.of_nat n +++ " tasks)".

(** [ProjectAnalysisChain.determine_optimal_phases].  The list
    [foundation_tasks] is shared between the Foundation phase record and the
    later [extend]: the record shows the merged tasks, its justification the
    count before the merge. *)
Definition determine_optimal_phases (da : domain_analysis) (cx : complexity_analysis)
    : phase_structure :=
  let intelligence_tasks := core_functionality_tasks cx in
  let optimization_tasks := optimization_tasks cx in
  let '(foundation_tasks, coordination_tasks) := redistribute cx in
  let make_intelligence := truthy intelligence_tasks && Nat.leb 3 (length intelligence_tasks) in
  let make_coordination := truthy coordination_tasks && Nat.leb 5 (length coordination_tasks) in
  let make_optimization := truthy optimization_tasks && Nat.leb 2 (length optimization_tasks) in
  (* foundation *)
  let foundation_shared :=
    if make_intelligence then foundation_tasks else foundation_tasks ++ intelligence_tasks in
  let phases1 :=
    if truthy foundation_tasks
    then [mkPhase phase_1_foundation "Phase 1: Foundation" foundation_shared
            ("Core infrastructure and setup tasks" +++ tasks_suffix (length foundation_tasks))]
    else [] in
  let assign1 :=
    if truthy foundation_tasks
    then Dict.set_all task_id phase_1_foundation foundation_tasks []
    else [] in
  (* intelligence *)
  let phases2 :=
    if make_intelligence
    then phases1 ++ [mkPhase phase_2_intelligence "Phase 2: Intelligence" intelligence_tasks
            ("Core business logic and intelligent features"
               +++ tasks_suffix (length intelligence_tasks))]
    else phases1 in
  let assign2 :=
    if make_intelligence
    then Dict.set_all task_id phase_2_intelligence intelligence_tasks assign1
    else Dict.set_all task_id phase_1_foundation intelligence_tasks assign1 in
  (* coordination *)
  let phases3 :=
    if make_coordination
    then phases2 ++ [mkPhase phase_3_coordination "Phase 3: Coordination" coordination_tasks
            ("User interface and system integration"
               +++ tasks_suffix (length coordination_tasks))]
    else phases2 in
  let assign3 :=
    if make_coordination
    then Dict.set_all task_id phase_3_coordination coordination_tasks assign2
    else
      let target_phase :=
        if truthy intelligence_tasks then phase_2_intelligence else phase_1_foundation in
      Dict.set_all task_id target_phase coordination_tasks assign2 in
  (* optimization *)
  let phases4 :=
    if make_optimization
    then phases3 ++ [mkPhase phase_4_optimization "Phase 4: Optimization" optimization_tasks
            ("Performance, testing, and production readiness"
               +++ tasks_suffix (length optimization_tasks))]
    else phases3 in
  let assign4 :=
    if make_optimization
    then Dict.set_all task_id phase_4_optimization optimization_tasks assign3
    else
      let available_phases := map phase_id phases3 in
      let target_phase := last available_phases phase_1_foundation in
      Dict.set_all task_id target_phase optimization_tasks assign3 in
  mkStructure phases4 assign4
    ["Project domain: " +++ primary_domain da;
     "Total tasks: " +++ Text.of_nat (project_complexity da);
     "Recommended phases: " +++ Text.of_nat (length phases4);
     "Phase distribution ensures logical progression and proper task grouping"].

(** ** The store *)

(** A row of [project_context]. *)
Record context_row : Type := mkContext {
  context_key : string;
  value : text;
  last_updated : string;
  updated_by : string;
  context_description : string
}.

Record database : Type := mkDatabase {
  tasks : list task;
  project_context : list context_row
}.

(** The world of a run: the committed database, the working copy of the
    open connection, and the schedule of store failures.  The store calls
    that can fail are [get_db_connection()], [cursor.execute(...)] and
    [conn.commit()]; each consumes one entry of the schedule and raises when
    the entry is [true].  An exhausted schedule means no further failure. *)
Record world : Type := mkWorld {
  disk : database;
  work : database;
  faults : list bool
}.

(** Computations that read and write the world and may raise. *)
Definition M (A : Type) : Type := world -> result A * world.

Definition ret {A : Type} (a : A) : M A := fun w => (Ok a, w).

Definition bind {A B : Type} (m : M A) (k : A -> M B) : M B :=
  fun w =>
    match m w with
    | (Ok a, w') => k a w'
    | (Raise e, w') => (Raise e, w')
    end.

Definition raise {A : Type} (e : exn) : M A := fun w => (Raise e, w).

(** [try: m  except Exception: handler] *)
Definition try_except {A : Type} (m : M A) (handler : exn -> M A) : M A :=
  fun w =>
    match m w with
    | (Ok a, w') => (Ok a, w')
    | (Raise e, w') => handler e w'
    end.

Definition lift {A : Type} (r : result A) : M A := fun w => (r, w).

Declare Scope io_scope.
Delimit Scope io_scope with io.
Notation "x <- m ;; k" := (bind m (fun x => k))
  (at level 100, m at next level, right associativity) : io_scope.
Notation "m ;;; k" := (bind m (fun _ => k))
  (at level 100, right associativity) : io_scope.
Open Scope io_scope.

(** [for x in xs: body x] *)
Fixpoint for_each {A : Type} (xs : list A) (body : A -> M unit) : M unit :=
  match xs with
  | [] => ret tt
  | x :: r => body x ;;; for_each r body
  end.

(** A store call: consumes one entry of the failure schedule and raises
    when the entry is [true]. *)
Definition store_call : M unit :=
  fun w =>
    (if hd false (faults w) then Raise OperationalError else Ok tt,
     mkWorld (disk w) (work w) (tl (faults w))).

(** [conn = get_db_connection(); cursor = conn.cursor()] *)
Definition get_db_connection : M unit :=
  store_call ;;; fun w => (Ok tt, mkWorld (disk w) (disk w) (faults w)).

(** [cursor.execute(q)] for a read. *)
Definition query {A : Type} (q : database -> A) : M A :=
  store_call ;;; fun w => (Ok (q (work w)), w).

(** [cursor.execute(q)] for a write. *)
Definition execute (q : database -> database) : M unit :=
  store_call ;;; fun w => (Ok tt, mkWorld (disk w) (q (work w)) (faults w)).

(** [conn.commit()] *)
Definition commit : M unit :=
  store_call ;;; fun w => (Ok tt, mkWorld (work w) (work w) (faults w)).

(** *** Statements *)

(** [task_id LIKE 'phase_%']: SQLite compares ASCII letters without case;
    [_] stands for one character and [%] for any text. *)
Definition like_phase (id : string) : bool :=
  String.eqb (Text.lower (String.substring 0 5 id)) "phase"
  && Nat.leb 6 (String.length id).

(** [SELECT COUNT( * ) FROM tasks WHERE task_id LIKE 'phase_%'] *)
Definition count_phases (d : database) : nat :=
  length (filter (fun t => like_phase (task_id t)) (tasks d)).

(** [SELECT COUNT( * ) FROM tasks] *)
Definition count_tasks (d : database) : nat := length (tasks d).

(** [ORDER BY created_at]: a stable sort on the text of [created_at]. *)
Fixpoint insert_by_created_at (t : task) (sorted : list task) : list task :=
  match sorted with
  | [] => [t]
  | u :: r =>
      if String.ltb (created_at t) (created_at u) then t :: u :: r
      else u :: insert_by_created_at t r
  end.

Definition order_by_created_at (l : list task) : list task :=
  fold_left (fun sorted t => insert_by_created_at t sorted) l [].

(** [SELECT * FROM tasks ORDER BY created_at] *)
Definition select_all (d : database) : list task := order_by_created_at (tasks d).

(** [SELECT ... FROM tasks WHERE task_id = ?] followed by [fetchone()] *)
Definition select_task (id : string) (d : database) : option task :=
  find (fun t => String.eqb (task_id t) id) (tasks d).

(** [INSERT INTO tasks (...) VALUES (...)] *)
Definition insert_task (t : task) (d : database) : database :=
  mkDatabase (tasks d ++ [t]) (project_context d).

(** [UPDATE tasks SET ... WHERE task_id = ?] *)
Definition update_tasks (id : string) (f : task -> task) (d : database) : database :=
  mkDatabase (map (fun t => if String.eqb (task_id t) id then f t else t) (tasks d))
             (project_context d).

(** [INSERT OR REPLACE INTO project_context (...) VALUES (...)] *)
Definition replace_context (r : context_row) (d : database) : database :=
  mkDatabase (tasks d)
    (filter (fun r' => negb (String.eqb (context_key r') (context_key r)))
            (project_context d) ++ [r]).

Definition set_parent_and_notes (new_parent : option string) (now : string) (n : text)
    (t : task) : task :=
  mkTask (task_id t) (title t) (description t) (assigned_to t) (created_by t) (status t)
         (priority t) (created_at t) now new_parent (child_tasks t)
         (depends_on_tasks t) (Text n).

Definition set_depends_on (deps : text) (now : string) (t : task) : task :=
  mkTask (task_id t) (title t) (description t) (assigned_to t) (created_by t) (status t)
         (priority t) (created_at t) now (parent_task t) (child_tasks t)
         (Text deps) (notes t).

(** ** The migration manager *)

Definition newline : string := String (ascii_of_nat 10) "".

(** [IntelligentMigrationManager._needs_migration] *)
Definition _needs_migration : M bool :=
  try_except
    (get_db_connection ;;;
     phase_count <- query count_phases ;;
     total_tasks <- query count_tasks ;;
     ret (Nat.eqb phase_count 0 && Nat.ltb 0 total_tasks))
    (fun _ => ret false).

(** [IntelligentMigrationManager._load_all_tasks] *)
Definition _load_all_tasks : M (list task) :=
  try_except
    (get_db_connection ;;;
     all_tasks <- query select_all ;;
     ret all_tasks)
    (fun _ => ret []).

Definition phase_definitions : Dict.t string :=
  [(phase_1_foundation,
    "Core system architecture, database, authentication, and basic APIs");
   (phase_2_intelligence,
    "RAG system, embeddings, context management, and AI integration");
   (phase_3_coordination,
    "Multi-agent workflows, task orchestration, and system integration");
   (phase_4_optimization,
    "Performance tuning, scaling, monitoring, and production readiness")].

(** A note: [{"timestamp": ..., "author": "intelligent_migration", "content": ...}] *)
Definition note (timestamp content : string) : json :=
  JObj [("timestamp", JStr timestamp);
        ("author", JStr "intelligent_migration");
        ("content", JStr content)].

(** The row inserted by [_create_phase]. *)
Definition phase_data (now : string) (phase_info : phase) : task :=
  let justification := justification phase_info in
  let task_count := length (tasks_of phase_info) in
  let description :=
    match Dict.get phase_definitions (phase_id phase_info) with
    | Some d => d
    | None => "Intelligent phase assignment"
    end +++ newline +++ newline +++ "🧠 AI Analysis: " +++ justification in
  let initial_notes :=
    JArr [note now
            ("🧠 Intelligent migration: Phase created through AI analysis. "
             +++ justification +++ ". " +++ Text.of_nat task_count
             +++ " tasks assigned based on content analysis and dependency reasoning.")] in
  mkTask (phase_id phase_info) (name phase_info) (Some description) None
         "intelligent_migration" "pending" "high" now now None
         (Text (json_dumps (JArr []))) (Text (json_dumps (JArr [])))
         (Text (json_dumps initial_notes)).

(** [IntelligentMigrationManager._create_phase] *)
Definition _create_phase (now : string) (phase_info : phase) : M unit :=
  existing <- query (select_task (phase_id phase_info)) ;;
  match existing with
  | Some _ => ret tt
  | None => execute (insert_task (phase_data now phase_info))
  end.

(** [json.loads(task.get('notes', '[]'))]: the key is present in a row, so
    a NULL column reaches [json.loads] as [None]. *)
Definition load_notes (c : cell) : result json :=
  match c with
  | Null => Raise TypeError
  | Text s => json_loads s
  end.

(** [current_notes.append(x)] *)
Definition append_to (v : json) (x : json) : result json :=
  match v with
  | JArr items => Ok (JArr (items ++ [x]))
  | _ => Raise AttributeError
  end.

(** The parent and the migration type chosen for a task. *)
Definition new_parent_of (ps : phase_structure) (phase_id : string)
    (current_parent : option string) : string * string :=
  match current_parent with
  | None => (phase_id, "root_to_phase")
  | Some current =>
      match Dict.get (phase_assignments ps) current with
      | Some parent_phase =>
          if String.eqb parent_phase phase_id
          then (current, "hierarchy_preserved")
          else (phase_id, "orphan_to_phase")
      | None => (phase_id, "orphan_to_phase")
      end
  end.

Definition migration_note (now : string) (ps : phase_structure) (pid migration_type : string)
    : json :=
  let phase_info := find (fun p => String.eqb (phase_id p) pid) (recommended_phases ps) in
  let justification :=
    match phase_info with
    | Some p => justification p
    | None => "Intelligent analysis"
    end in
  note now ("🧠 Intelligent migration: Assigned to " +++ pid
            +++ " based on AI analysis. " +++ justification
            +++ ". Migration type: " +++ migration_type +++ ".").

(** The [try] block of [_migrate_task_to_phase]. *)
Definition migrate_task_body (now : string) (tid pid : string) (ps : phase_structure)
    : M bool :=
  found <- query (select_task tid) ;;
  match found with
  | None => ret false
  | Some t =>
      let '(new_parent, migration_type) := new_parent_of ps pid (parent_task t) in
      current_notes <- lift (load_notes (notes t)) ;;
      let migration_note := migration_note now ps pid migration_type in
      current_notes <- lift (append_to current_notes migration_note) ;;
      execute (update_tasks tid
                 (set_parent_and_notes (Some new_parent) now (json_dumps current_notes))) ;;;
      ret true
  end.

(** [IntelligentMigrationManager._migrate_task_to_phase] *)
Definition _migrate_task_to_phase (now : string) (tid pid : string) (ps : phase_structure)
    : M bool :=
  try_except (migrate_task_body now tid pid ps) (fun _ => ret false).

(** The loop of [_execute_migration] over [phase_assignments.items()]; the
    result is [migrated_count]. *)
Fixpoint migrate_all (now : string) (items : list (string * string)) (ps : phase_structure)
    (migrated_count : nat) : M nat :=
  match items with
  | [] => ret migrated_count
  | (tid, pid) :: rest =>
      migrated <- _migrate_task_to_phase now tid pid ps ;;
      migrate_all now rest ps (if migrated then migrated_count + 1 else migrated_count)
  end.

(** [IntelligentMigrationManager._execute_migration] *)
Definition _execute_migration (now : string) (ps : phase_structure)
    (deps : dependency_analysis) : M bool :=
  try_except
    (get_db_connection ;;;
     for_each (recommended_phases ps) (_create_phase now) ;;;
     migrated_count <- migrate_all now (phase_assignments ps) ps 0 ;;
     commit ;;;
     ret true)
    (fun _ => ret false).

(** [result['depends_on_tasks'] or '[]']: NULL and the empty text are falsy. *)
Definition or_empty_list (c : cell) : text :=
  match c with
  | Null => json_dumps (JArr [])
  | Text (Malformed "") => json_dumps (JArr [])
  | Text s => s
  end.

Definition is_str (s : string) (v : json) : bool :=
  match v with
  | JStr s' => String.eqb s s'
  | _ => false
  end.

(** [dependency_id in current_deps] for a loaded value: membership in a
    list, key of an object, substring of a text; other values are not
    iterable. *)
Definition py_in (dependency_id : string) (current_deps : json) : result bool :=
  match current_deps with
  | JArr items => Ok (existsb (is_str dependency_id) items)
  | JObj fields => Ok (existsb (fun f => String.eqb dependency_id (fst f)) fields)
  | JStr s => Ok (Text.contains dependency_id s)
  | _ => Raise TypeError
  end.

(** One iteration of the loop of [_fix_dependencies]; the result tells
    whether a dependency was added. *)
Definition fix_one (now : string) (implicit_dep : implicit_dependency) : M bool :=
  let dependent_id := dependent implicit_dep in
  let dependency_id := dependency implicit_dep in
  found <- query (select_task dependent_id) ;;
  match found with
  | None => ret false
  | Some row =>
      current_deps <- lift (json_loads (or_empty_list (depends_on_tasks row))) ;;
      present <- lift (py_in dependency_id current_deps) ;;
      if present then ret false
      else
        current_deps <- lift (append_to current_deps (JStr dependency_id)) ;;
        execute (update_tasks dependent_id (set_depends_on (json_dumps current_deps) now)) ;;;
        ret true
  end.

Fixpoint fix_all (now : string) (deps : list implicit_dependency) (fixed_count : nat)
    : M nat :=
  match deps with
  | [] => ret fixed_count
  | d :: rest =>
      fixed <- fix_one now d ;;
      fix_all now rest (if fixed then fixed_count + 1 else fixed_count)
  end.

(** [IntelligentMigrationManager._fix_dependencies] *)
Definition _fix_dependencies (now : string) (deps : dependency_analysis)
    (ps : phase_structure) : M unit :=
  try_except
    (get_db_connection ;;;
     fixed_count <- fix_all now (implicit_dependencies deps) 0 ;;
     commit ;;;
     ret tt)
    (fun _ => ret tt).

(** The argument [stats] of [_update_migration_status]. *)
Record migration_stats : Type := mkStats {
  total_tasks : nat;
  phases_created : nat;
  stats_domain_analysis : domain_analysis;
  stats_phase_structure : phase_structure
}.

Definition domain_analysis_json (da : domain_analysis) : json :=
  JObj [("primary_domain", JStr (primary_domain da));
        ("domain_scores", JObj (map (fun kv => (fst kv, JNum (snd kv))) (domain_scores da)));
        ("project_complexity", JNum (project_complexity da));
        ("has_ui_components", JBool (has_ui_components da));
        ("has_backend_work", JBool (has_backend_work da));
        ("has_business_logic", JBool (has_business_logic da))].

Definition migration_record (now : string) (stats : migration_stats) : json :=
  JObj [("intelligent_migration_completed", JBool true);
        ("migration_timestamp", JStr now);
        ("total_tasks_analyzed", JNum (total_tasks stats));
        ("phases_created", JNum (phases_created stats));
        ("migration_method", JStr "ai_powered_multi_phase_analysis");
        ("domain_analysis", domain_analysis_json (stats_domain_analysis stats));
        ("phase_structure",
         JObj [("recommended_phases",
                JNum (length (recommended_phases (stats_phase_structure stats))));
               ("reasoning", JArr (map JStr (reasoning (stats_phase_structure stats))))]);
        ("phase_system_version", JStr "2.0")].

(** [IntelligentMigrationManager._update_migration_status] *)
Definition _update_migration_status (now : string) (stats : migration_stats) : M unit :=
  try_except
    (get_db_connection ;;;
     execute (replace_context
                (mkContext "agent_mcp_intelligent_migration"
                   (json_dumps (migration_record now stats)) now "intelligent_migration"
                   "AI-powered intelligent multi-phase migration with dependency optimization")) ;;;
     commit ;;;
     ret tt)
    (fun _ => ret tt).

(** [IntelligentMigrationManager.run_intelligent_migration]; [now] is the
    reading of the clock during the run. *)
Definition run_intelligent_migration (now : string) : M bool :=
  try_except
    (needed <- _needs_migration ;;
     if negb needed then ret true
     else
       all_tasks <- _load_all_tasks ;;
       if negb (truthy all_tasks) then ret true
       else
         let domain_analysis := analyze_project_domain all_tasks in
         complexity_analysis <- lift (analyze_task_complexity_layers all_tasks) ;;
         let dependency_analysis := analyze_task_dependencies all_tasks in
         let phase_structure := determine_optimal_phases domain_analysis complexity_analysis in
         migration_success <- _execute_migration now phase_structure dependency_analysis ;;
         if migration_success then
           _fix_dependencies now dependency_analysis phase_structure ;;;
           _update_migration_status now
             (mkStats (length all_tasks) (length (recommended_phases phase_structure))
                      domain_analysis phase_structure) ;;;
           ret true
         else ret false)
    (fun _ => ret false).

(** A world at rest on a database, with a schedule of failures. *)
Definition at_rest (d : database) (schedule : list bool) : world := mkWorld d d schedule.

(** The six buckets laid end to end. *)
Definition all_buckets (cx : complexity_analysis) : list task :=
  infrastructure_tasks cx ++ core_functionality_tasks cx ++ user_interface_tasks cx
  ++ integration_tasks cx ++ optimization_tasks cx ++ unclassified_tasks cx.

(** The phase structure that [run_intelligent_migration] computes from the
    tasks it loaded: steps 1, 2 and 4 of the chain.  When step 2 raises there
    is no structure; the empty one stands for it. *)
Definition phase_plan (tasks : list task) : phase_structure :=
  match analyze_task_complexity_layers tasks with
  | Ok complexity_analysis =>
      determine_optimal_phases (analyze_project_domain tasks) complexity_analysis
  | Raise _ => mkStructure [] [] []
  end.

(** ** Sample data *)

Module Sample.

(** A task row as the task tools create it: no parent, empty lists. *)
Definition row (id ttl descr : string) : task :=
  mkTask id ttl (Some descr) None "admin" "pending" "medium"
         "2025-01-01T00:00:00" "2025-01-01T00:00:00" None
         (Text (json_dumps (JArr []))) (Text (json_dumps (JArr [])))
         (Text (json_dumps (JArr []))).

Definition with_parent (p : string) (t : task) : task :=
  mkTask (task_id t) (title t) (description t) (assigned_to t) (created_by t) (status t)
         (priority t) (created_at t) (updated_at t) (Some p) (child_tasks t)
         (depends_on_tasks t) (notes t).

Definition with_notes (c : cell) (t : task) : task :=
  mkTask (task_id t) (title t) (description t) (assigned_to t) (created_by t) (status t)
         (priority t) (created_at t) (updated_at t) (parent_task t) (child_tasks t)
         (depends_on_tasks t) c.

(** A row whose description column is NULL. *)
Definition without_description (t : task) : task :=
  mkTask (task_id t) (title t) None (assigned_to t) (created_by t) (status t)
         (priority t) (created_at t) (updated_at t) (parent_task t) (child_tasks t)
         (depends_on_tasks t) (notes t).

Definition with_depends_on (c : cell) (t : task) : task :=
  mkTask (task_id t) (title t) (description t) (assigned_to t) (created_by t) (status t)
         (priority t) (created_at t) (updated_at t) (parent_task t) (child_tasks t)
         c (notes t).

Definition calculator : task := row "t1" "Price calculator" "Compute the price".
Definition button : task := row "t3" "Round button" "".
Definition schema : task := row "t4" "Database schema" "".
Definition api_client : task := row "t5" "REST API" "".
Definition component : task := row "t6" "Chart component" "".

Definition search : task := row "t7" "Search box" "".
Definition filtering : task := row "t8" "Filter results" "".

Definition clock : string := "2025-06-01T12:00:00".

Definition db (rows : list task) : database := mkDatabase rows [].

(** The phase structure the chain computes for a task list. *)
Definition plan (rows : list task) : phase_structure :=
  phase_plan rows.

(** The number of notes of the row found under an id, when they load as a list. *)
Definition note_count (id : string) (d : database) : option nat :=
  match select_task id d with
  | Some t =>
      match notes t with
      | Text (Encoded (JArr items)) => Some (length items)
      | _ => None
      end
  | None => None
  end.

End Sample.

(** ** Reading the store steps *)

(** No store call of the world's schedule fails. *)
Definition quiet (w : world) : Prop := ~ In true (faults w).

(** The world after one store call. *)
Definition tick (w : world) : world := mkWorld (disk w) (work w) (tl (faults w)).

(** The note list of a task after its migration to [pid]. *)
Definition migrated_notes (now : string) (ps : phase_structure) (pid : string) (t : task)
    : result json :=
  match load_notes (notes t) with
  | Ok v => append_to v (migration_note now ps pid (snd (new_parent_of ps pid (parent_task t))))
  | Raise e => Raise e
  end.

(** The row of a task after its migration to [pid], given its new notes. *)
Definition migrated_row (now : string) (ps : phase_structure) (pid : string) (n : json)
    (t : task) : task :=
  set_parent_and_notes (Some (fst (new_parent_of ps pid (parent_task t)))) now
                       (json_dumps n) t.

(** What [_migrate_task_to_phase] does to the working copy when its store
    calls succeed. *)
Definition migrate_db (now : string) (ps : phase_structure) (tid pid : string)
    (d : database) : database :=
  match select_task tid d with
  | None => d
  | Some t =>
      match migrated_notes now ps pid t with
      | Ok n =>
          update_tasks tid
            (set_parent_and_notes (Some (fst (new_parent_of ps pid (parent_task t)))) now
                                  (json_dumps n)) d
      | Raise _ => d
      end
  end.

(** Whether [_migrate_task_to_phase] reports the task as migrated. *)
Definition migrates (now : string) (ps : phase_structure) (tid pid : string)
    (d : database) : bool :=
  match select_task tid d with
  | None => false
  | Some t => match migrated_notes now ps pid t with Ok _ => true | Raise _ => false end
  end.

(** What [_create_phase] does to the working copy when its store calls succeed. *)
Definition create_phase_db (now : string) (d : database) (p : phase) : database :=
  match select_task (phase_id p) d with
  | Some _ => d
  | None => insert_task (phase_data now p) d
  end.

(** The loop over [phase_assignments.items()] on the working copy. *)
Definition migrate_all_db (now : string) (ps : phase_structure)
    (items : list (string * string)) (d : database) : database :=
  fold_left (fun d item => migrate_db now ps (fst item) (snd item) d) items d.

(** The outcome [(a, w')] of a computation started in [w] satisfies [Q]. *)
Definition yields {A : Type} (m : M A) (w : world) (Q : A -> world -> Prop) : Prop :=
  exists a w', m w = (Ok a, w') /\ Q a w'.

(** A computation keeps an invariant of the world, whatever its outcome. *)
Definition keeps (I : world -> Prop) {A : Type} (m : M A) : Prop :=
  forall w r w', m w = (r, w') -> I w -> I w'.

(** An invariant that the store calls keep: it survives a consumed schedule
    entry, a new connection, a commit, and the writes in [writes]. *)
Record stable (I : world -> Prop) (writes : (database -> database) -> Prop) : Prop :=
  mkStable {
    stable_tick : forall w, I w -> I (tick w);
    stable_connect : forall w, I w -> I (mkWorld (disk w) (disk w) (faults w));
    stable_commit : forall w, I w -> I (mkWorld (work w) (work w) (faults w));
    stable_write :
      forall q w, writes q -> I w -> I (mkWorld (disk w) (q (work w)) (faults w))
  }.

(** The columns of the [tasks] table that the reparenting writes, with the id. *)
Definition columns (d : database) : list (string * option string * cell) :=
  map (fun t => (task_id t, parent_task t, notes t)) (tasks d).

(** The committed table and the working copy both show the columns [L]. *)
Definition settled (L : list (string * option string * cell)) (w : world) : Prop :=
  columns (disk w) = L /\ columns (work w) = L.

(** A write that leaves the id, parent and notes columns alone. *)
Definition keeps_columns (q : database -> database) : Prop :=
  forall d, columns (q d) = columns d.

(** A computation returns a value, whatever the world. *)
Definition total {A : Type} (m : M A) : Prop :=
  forall w, exists a w', m w = (Ok a, w').

(** The row of a task after the loop of [_execute_migration] has passed
    over it with phase [pid]: migrated when its notes load as a list, as it
    was otherwise. *)
Definition after_migration (now : string) (ps : phase_structure) (pid : string) (t : task)
    : task :=
  match migrated_notes now ps pid t with
  | Ok n => migrated_row now ps pid n t
  | Raise _ => t
  end.

(** The parent and the notes of the row found under an id. *)
Definition row_view (id : string) (d : database) : option (option string * cell) :=
  option_map (fun t => (parent_task t, notes t)) (select_task id d).

(** The same, read in the columns. *)
Definition lookup_columns (id : string) (L : list (string * option string * cell))
    : option (option string * cell) :=
  option_map (fun c => (snd (fst c), snd c))
             (find (fun c => String.eqb (fst (fst c)) id) L).

(** The value of the guard of [_needs_migration] on a database. *)
Definition needs_migration_of (d : database) : bool :=
  Nat.eqb (count_phases d) 0 && Nat.ltb 0 (count_tasks d).

(** The plan of a database: the phase structure computed from its tasks. *)
Definition plan_of (d : database) : phase_structure :=
  phase_plan (select_all d).

(** The tasks table that [_execute_migration] commits for the plan of a
    database when no store call fails. *)
Definition persisted (now : string) (d : database) : database :=
  migrate_all_db now (plan_of d) (phase_assignments (plan_of d))
    (fold_left (create_phase_db now) (recommended_phases (plan_of d)) d).

(** The four phase identifiers, in the order of their creation. *)
Definition phase_ids : list string :=
  [phase_1_foundation; phase_2_intelligence; phase_3_coordination; phase_4_optimization].

(** The columns of a task row that the reparenting does not write. *)
Definition content (t : task)
    : string * string * option string * option string * string * string * string
      * string * cell * cell :=
  (task_id t, title t, description t, assigned_to t, created_by t, status t,
   priority t, created_at t, child_tasks t, depends_on_tasks t).

(** The dependency list of the row found under an id, as
    [_fix_dependencies] loads it; [None] when there is no row or when the
    stored value does not load as a list. *)
Definition deps_of (id : string) (d : database) : option (list json) :=
  match select_task id d with
  | Some t =>
      match json_loads (or_empty_list (depends_on_tasks t)) with
      | Ok (JArr l) => Some l
      | _ => None
      end
  | None => None
  end.

(** What one iteration of [_fix_dependencies] does to the working copy when
    its store calls succeed and the stored list loads. *)
Definition fix_db (now : string) (dep : implicit_dependency) (d : database) : database :=
  match deps_of (dependent dep) d with
  | Some l =>
      if existsb (is_str (dependency dep)) l then d
      else update_tasks (dependent dep)
             (set_depends_on (json_dumps (JArr (l ++ [JStr (dependency dep)]))) now) d
  | None => d
  end.

(** The least number of tasks a recommended phase holds. *)
Definition phase_threshold (id : string) : nat :=
  if String.eqb id phase_2_intelligence then 3
  else if String.eqb id phase_3_coordination then 5
  else if String.eqb id phase_4_optimization then 2
  else 1.

(** The loop of [_fix_dependencies] on the working copy. *)
Definition fix_all_db (now : string) (edges : list implicit_dependency) (d : database)
    : database :=
  fold_left (fun d e => fix_db now e d) edges d.

(** The row found under an id stores a dependency text that is not JSON. *)
Definition broken (id : string) (d : database) : Prop :=
  exists t raw, select_task id d = Some t
                /\ depends_on_tasks t = Text (Malformed raw) /\ raw <> "".

(** The key of the audit record in [project_context]. *)
Definition audit_key : string := "agent_mcp_intelligent_migration".

(** The test of the loop over the unclassified tasks: [true] when the task
    goes to the foundation list, [false] when it goes to the coordination list. *)
Definition to_foundation (t : task) : bool :=
  String.eqb (status t) "completed"
  || negb (Text.any_in ["page"; "ui"; "interface"; "component"] (Text.lower (title t))).

(** * Properties *)

(** ** Layer classifier *)

Section LayerClassifier.

Lemma first_match_chain (t : task) :
  first_match t =
    let txt := task_text t in
    if Text.any_in infrastructure_keywords txt then Infrastructure
    else if Text.any_in core_functionality_keywords txt then CoreFunctionality
    else if Text.any_in user_interface_keywords txt then UserInterface
    else if Text.any_in integration_keywords txt then Integration
    else if Text.any_in optimization_keywords txt then Optimization
    else Unclassified.
Proof.
  unfold first_match, layer_table.
  cbn [find snd fst].
  repeat match goal with
         | |- context [Text.any_in ?k ?x] => destruct (Text.any_in k x); try reflexivity
         end.
Qed.

Lemma layer_eqb_eq (a b : layer) : layer_eqb a b = true <-> a = b.
Proof. destruct a, b; simpl; split; intros H; congruence. Qed.

(** One iteration appends the task to the bucket of its first match and
    leaves the other buckets alone. *)
Lemma classify_bucket (acc : complexity_analysis) (t : task) (l : layer) :
  bucket l (classify acc t (task_text t)) =
  bucket l acc ++ (if layer_eqb (first_match t) l then [t] else []).
Proof.
  rewrite first_match_chain. unfold classify. cbv zeta.
  repeat match goal with
         | |- context [Text.any_in ?k ?x] =>
             destruct (Text.any_in k x);
             [destruct l; cbn [bucket layer_eqb infrastructure_tasks
                core_functionality_tasks user_interface_tasks integration_tasks
                optimization_tasks unclassified_tasks];
              rewrite ?app_nil_r; reflexivity|]
         end.
  destruct l; cbn [bucket layer_eqb infrastructure_tasks
                core_functionality_tasks user_interface_tasks integration_tasks
                optimization_tasks unclassified_tasks];
    rewrite ?app_nil_r; reflexivity.
Qed.

Lemma classify_fold_bucket (tasks : list task) :
  forall acc l,
    bucket l (fold_left (fun acc t => classify acc t (task_text t)) tasks acc) =
    bucket l acc ++ filter (fun t => layer_eqb (first_match t) l) tasks.
Proof.
  induction tasks as [|t tasks IH]; intros acc l; cbn [fold_left filter].
  - now rewrite app_nil_r.
  - rewrite IH, classify_bucket, <- app_assoc.
    destruct (layer_eqb (first_match t) l); reflexivity.
Qed.

Lemma bucket_filter (tasks : list task) (l : layer) :
  bucket l (layers tasks) =
  filter (fun t => layer_eqb (first_match t) l) tasks.
Proof.
  unfold layers.
  rewrite classify_fold_bucket. now destruct l.
Qed.

Lemma in_bucket (tasks : list task) (l : layer) (t : task) :
  In t (bucket l (layers tasks)) <->
  In t tasks /\ first_match t = l.
Proof. rewrite bucket_filter, filter_In, layer_eqb_eq. tauto. Qed.

(** An iteration on a row whose description is a text appends the row,
    chosen by its text; on a NULL description it raises. *)
Lemma classify_step_text (acc : complexity_analysis) (t : task) :
  description t <> None ->
  classify_step acc t = Ok (classify acc t (task_text t)).
Proof.
  unfold classify_step, task_text. cbv zeta.
  destruct (description t); [reflexivity | congruence].
Qed.

Lemma classify_step_null (acc : complexity_analysis) (t : task) :
  description t = None -> classify_step acc t = Raise AttributeError.
Proof. unfold classify_step. cbv zeta. now intros ->. Qed.

Lemma classify_loop_returns (tasks : list task) :
  forall acc,
    (forall t, In t tasks -> description t <> None) ->
    classify_loop tasks acc
    = Ok (fold_left (fun acc t => classify acc t (task_text t)) tasks acc).
Proof.
  induction tasks as [|t tasks IH]; intros acc H; cbn [classify_loop fold_left].
  - reflexivity.
  - rewrite classify_step_text by (apply H; now left).
    apply IH. intros u Hu. apply H. now right.
Qed.

Lemma classify_loop_raises (tasks : list task) :
  forall acc,
    (exists t, In t tasks /\ description t = None) ->
    classify_loop tasks acc = Raise AttributeError.
Proof.
  induction tasks as [|t tasks IH]; intros acc (u & Hin & Hu); [destruct Hin|].
  cbn [classify_loop].
  destruct (description t) as [d|] eqn:E.
  - rewrite classify_step_text by congruence.
    apply IH. destruct Hin as [->|Hin]; [congruence|]. now exists u.
  - now rewrite classify_step_null.
Qed.

(** The analysis returns the partition when every description is a text,
    and raises [AttributeError] when one is NULL. *)
Lemma analysis_returns (tasks : list task) :
  (forall t, In t tasks -> description t <> None) ->
  analyze_task_complexity_layers tasks = Ok (layers tasks).
Proof. apply classify_loop_returns. Qed.

Lemma analysis_raises (tasks : list task) :
  (exists t, In t tasks /\ description t = None) ->
  analyze_task_complexity_layers tasks = Raise AttributeError.
Proof. apply classify_loop_raises. Qed.

Lemma null_or_text (tasks : list task) :
  (forall t, In t tasks -> description t <> None)
  \/ (exists t, In t tasks /\ description t = None).
Proof.
  induction tasks as [|t tasks [IH|(u & Hin & Hu)]].
  - left. intros t [].
  - destruct (description t) eqn:E.
    + left. intros u [<-|Hu]; [congruence | now apply IH].
    + right. exists t. split; [now left | assumption].
  - right. exists u. split; [now right | assumption].
Qed.

Lemma analysis_ok (tasks : list task) (cx : complexity_analysis) :
  analyze_task_complexity_layers tasks = Ok cx ->
  cx = layers tasks /\ forall t, In t tasks -> description t <> None.
Proof.
  intros H. destruct (null_or_text tasks) as [Ht|Hn].
  - rewrite (analysis_returns tasks Ht) in H. split; [congruence | assumption].
  - rewrite (analysis_raises tasks Hn) in H. discriminate.
Qed.

Lemma phase_plan_layers (tasks : list task) :
  (forall t, In t tasks -> description t <> None) ->
  phase_plan tasks = determine_optimal_phases (analyze_project_domain tasks) (layers tasks).
Proof. intros H. unfold phase_plan. now rewrite analysis_returns. Qed.

Lemma phase_plan_null (tasks : list task) :
  (exists t, In t tasks /\ description t = None) ->
  phase_plan tasks = mkStructure [] [] [].
Proof. intros H. unfold phase_plan. now rewrite analysis_raises. Qed.

End LayerClassifier.

Lemma perm_insert {A : Type} (x : A) (pre post : list A) :
  Permutation (pre ++ [x] ++ post) (x :: pre ++ post).
Proof. symmetry. apply Permutation_middle. Qed.

Lemma classify_one_all_buckets (acc : complexity_analysis) (t : task) :
  Permutation (all_buckets (classify acc t (task_text t))) (t :: all_buckets acc).
Proof.
  unfold classify, all_buckets. cbv zeta.
  destruct acc as [a b c d e f].
  repeat match goal with
         | |- context [Text.any_in ?k ?x] => destruct (Text.any_in k x)
         end;
    cbn [infrastructure_tasks core_functionality_tasks user_interface_tasks
         integration_tasks optimization_tasks unclassified_tasks];
    rewrite <- ?app_assoc.
  - apply perm_insert.
  - rewrite !(app_assoc a). apply perm_insert.
  - rewrite !(app_assoc a), !(app_assoc (a ++ b)). apply perm_insert.
  - rewrite !(app_assoc a), !(app_assoc (a ++ b)), !(app_assoc ((a ++ b) ++ c)).
    apply perm_insert.
  - rewrite !(app_assoc a), !(app_assoc (a ++ b)), !(app_assoc ((a ++ b) ++ c)),
      !(app_assoc (((a ++ b) ++ c) ++ d)).
    apply perm_insert.
  - rewrite !app_assoc. rewrite <- (app_nil_r [t]) at 1. rewrite <- (app_nil_r f) at 2.
    rewrite <- !app_assoc.
    rewrite !(app_assoc a), !(app_assoc (a ++ b)), !(app_assoc ((a ++ b) ++ c)),
      !(app_assoc (((a ++ b) ++ c) ++ d)), !(app_assoc ((((a ++ b) ++ c) ++ d) ++ e)).
    apply perm_insert.
Qed.


Lemma classify_all_buckets (tasks : list task) :
  forall acc,
    Permutation (all_buckets (fold_left (fun acc t => classify acc t (task_text t)) tasks acc)) (all_buckets acc ++ tasks).
Proof.
  induction tasks as [|t tasks IH]; intros acc; cbn [fold_left].
  - now rewrite app_nil_r.
  - rewrite IH, classify_one_all_buckets.
    change (t :: all_buckets acc ++ tasks) with ((t :: all_buckets acc) ++ tasks).
    rewrite (Permutation_cons_append (all_buckets acc) t), <- app_assoc.
    reflexivity.
Qed.



(** ** Dictionaries *)

Section DictFacts.
Context {V : Type}.
Implicit Types (d : Dict.t V) (k : string) (v : V).

Lemma get_set d k v k' :
  Dict.get (Dict.set d k v) k' = if String.eqb k' k then Some v else Dict.get d k'.
Proof.
  induction d as [|[k0 v0] d IH]; cbn [Dict.set Dict.get].
  - reflexivity.
  - destruct (String.eqb k k0) eqn:E; cbn [Dict.get].
    + apply String.eqb_eq in E. subst k0.
      destruct (String.eqb k' k); reflexivity.
    + rewrite IH. destruct (String.eqb k' k0) eqn:E'; [|reflexivity].
      apply String.eqb_eq in E'. subst k0.
      rewrite String.eqb_sym, E. reflexivity.
Qed.

Lemma keys_set d k v :
  Dict.keys (Dict.set d k v) =
  if existsb (String.eqb k) (Dict.keys d) then Dict.keys d else Dict.keys d ++ [k].
Proof.
  unfold Dict.keys.
  induction d as [|[k0 v0] d IH]; cbn [Dict.set map existsb fst app]; [reflexivity|].
  destruct (String.eqb k k0); cbn [map fst orb]; [reflexivity|].
  rewrite IH. destruct (existsb (String.eqb k) (map fst d)); reflexivity.
Qed.

Lemma NoDup_keys_set d k v : NoDup (Dict.keys d) -> NoDup (Dict.keys (Dict.set d k v)).
Proof.
  intros H. rewrite keys_set.
  destruct (existsb (String.eqb k) (Dict.keys d)) eqn:E; [assumption|].
  apply NoDup_app; [assumption | repeat constructor; intros [] |].
  intros x Hx [E0|[]]. subst x.
  assert (existsb (String.eqb k) (Dict.keys d) = true) as E'
    by (apply existsb_exists; exists k; split; [assumption | apply String.eqb_refl]).
  congruence.
Qed.

(** A loop of assignments: the last task with the key decides. *)
Lemma get_fold_set {A : Type} (key : A -> string) (val : A -> V) (xs : list A) :
  forall d k,
    Dict.get (fold_left (fun d x => Dict.set d (key x) (val x)) xs d) k =
    match find (fun x => String.eqb k (key x)) (rev xs) with
    | Some x => Some (val x)
    | None => Dict.get d k
    end.
Proof.
  induction xs as [|x xs IH] using rev_ind; intros d k.
  - reflexivity.
  - rewrite fold_left_app, rev_app_distr. cbn [fold_left rev app find].
    rewrite get_set. destruct (String.eqb k (key x)); [reflexivity | apply IH].
Qed.

Lemma NoDup_keys_fold_set {A : Type} (key : A -> string) (val : A -> V) (xs : list A) :
  forall d, NoDup (Dict.keys d) ->
            NoDup (Dict.keys (fold_left (fun d x => Dict.set d (key x) (val x)) xs d)).
Proof.
  induction xs as [|x xs IH]; intros d H; cbn [fold_left]; [assumption|].
  apply IH, NoDup_keys_set, H.
Qed.

Lemma get_set_all {A : Type} (key : A -> string) v (xs : list A) d k :
  Dict.get (Dict.set_all key v xs d) k =
  if existsb (fun x => String.eqb k (key x)) xs then Some v else Dict.get d k.
Proof.
  unfold Dict.set_all. rewrite (get_fold_set key (fun _ => v)).
  destruct (find (fun x => String.eqb k (key x)) (rev xs)) as [x|] eqn:E.
  - apply find_some in E. destruct E as [Hin E]. apply in_rev in Hin.
    replace (existsb (fun x => String.eqb k (key x)) xs) with true; [reflexivity|].
    symmetry. apply existsb_exists. eauto.
  - destruct (existsb (fun x => String.eqb k (key x)) xs) eqn:E'; [|reflexivity].
    apply existsb_exists in E'. destruct E' as [x [Hin Hx]].
    apply in_rev in Hin. apply (find_none _ _ E) in Hin. congruence.
Qed.

Lemma get_In d k v : Dict.get d k = Some v -> In (k, v) d.
Proof.
  induction d as [|[k0 v0] d IH]; cbn [Dict.get]; [discriminate|].
  destruct (String.eqb k k0) eqn:E.
  - apply String.eqb_eq in E. intros [= ->]. subst. now left.
  - intros H. right. auto.
Qed.

Lemma In_get d k v : NoDup (Dict.keys d) -> In (k, v) d -> Dict.get d k = Some v.
Proof.
  unfold Dict.keys.
  induction d as [|[k0 v0] d IH]; cbn [Dict.get map fst]; intros Hnd Hin; [destruct Hin|].
  inversion Hnd as [|? ? Hnot Hnd']; subst.
  destruct Hin as [[= -> ->]|Hin].
  - now rewrite String.eqb_refl.
  - destruct (String.eqb k k0) eqn:E; [|auto].
    apply String.eqb_eq in E. subst k0.
    exfalso. apply Hnot. apply (in_map fst) in Hin. exact Hin.
Qed.

End DictFacts.

Lemma existsb_key_In (k : string) (xs : list task) :
  existsb (fun x => String.eqb k (task_id x)) xs = true <-> In k (map task_id xs).
Proof.
  rewrite existsb_exists, in_map_iff. split.
  - intros [x [Hin E]]. apply String.eqb_eq in E. eauto.
  - intros [x [E Hin]]. exists x. split; [assumption|]. apply String.eqb_eq. auto.
Qed.

Lemma find_by_id_unique (tasks : list task) (t : task) :
  NoDup (map task_id tasks) -> In t tasks ->
  find (fun x => String.eqb (task_id t) (task_id x)) tasks = Some t.
Proof.
  induction tasks as [|u tasks IH]; cbn [map find]; intros Hnd Hin; [destruct Hin|].
  inversion Hnd as [|? ? Hnot Hnd']; subst.
  destruct Hin as [->|Hin].
  - now rewrite String.eqb_refl.
  - destruct (String.eqb (task_id t) (task_id u)) eqn:E; [|auto].
    apply String.eqb_eq in E. exfalso. apply Hnot. rewrite <- E. now apply in_map.
Qed.

(** ** Dependency analysis *)

(** C8. A task whose stored dependency field is a text that does not parse
    gets the empty list as its explicit dependencies: the analysis, which has
    no failure outcome, records [[]] under the task's id. *)
Theorem malformed_dependencies_read_as_empty (tasks : list task) (t : task) (raw : string) :
  NoDup (map task_id tasks) ->
  In t tasks ->
  depends_on_tasks t = Text (Malformed raw) ->
  Dict.get (explicit_dependencies (analyze_task_dependencies tasks)) (task_id t)
  = Some (JArr []).
Proof.
  intros Hnd Hin Hraw.
  cbn [analyze_task_dependencies explicit_dependencies]. unfold explicit_pass.
  rewrite (get_fold_set task_id (fun x => explicit_value (depends_on_tasks x))).
  rewrite find_by_id_unique.
  - now rewrite Hraw.
  - rewrite map_rev. now apply NoDup_rev.
  - now apply in_rev in Hin.
Qed.

Lemma malformed_dependencies_read_as_empty_witness :
  let tasks := [Sample.with_depends_on (Text (Malformed "{not json")) Sample.calculator;
                Sample.button] in
  Dict.get (explicit_dependencies (analyze_task_dependencies tasks)) "t1" = Some (JArr []).
Proof.
  intros tasks.
  apply (malformed_dependencies_read_as_empty tasks
           (Sample.with_depends_on (Text (Malformed "{not json")) Sample.calculator)
           "{not json").
  - repeat constructor; cbn; intuition discriminate.
  - left. reflexivity.
  - reflexivity.
Defined.

Lemma should_depend_on_in_spec (patterns : list (string * string)) (a b : string) :
  should_depend_on_in patterns a b = true <->
  exists p, In p patterns
            /\ Text.contains (fst p) a = true /\ Text.contains (snd p) b = true.
Proof.
  induction patterns as [|[k1 k2] patterns IH]; cbn [should_depend_on_in].
  - split; [discriminate | intros [p [[] _]]].
  - destruct (Text.contains k1 a && Text.contains k2 b) eqn:E.
    + apply andb_true_iff in E. split; [|reflexivity].
      intros _. exists (k1, k2). cbn [fst snd In]. tauto.
    + rewrite IH. split.
      * intros [p [Hin H]]. exists p. cbn [In]. tauto.
      * intros [p [[<-|Hin] [H1 H2]]].
        -- cbn [fst snd] in H1, H2. rewrite H1, H2 in E. discriminate.
        -- exists p. tauto.
Qed.

(** The inferred edges are exactly the ones of the ordered pairs of tasks
    with different ids whose lowercased titles match a pattern. *)
Lemma in_implicit_dependencies (tasks : list task) (e : implicit_dependency) :
  In e (implicit_dependencies (analyze_task_dependencies tasks)) <->
  exists a b,
    In a tasks /\ In b tasks /\ task_id a <> task_id b
    /\ _should_depend_on (Text.lower (title a)) (Text.lower (title b)) = true
    /\ e = mkImplicit (task_id a) (task_id b)
             (implicit_reason (Text.lower (title a)) (Text.lower (title b))).
Proof.
  cbn [analyze_task_dependencies implicit_dependencies].
  rewrite in_flat_map. split.
  - intros [a [Ha He]]. unfold implicit_for in He. apply in_flat_map in He.
    destruct He as [b [Hb He]]. exists a, b.
    destruct (String.eqb (task_id a) (task_id b)) eqn:E; [destruct He|].
    apply String.eqb_neq in E.
    destruct (_should_depend_on (Text.lower (title a)) (Text.lower (title b))) eqn:S;
      [|destruct He].
    destruct He as [<-|[]]. tauto.
  - intros [a [b (Ha & Hb & Hne & S & ->)]]. exists a. split; [assumption|].
    unfold implicit_for. apply in_flat_map. exists b. split; [assumption|].
    apply String.eqb_neq in Hne. rewrite Hne, S. now left.
Qed.

(** C9. For two tasks A and B of the list with different ids, an inferred
    edge from A to B is recorded exactly when some pair of the fixed pattern
    table has its dependent keyword in A's lowercased title and its
    dependency keyword in B's; the edge carries the generated reason. *)
Theorem implicit_edge_iff_pattern (tasks : list task) (a b : task) :
  NoDup (map task_id tasks) ->
  In a tasks -> In b tasks -> task_id a <> task_id b ->
  ((exists r, In (mkImplicit (task_id a) (task_id b) r)
                 (implicit_dependencies (analyze_task_dependencies tasks)))
   <->
   (exists p, In p dependency_patterns
              /\ Text.contains (fst p) (Text.lower (title a)) = true
              /\ Text.contains (snd p) (Text.lower (title b)) = true))
  /\ (forall r, In (mkImplicit (task_id a) (task_id b) r)
                   (implicit_dependencies (analyze_task_dependencies tasks)) ->
                r = implicit_reason (Text.lower (title a)) (Text.lower (title b))).
Proof.
  intros Hnd Ha Hb Hne.
  assert (same : forall x y, In x tasks -> In y tasks -> task_id x = task_id y -> x = y).
  { intros x y Hx Hy E.
    pose proof (find_by_id_unique tasks x Hnd Hx) as Fx.
    pose proof (find_by_id_unique tasks y Hnd Hy) as Fy.
    rewrite E in Fx. congruence. }
  assert (edge : forall r,
             In (mkImplicit (task_id a) (task_id b) r)
                (implicit_dependencies (analyze_task_dependencies tasks)) ->
             _should_depend_on (Text.lower (title a)) (Text.lower (title b)) = true
             /\ r = implicit_reason (Text.lower (title a)) (Text.lower (title b))).
  { intros r H. apply in_implicit_dependencies in H.
    destruct H as [a' [b' (Ha' & Hb' & _ & S & E)]].
    injection E as Ea Eb Er.
    apply (same a a' Ha Ha') in Ea. apply (same b b' Hb Hb') in Eb. subst a' b'.
    tauto. }
  split; [split|].
  - intros [r H]. apply should_depend_on_in_spec. apply (edge r H).
  - intros H. apply should_depend_on_in_spec in H.
    exists (implicit_reason (Text.lower (title a)) (Text.lower (title b))).
    apply in_implicit_dependencies. exists a, b. tauto.
  - intros r H. apply (edge r H).
Qed.

Lemma implicit_edge_iff_pattern_witness :
  let tasks := [Sample.component; Sample.api_client] in
  In (mkImplicit "t6" "t5" "'chart component' likely depends on 'rest api'")
     (implicit_dependencies (analyze_task_dependencies tasks)).
Proof.
  intros tasks.
  assert (Hnd : NoDup (map task_id tasks))
    by (repeat constructor; cbn; intuition discriminate).
  assert (Ha : In Sample.component tasks) by (left; reflexivity).
  assert (Hb : In Sample.api_client tasks) by (right; left; reflexivity).
  assert (Hne : task_id Sample.component <> task_id Sample.api_client) by discriminate.
  destruct (implicit_edge_iff_pattern tasks _ _ Hnd Ha Hb Hne) as [[_ Hback] Hreason].
  destruct Hback as [r Hr].
  - exists ("component", "api"). repeat split. left. reflexivity.
  - rewrite (Hreason r Hr) in Hr. exact Hr.
Defined.

(** ** Phase planner *)

Section PhasePlanner.

Lemma distribute_members (l : list task) :
  forall acc t,
    (In t (fst (fold_left distribute_unclassified l acc)) ->
     In t (fst acc) \/ In t l)
    /\ (In t (snd (fold_left distribute_unclassified l acc)) ->
        In t (snd acc) \/ In t l)
    /\ (In t (fst acc) \/ In t (snd acc) \/ In t l ->
        In t (fst (fold_left distribute_unclassified l acc))
        \/ In t (snd (fold_left distribute_unclassified l acc))).
Proof.
  induction l as [|u l IH]; intros [f c] t; cbn [fold_left fst snd].
  - cbn [In]. tauto.
  - destruct (IH (distribute_unclassified (f, c) u) t) as (IH1 & IH2 & IH3).
    unfold distribute_unclassified in *.
    destruct (String.eqb (status u) "completed");
      [|destruct (Text.any_in _ _)];
      cbn [fst snd In] in *; rewrite ?in_app_iff in *; cbn [In] in *;
      intuition auto.
Qed.

Lemma coordination_members (cx : complexity_analysis) (t : task) :
  In t (snd (redistribute cx)) ->
  In t (user_interface_tasks cx) \/ In t (integration_tasks cx)
  \/ In t (unclassified_tasks cx).
Proof.
  intros H. apply distribute_members in H. cbn [snd] in H.
  rewrite in_app_iff in H. tauto.
Qed.

Lemma foundation_members (cx : complexity_analysis) (t : task) :
  In t (fst (redistribute cx)) ->
  In t (infrastructure_tasks cx) \/ In t (unclassified_tasks cx).
Proof. intros H. apply distribute_members in H. exact H. Qed.

Lemma redistribute_covers (cx : complexity_analysis) (t : task) :
  In t (infrastructure_tasks cx) \/ In t (user_interface_tasks cx)
  \/ In t (integration_tasks cx) \/ In t (unclassified_tasks cx) ->
  In t (fst (redistribute cx)) \/ In t (snd (redistribute cx)).
Proof.
  intros H. apply distribute_members. cbn [fst snd]. rewrite in_app_iff. tauto.
Qed.

Lemma NoDup_app_parts {A : Type} (pre mid post : list A) :
  NoDup (pre ++ mid ++ post) ->
  forall x, In x mid -> ~ In x pre /\ ~ In x post.
Proof.
  intros H x Hx. split; intros Hx'.
  - apply in_split in Hx'. destruct Hx' as [p1 [p2 ->]].
    rewrite <- app_assoc in H. cbn [app] in H.
    apply NoDup_remove_2 in H. apply H.
    rewrite !in_app_iff. tauto.
  - apply in_split in Hx'. destruct Hx' as [p1 [p2 ->]].
    rewrite !app_assoc in H. apply NoDup_remove_2 in H. apply H.
    rewrite !in_app_iff. tauto.
Qed.

(** In a partition with unique ids, the id of a core_functionality task is
    the id of no task of another bucket. *)
Lemma core_id_elsewhere (cx : complexity_analysis) (t : task) :
  NoDup (map task_id (all_buckets cx)) ->
  In t (core_functionality_tasks cx) ->
  ~ In (task_id t) (map task_id (optimization_tasks cx))
  /\ ~ In (task_id t) (map task_id (snd (redistribute cx))).
Proof.
  intros Hnd Hin. unfold all_buckets in Hnd. rewrite !map_app in Hnd.
  destruct (NoDup_app_parts _ _ _ Hnd (task_id t) (in_map task_id _ _ Hin))
    as [Hpre Hpost].
  rewrite !in_app_iff in Hpost. split; [tauto|].
  intros H. apply in_map_iff in H. destruct H as [u [E Hu]].
  apply coordination_members in Hu.
  destruct Hu as [Hu|[Hu|Hu]]; apply (in_map task_id) in Hu; rewrite E in Hu; tauto.
Qed.

End PhasePlanner.

Lemma truthy_length {A : Type} (l : list A) (n : nat) :
  1 <= n -> truthy l && Nat.leb n (length l) = Nat.leb n (length l).
Proof.
  intros Hn. destruct l; cbn [truthy andb length]; [|reflexivity].
  symmetry. apply Nat.leb_gt. lia.
Qed.

Lemma existsb_id_false (k : string) (xs : list task) :
  ~ In k (map task_id xs) -> existsb (fun x => String.eqb k (task_id x)) xs = false.
Proof.
  intros H. destruct (existsb _ xs) eqn:E; [|reflexivity].
  apply existsb_key_In in E. contradiction.
Qed.

Lemma existsb_id_true (t : task) (xs : list task) :
  In t xs -> existsb (fun x => String.eqb (task_id t) (task_id x)) xs = true.
Proof. intros H. apply existsb_key_In. now apply in_map. Qed.

(** C6. In a layer partition (the ids of the tasks of the six buckets are
    pairwise different), two core_functionality tasks give no Intelligence
    phase and are both assigned to Foundation; three or more give an
    Intelligence phase that holds all of them, and each is assigned to it. *)
Theorem intelligence_threshold (da : domain_analysis) (cx : complexity_analysis) :
  NoDup (map task_id (all_buckets cx)) ->
  let ps := determine_optimal_phases da cx in
  (length (core_functionality_tasks cx) = 2 ->
     ~ In phase_2_intelligence (map phase_id (recommended_phases ps))
     /\ forall t, In t (core_functionality_tasks cx) ->
                  Dict.get (phase_assignments ps) (task_id t) = Some phase_1_foundation)
  /\ (3 <= length (core_functionality_tasks cx) ->
      (exists p, In p (recommended_phases ps)
                 /\ phase_id p = phase_2_intelligence
                 /\ tasks_of p = core_functionality_tasks cx)
      /\ forall t, In t (core_functionality_tasks cx) ->
                   Dict.get (phase_assignments ps) (task_id t) = Some phase_2_intelligence).
Proof.
  intros Hnd ps. subst ps.
  assert (assigned : forall t,
             In t (core_functionality_tasks cx) ->
             Dict.get (phase_assignments (determine_optimal_phases da cx)) (task_id t)
             = Some (if Nat.leb 3 (length (core_functionality_tasks cx))
                     then phase_2_intelligence else phase_1_foundation)).
  { intros t Hin.
    destruct (core_id_elsewhere cx t Hnd Hin) as [Hopt Hcoord].
    unfold determine_optimal_phases.
    destruct (redistribute cx) as [F C]. cbn [snd] in Hcoord.
    cbn [phase_assignments].
    rewrite (truthy_length (core_functionality_tasks cx) 3) by lia.
    assert (Hopt' := existsb_id_false _ _ Hopt).
    assert (Hcoord' := existsb_id_false _ _ Hcoord).
    assert (Hcore := existsb_id_true _ _ Hin).
    destruct (Nat.leb 3 (length (core_functionality_tasks cx)));
      destruct (truthy C && Nat.leb 5 (length C));
      destruct (truthy (optimization_tasks cx) && Nat.leb 2 (length (optimization_tasks cx)));
      rewrite !get_set_all, Hopt', Hcoord', Hcore; reflexivity. }
  split.
  - intros Hlen. split.
    + unfold determine_optimal_phases.
      destruct (redistribute cx) as [F C]. cbn [recommended_phases].
      rewrite (truthy_length (core_functionality_tasks cx) 3) by lia.
      replace (Nat.leb 3 (length (core_functionality_tasks cx))) with false
        by (symmetry; apply Nat.leb_gt; lia).
      destruct (truthy F);
        destruct (truthy C && Nat.leb 5 (length C));
        destruct (truthy (optimization_tasks cx)
                  && Nat.leb 2 (length (optimization_tasks cx)));
        cbn; intuition discriminate.
    + intros t Hin. rewrite (assigned t Hin).
      replace (Nat.leb 3 (length (core_functionality_tasks cx))) with false
        by (symmetry; apply Nat.leb_gt; lia).
      reflexivity.
  - intros Hlen.
    assert (E : Nat.leb 3 (length (core_functionality_tasks cx)) = true)
      by (apply Nat.leb_le; exact Hlen).
    split.
    + unfold determine_optimal_phases.
      destruct (redistribute cx) as [F C]. cbn [recommended_phases].
      rewrite (truthy_length (core_functionality_tasks cx) 3) by lia.
      rewrite E.
      exists (mkPhase phase_2_intelligence "Phase 2: Intelligence"
                (core_functionality_tasks cx)
                ("Core business logic and intelligent features"
                   +++ tasks_suffix (length (core_functionality_tasks cx)))).
      split; [|split; reflexivity].
      destruct (truthy C && Nat.leb 5 (length C));
        destruct (truthy (optimization_tasks cx)
                  && Nat.leb 2 (length (optimization_tasks cx)));
        rewrite ?in_app_iff; cbn [In]; tauto.
    + intros t Hin. rewrite (assigned t Hin), E. reflexivity.
Qed.

Lemma intelligence_threshold_witness :
  Dict.get (phase_assignments (Sample.plan [Sample.calculator; Sample.search])) "t1"
  = Some phase_1_foundation
  /\ Dict.get (phase_assignments
                 (Sample.plan [Sample.calculator; Sample.search; Sample.filtering])) "t1"
     = Some phase_2_intelligence.
Proof.
  split.
  - assert (Hnd : NoDup (map task_id (all_buckets (layers
                                           [Sample.calculator; Sample.search]))))
      by (vm_compute; repeat constructor; cbn; intuition discriminate).
    apply (proj2 (proj1 (intelligence_threshold
                           (analyze_project_domain [Sample.calculator; Sample.search])
                           _ Hnd)
                        eq_refl) Sample.calculator).
    left. reflexivity.
  - assert (Hnd : NoDup (map task_id
                           (all_buckets (layers
                              [Sample.calculator; Sample.search; Sample.filtering]))))
      by (vm_compute; repeat constructor; cbn; intuition discriminate).
    assert (Hlen : 3 <= length (core_functionality_tasks
                                  (layers
                                     [Sample.calculator; Sample.search; Sample.filtering])))
      by (vm_compute; lia).
    apply (proj2 (proj2 (intelligence_threshold
                           (analyze_project_domain
                              [Sample.calculator; Sample.search; Sample.filtering])
                           _ Hnd)
                        Hlen) Sample.calculator).
    left. reflexivity.
Defined.

(** C1. A single task with a core_functionality title: the mapping sends it
    to [phase_1_foundation], and the recommended phase list is empty, so the
    phase it is mapped to is not among the recommended phases. *)
Theorem assigned_phase_not_recommended :
  let ps := Sample.plan [Sample.calculator] in
  Dict.get (phase_assignments ps) (task_id Sample.calculator) = Some phase_1_foundation
  /\ recommended_phases ps = []
  /\ ~ In phase_1_foundation (map phase_id (recommended_phases ps)).
Proof. vm_compute. repeat split. intros []. Qed.

(** C3. One infrastructure, one core_functionality and one user_interface
    task: the only recommended phase is Foundation, no Intelligence phase is
    created, and the user_interface task is assigned to
    [phase_2_intelligence]. *)
Theorem coordination_fallback_to_missing_phase :
  let tasks := [Sample.schema; Sample.calculator; Sample.button] in
  let ps := Sample.plan tasks in
  (exists cx, analyze_task_complexity_layers tasks = Ok cx
              /\ user_interface_tasks cx = [Sample.button])
  /\ map phase_id (recommended_phases ps) = [phase_1_foundation]
  /\ Dict.get (phase_assignments ps) (task_id Sample.button) = Some phase_2_intelligence.
Proof.
  intros tasks ps. split.
  - eexists. split; vm_compute; reflexivity.
  - vm_compute. split; reflexivity.
Qed.

(** ** More on the phase planner *)

(** The assignment of an id, read off the four loops in reverse order: the
    optimization loop writes last, the foundation loop first. *)
Lemma assignment_lookup (da : domain_analysis) (cx : complexity_analysis) (k : string) :
  let F := fst (redistribute cx) in
  let C := snd (redistribute cx) in
  let I := core_functionality_tasks cx in
  let O := optimization_tasks cx in
  let has := fun l => existsb (fun x => String.eqb k (task_id x)) l in
  exists target_optimization,
    Dict.get (phase_assignments (determine_optimal_phases da cx)) k =
    if has O then Some target_optimization
    else if has C
         then Some (if truthy C && Nat.leb 5 (length C) then phase_3_coordination
                    else if truthy I then phase_2_intelligence else phase_1_foundation)
         else if has I
              then Some (if Nat.leb 3 (length I) then phase_2_intelligence
                         else phase_1_foundation)
              else if has F then Some phase_1_foundation else None.
Proof.
  intros F C I O has. subst F C I O has.
  unfold determine_optimal_phases.
  destruct (redistribute cx) as [F C]. cbn [fst snd phase_assignments].
  rewrite (truthy_length (core_functionality_tasks cx) 3) by lia.
  assert (first_loop : forall k',
             Dict.get (if truthy F then Dict.set_all task_id phase_1_foundation F []
                       else []) k'
             = if existsb (fun x => String.eqb k' (task_id x)) F
               then Some phase_1_foundation else None).
  { intros k'. destruct F; [reflexivity|]. cbn [truthy]. now rewrite get_set_all. }
  destruct (truthy (optimization_tasks cx) && Nat.leb 2 (length (optimization_tasks cx)));
    destruct (Nat.leb 3 (length (core_functionality_tasks cx)));
    destruct (truthy C && Nat.leb 5 (length C));
    eexists; rewrite !get_set_all, first_loop; reflexivity.
Qed.

Lemma assignment_keys_unique (da : domain_analysis) (cx : complexity_analysis) :
  NoDup (Dict.keys (phase_assignments (determine_optimal_phases da cx))).
Proof.
  unfold determine_optimal_phases.
  destruct (redistribute cx) as [F C]. cbn [phase_assignments].
  assert (start : NoDup (Dict.keys (if truthy F
                                    then Dict.set_all task_id phase_1_foundation F []
                                    else ([] : Dict.t string)))).
  { destruct (truthy F); [|constructor].
    apply (NoDup_keys_fold_set task_id (fun _ => phase_1_foundation)). constructor. }
  unfold Dict.set_all in *.
  repeat match goal with
         | |- context [if ?b then _ else _] => destruct b
         end;
    repeat apply (NoDup_keys_fold_set task_id (fun _ => _));
    first [exact start | constructor].
Qed.

Lemma phase_plan_keys_unique (tasks : list task) :
  NoDup (Dict.keys (phase_assignments (phase_plan tasks))).
Proof.
  unfold phase_plan.
  destruct (analyze_task_complexity_layers tasks) as [cx|e].
  - apply assignment_keys_unique.
  - constructor.
Qed.

(** Every task of the partition has an entry in the mapping, under one of
    the four phase ids; the mapping has one entry per id. *)
Lemma every_task_assigned (da : domain_analysis) (cx : complexity_analysis) (t : task) :
  In t (all_buckets cx) ->
  exists pid, Dict.get (phase_assignments (determine_optimal_phases da cx)) (task_id t)
              = Some pid.
Proof.
  intros Hin. unfold all_buckets in Hin. rewrite !in_app_iff in Hin.
  destruct (assignment_lookup da cx (task_id t)) as [tO Hget]. cbv zeta in Hget.
  rewrite Hget.
  assert (covered :
            In t (optimization_tasks cx) \/ In t (core_functionality_tasks cx)
            \/ In t (fst (redistribute cx)) \/ In t (snd (redistribute cx))).
  { destruct Hin as [H|[H|[H|[H|[H|H]]]]]; try tauto;
      right; right; apply redistribute_covers; tauto. }
  destruct covered as [H|[H|[H|H]]]; apply existsb_id_true in H; rewrite H;
    repeat match goal with
           | |- context [if ?b then _ else _] => destruct b
           end; eauto.
Qed.

(** A Coordination phase is recommended exactly when the coordination list
    has five tasks or more. *)
Lemma coordination_phase_iff (da : domain_analysis) (cx : complexity_analysis) :
  In phase_3_coordination
     (map phase_id (recommended_phases (determine_optimal_phases da cx)))
  <-> 5 <= length (snd (redistribute cx)).
Proof.
  unfold determine_optimal_phases.
  destruct (redistribute cx) as [F C]. cbn [snd recommended_phases].
  rewrite (truthy_length C 5) by lia.
  destruct (Nat.leb 5 (length C)) eqn:E.
  - apply Nat.leb_le in E. split; [intros _; exact E|intros _].
    repeat match goal with
           | |- context [if ?b then _ else _] => destruct b
           end; rewrite ?map_app, ?in_app_iff; cbn; tauto.
  - apply Nat.leb_gt in E. split; [|lia].
    repeat match goal with
           | |- context [if ?b then _ else _] => destruct b
           end; rewrite ?map_app, ?in_app_iff; cbn; intuition discriminate.
Qed.

(** ** The planner on the classifier's partition *)

Lemma prefix_append (k a b : string) :
  String.prefix k a = true -> String.prefix k (a +++ b) = true.
Proof.
  revert a. induction k as [|c k IH]; intros a;
    [intros _; destruct (a +++ b); reflexivity|].
  destruct a as [|c' a]; cbn [String.prefix String.append]; [discriminate|].
  destruct (ascii_dec c c'); [apply IH | discriminate].
Qed.

Lemma contains_append (k a b : string) :
  Text.contains k a = true -> Text.contains k (a +++ b) = true.
Proof.
  induction a as [|c a IH]; cbn [Text.contains String.append].
  - rewrite orb_false_r. intros H. destruct k; [|discriminate H].
    destruct b; reflexivity.
  - intros H. apply orb_true_iff in H. apply orb_true_iff.
    destruct H as [H|H].
    + left. apply (prefix_append k (String c a) b H).
    + right. apply IH, H.
Qed.

(** A title keyword of the unclassified loop is a user_interface keyword,
    and the title is the head of the classified text. *)
Lemma title_hit_is_interface_hit (t : task) :
  Text.any_in ["page"; "ui"; "interface"; "component"] (Text.lower (title t)) = true ->
  Text.any_in user_interface_keywords (task_text t) = true.
Proof.
  unfold Text.any_in. rewrite !existsb_exists.
  intros [k [Hk Hhit]]. exists k. split.
  - cbn [In] in Hk. unfold user_interface_keywords. cbn [In].
    intuition auto.
  - unfold task_text. now apply contains_append.
Qed.

Lemma unclassified_no_interface_hit (t : task) :
  first_match t = Unclassified ->
  Text.any_in ["page"; "ui"; "interface"; "component"] (Text.lower (title t)) = false.
Proof.
  intros H.
  destruct (Text.any_in ["page"; "ui"; "interface"; "component"] (Text.lower (title t)))
    eqn:E; [|reflexivity].
  apply title_hit_is_interface_hit in E.
  rewrite first_match_chain in H. cbv zeta in H. rewrite E in H.
  destruct (Text.any_in infrastructure_keywords (task_text t)); [discriminate|].
  destruct (Text.any_in core_functionality_keywords (task_text t)); discriminate.
Qed.

Lemma distribute_to_foundation (l : list task) :
  Forall (fun t => first_match t = Unclassified) l ->
  forall f c, fold_left distribute_unclassified l (f, c) = (f ++ l, c).
Proof.
  induction 1 as [|t l Ht Hl IH]; intros f c; cbn [fold_left].
  - now rewrite app_nil_r.
  - unfold distribute_unclassified at 2.
    rewrite (unclassified_no_interface_hit t Ht).
    destruct (String.eqb (status t) "completed"); rewrite IH, <- app_assoc; reflexivity.
Qed.

(** On the classifier's partition the unclassified tasks all go to
    Foundation: the coordination list is the two buckets. *)
Lemma redistribute_classified (tasks : list task) :
  let cx := layers tasks in
  redistribute cx
  = (infrastructure_tasks cx ++ unclassified_tasks cx,
     user_interface_tasks cx ++ integration_tasks cx).
Proof.
  intros cx. unfold redistribute. apply distribute_to_foundation.
  apply Forall_forall. intros t Ht.
  apply (in_bucket tasks Unclassified t) in Ht. tauto.
Qed.

(** What the code does below the coordination threshold: no Coordination
    phase, and the user_interface and integration tasks go to
    [phase_2_intelligence] as soon as the core_functionality bucket is not
    empty, whether or not the Intelligence phase was created. *)
Lemma coordination_below_threshold (tasks : list task) (t : task) :
  let cx := layers tasks in
  let ps := determine_optimal_phases (analyze_project_domain tasks) cx in
  NoDup (map task_id tasks) ->
  length (user_interface_tasks cx) + length (integration_tasks cx) < 5 ->
  In t (user_interface_tasks cx ++ integration_tasks cx) ->
  ~ In phase_3_coordination (map phase_id (recommended_phases ps))
  /\ Dict.get (phase_assignments ps) (task_id t)
     = Some (if truthy (core_functionality_tasks cx)
             then phase_2_intelligence else phase_1_foundation).
Proof.
  intros cx ps Hnd Hlen Hin. subst ps.
  pose proof (redistribute_classified tasks) as Hred. fold cx in Hred. cbv zeta in Hred.
  split.
  - rewrite coordination_phase_iff, Hred. cbn [snd]. rewrite length_app. lia.
  - destruct (assignment_lookup (analyze_project_domain tasks) cx (task_id t))
      as [tO Hget].
    cbv zeta in Hget. rewrite Hget, Hred. cbn [fst snd].
    assert (Hids : NoDup (map task_id (all_buckets cx))).
    { apply (Permutation_NoDup (l := map task_id tasks)); [|exact Hnd].
      apply Permutation_map. symmetry.
      unfold cx, layers.
      now rewrite classify_all_buckets. }
    unfold all_buckets in Hids. rewrite !map_app in Hids.
    assert (Hopt : ~ In (task_id t) (map task_id (optimization_tasks cx))).
    { rewrite (app_assoc (map task_id (infrastructure_tasks cx))),
              (app_assoc (map task_id (user_interface_tasks cx))) in Hids.
      destruct (NoDup_app_parts _ _ _ Hids (task_id t)) as [_ Hpost].
      - rewrite <- map_app. now apply in_map.
      - intros Ho. apply Hpost. apply in_app_iff. now left. }
    rewrite (existsb_id_false _ _ Hopt), (existsb_id_true _ _ Hin).
    rewrite (truthy_length _ 5) by lia.
    replace (Nat.leb 5 (length (user_interface_tasks cx ++ integration_tasks cx)))
      with false; [reflexivity|].
    symmetry. apply Nat.leb_gt. rewrite length_app. lia.
Qed.

(** ** Store calls *)

Section StoreCalls.

Lemma quiet_tick (w : world) : quiet w -> quiet (tick w).
Proof.
  unfold quiet, tick. cbn [faults].
  destruct (faults w) as [|b r]; cbn [tl In]; tauto.
Qed.

Lemma quiet_hd (w : world) : quiet w -> hd false (faults w) = false.
Proof.
  unfold quiet. destruct (faults w) as [|[] r]; cbn [hd In]; tauto.
Qed.

Lemma store_call_quiet (w : world) : quiet w -> store_call w = (Ok tt, tick w).
Proof. intros H. unfold store_call. now rewrite (quiet_hd w H). Qed.

Lemma store_call_fails (w : world) :
  hd false (faults w) = true -> store_call w = (Raise OperationalError, tick w).
Proof. intros H. unfold store_call. now rewrite H. Qed.

Lemma get_db_connection_quiet (w : world) :
  quiet w ->
  yields get_db_connection w
    (fun _ w' => disk w' = disk w /\ work w' = disk w /\ quiet w').
Proof.
  intros H. unfold yields, get_db_connection, bind.
  rewrite (store_call_quiet w H). eexists _, _. split; [reflexivity|].
  cbn [disk work]. repeat split. apply (quiet_tick w H).
Qed.

Lemma query_quiet {A : Type} (q : database -> A) (w : world) :
  quiet w ->
  yields (query q) w
    (fun a w' => a = q (work w) /\ disk w' = disk w /\ work w' = work w /\ quiet w').
Proof.
  intros H. unfold yields, query, bind.
  rewrite (store_call_quiet w H). eexists _, _. split; [reflexivity|].
  cbn [disk work]. repeat split. apply (quiet_tick w H).
Qed.

Lemma execute_quiet (q : database -> database) (w : world) :
  quiet w ->
  yields (execute q) w
    (fun _ w' => disk w' = disk w /\ work w' = q (work w) /\ quiet w').
Proof.
  intros H. unfold yields, execute, bind.
  rewrite (store_call_quiet w H). eexists _, _. split; [reflexivity|].
  cbn [disk work]. repeat split. apply (quiet_tick w H).
Qed.

Lemma commit_quiet (w : world) :
  quiet w ->
  yields commit w
    (fun _ w' => disk w' = work w /\ work w' = work w /\ quiet w').
Proof.
  intros H. unfold yields, commit, bind.
  rewrite (store_call_quiet w H). eexists _, _. split; [reflexivity|].
  cbn [disk work]. repeat split. apply (quiet_tick w H).
Qed.

Lemma yields_ret {A : Type} (a : A) (w : world) (Q : A -> world -> Prop) :
  Q a w -> yields (ret a) w Q.
Proof. intros H. exists a, w. split; [reflexivity | exact H]. Qed.

Lemma yields_bind {A B : Type} (m : M A) (k : A -> M B) (w : world)
    (P : A -> world -> Prop) (Q : B -> world -> Prop) :
  yields m w P ->
  (forall a w', P a w' -> yields (k a) w' Q) ->
  yields (bind m k) w Q.
Proof.
  intros (a & w' & Hm & HP) Hk.
  destruct (Hk a w' HP) as (b & w'' & Hka & HQ).
  exists b, w''. unfold bind. rewrite Hm. split; assumption.
Qed.

Lemma yields_try {A : Type} (m : M A) (h : exn -> M A) (w : world)
    (Q : A -> world -> Prop) :
  yields m w Q -> yields (try_except m h) w Q.
Proof.
  intros (a & w' & Hm & HQ). exists a, w'. unfold try_except. rewrite Hm. tauto.
Qed.

Lemma yields_weaken {A : Type} (m : M A) (w : world) (P Q : A -> world -> Prop) :
  yields m w P -> (forall a w', P a w' -> Q a w') -> yields m w Q.
Proof. intros (a & w' & Hm & HP) H. exists a, w'. auto. Qed.

(** *** Frame *)

Section Frame.
Variable I : world -> Prop.
Variable writes : (database -> database) -> Prop.
Hypothesis HI : stable I writes.

Lemma keeps_ret {A : Type} (a : A) : keeps I (ret a).
Proof. intros w r w' [= <- <-]. tauto. Qed.

Lemma keeps_lift {A : Type} (r : result A) : keeps I (lift r).
Proof. intros w r' w' [= <- <-]. tauto. Qed.

Lemma keeps_bind {A B : Type} (m : M A) (k : A -> M B) :
  keeps I m -> (forall a, keeps I (k a)) -> keeps I (bind m k).
Proof.
  intros Hm Hk w r w'. unfold bind.
  destruct (m w) as [[a|e] w1] eqn:E.
  - intros H Hq. apply (Hk a w1 r w' H). apply (Hm w _ w1 E Hq).
  - intros [= <- <-] Hq. apply (Hm w _ w1 E Hq).
Qed.

Lemma keeps_try {A : Type} (m : M A) (h : exn -> M A) :
  keeps I m -> (forall e, keeps I (h e)) -> keeps I (try_except m h).
Proof.
  intros Hm Hh w r w'. unfold try_except.
  destruct (m w) as [[a|e] w1] eqn:E.
  - intros [= <- <-] Hq. apply (Hm w _ w1 E Hq).
  - intros H Hq. apply (Hh e w1 r w' H). apply (Hm w _ w1 E Hq).
Qed.

Lemma keeps_store_call : keeps I store_call.
Proof. intros w r w' [= <- <-]. apply (stable_tick _ _ HI). Qed.

Lemma keeps_get_db_connection : keeps I get_db_connection.
Proof.
  apply keeps_bind; [apply keeps_store_call|].
  intros _ w r w' [= <- <-]. apply (stable_connect _ _ HI).
Qed.

Lemma keeps_query {A : Type} (q : database -> A) : keeps I (query q).
Proof.
  apply keeps_bind; [apply keeps_store_call|].
  intros _ w r w' [= <- <-]. tauto.
Qed.

Lemma keeps_execute (q : database -> database) : writes q -> keeps I (execute q).
Proof.
  intros Hq. apply keeps_bind; [apply keeps_store_call|].
  intros _ w r w' [= <- <-]. now apply (stable_write _ _ HI).
Qed.

Lemma keeps_commit : keeps I commit.
Proof.
  apply keeps_bind; [apply keeps_store_call|].
  intros _ w r w' [= <- <-]. apply (stable_commit _ _ HI).
Qed.

Lemma keeps_for_each {A : Type} (xs : list A) (body : A -> M unit) :
  (forall x, keeps I (body x)) -> keeps I (for_each xs body).
Proof.
  intros H. induction xs as [|x xs IH]; cbn [for_each].
  - apply keeps_ret.
  - apply keeps_bind; [apply H | intros _; apply IH].
Qed.

End Frame.

Lemma stable_quiet : stable quiet (fun _ => True).
Proof.
  split.
  - apply quiet_tick.
  - intros w H. exact H.
  - intros w H. exact H.
  - intros q w _ H. exact H.
Qed.

Lemma total_try_ret {A : Type} (m : M A) (x : A) : total (try_except m (fun _ => ret x)).
Proof.
  intros w. unfold try_except. destruct (m w) as [[a|e] w1]; eexists _, _; reflexivity.
Qed.

End StoreCalls.

(** Walks through a computation; the writes are left as side conditions. *)
Ltac keeps_steps HI :=
  repeat (intros;
          match goal with
          | |- keeps _ (bind _ _) => apply keeps_bind
          | |- keeps _ (try_except _ _) => apply keeps_try
          | |- keeps _ (ret _) => apply keeps_ret
          | |- keeps _ (lift _) => apply keeps_lift
          | |- keeps _ (query _) => apply (keeps_query _ _ HI)
          | |- keeps _ (execute _) => apply (keeps_execute _ _ HI)
          | |- keeps _ commit => apply (keeps_commit _ _ HI)
          | |- keeps _ get_db_connection => apply (keeps_get_db_connection _ _ HI)
          | |- keeps _ (match ?x with _ => _ end) => destruct x
          end).

(** ** Reparenting *)

Section Reparenting.
Variable now : string.
Variable ps : phase_structure.

Lemma total_migrate_task (tid pid : string) : total (_migrate_task_to_phase now tid pid ps).
Proof. apply total_try_ret. Qed.

(** With no failing store call, the step acts on the working copy as
    [migrate_db] and reports [migrates]. *)
Lemma migrate_task_quiet (tid pid : string) (w : world) :
  quiet w ->
  yields (_migrate_task_to_phase now tid pid ps) w
    (fun b w' => b = migrates now ps tid pid (work w)
                 /\ disk w' = disk w
                 /\ work w' = migrate_db now ps tid pid (work w)
                 /\ quiet w').
Proof.
  intros Hq.
  destruct (query_quiet (select_task tid) w Hq) as (found & w1 & Hsel & -> & Hd & Hw & Hq1).
  unfold yields, _migrate_task_to_phase, migrate_task_body, try_except, bind at 1.
  rewrite Hsel. unfold migrates, migrate_db, migrated_notes.
  destruct (select_task tid (work w)) as [t|].
  - destruct (new_parent_of ps pid (parent_task t)) as [np mt]. cbn [fst snd].
    unfold bind at 1. unfold lift at 1.
    destruct (load_notes (notes t)) as [v|e].
    + unfold bind at 1. unfold lift at 1.
      destruct (append_to v (migration_note now ps pid mt)) as [n|e].
      * destruct (execute_quiet
                    (update_tasks tid (set_parent_and_notes (Some np) now (json_dumps n)))
                    w1 Hq1) as ([] & w2 & Hex & Hd2 & Hw2 & Hq2).
        unfold bind. rewrite Hex. unfold ret.
        eexists _, _. split; [reflexivity|].
        rewrite Hd2, Hw2, Hd, Hw. tauto.
      * unfold ret. eexists _, _. split; [reflexivity|]. tauto.
    + unfold ret. eexists _, _. split; [reflexivity|]. tauto.
  - unfold ret. eexists _, _. split; [reflexivity|]. tauto.
Qed.

End Reparenting.

Section Tables.

Lemma select_update (k k' : string) (f : task -> task) (d : database) :
  (forall t, task_id (f t) = task_id t) ->
  select_task k' (update_tasks k f d) =
  if String.eqb k' k then option_map f (select_task k d) else select_task k' d.
Proof.
  intros Hid. unfold select_task, update_tasks. cbn [tasks].
  induction (tasks d) as [|t l IH]; cbn [map find option_map].
  - now destruct (String.eqb k' k).
  - destruct (String.eqb (task_id t) k) eqn:E.
    + apply String.eqb_eq in E. rewrite Hid, E.
      destruct (String.eqb k' k) eqn:E'.
      * apply String.eqb_eq in E'. subst k'. now rewrite String.eqb_refl.
      * rewrite (String.eqb_sym k k'), E'. exact IH.
    + destruct (String.eqb (task_id t) k') eqn:E'.
      * apply String.eqb_eq in E'. subst k'. now rewrite E.
      * exact IH.
Qed.

Lemma select_insert (k : string) (r t : task) (d : database) :
  select_task k d = Some t -> select_task k (insert_task r d) = Some t.
Proof.
  unfold select_task, insert_task. cbn [tasks].
  induction (tasks d) as [|u l IH]; cbn [app find]; [discriminate|].
  destruct (String.eqb (task_id u) k); auto.
Qed.

Lemma set_parent_and_notes_id (p : option string) (now : string) (n : text) (t : task) :
  task_id (set_parent_and_notes p now n t) = task_id t.
Proof. reflexivity. Qed.

End Tables.

(** The step reports a migration only when it found the task, loaded its
    notes as a list, and wrote the new parent and notes. *)
Lemma migrate_task_true (now : string) (ps : phase_structure) (tid pid : string)
    (w w' : world) :
  _migrate_task_to_phase now tid pid ps w = (Ok true, w') ->
  exists t n,
    select_task tid (work w) = Some t
    /\ migrated_notes now ps pid t = Ok n
    /\ work w' = update_tasks tid
                   (set_parent_and_notes
                      (Some (fst (new_parent_of ps pid (parent_task t)))) now (json_dumps n))
                   (work w)
    /\ disk w' = disk w.
Proof.
  unfold _migrate_task_to_phase, migrate_task_body, try_except, bind at 1.
  unfold query, bind at 1, store_call.
  destruct (hd false (faults w)); [discriminate|].
  cbn [work disk faults].
  destruct (select_task tid (work w)) as [t|]; [|discriminate].
  destruct (new_parent_of ps pid (parent_task t)) as [np mt] eqn:Enp.
  unfold bind at 1, lift at 1.
  destruct (load_notes (notes t)) as [v|e] eqn:Eload; [|discriminate].
  unfold bind at 1, lift at 1.
  destruct (append_to v (migration_note now ps pid mt)) as [n|e] eqn:Eapp; [|discriminate].
  unfold execute, bind, store_call. cbn [work disk faults].
  destruct (hd false (tl (faults w))); [discriminate|].
  unfold ret. intros [= <-]. cbn [work disk].
  exists t, n. unfold migrated_notes. rewrite Enp, Eload. cbn [fst snd].
  repeat split. exact Eapp.
Qed.

(** C5. A task processed by the reparenting step (the row found under its
    id), when it is reported as migrated (which happens whenever no store
    call fails and its notes load as a list): a null parent becomes the
    assigned phase id (migration type root_to_phase), a parent assigned to
    the same phase is kept (hierarchy_preserved), a parent assigned to
    another phase or to none is replaced by the task's own phase id
    (orphan_to_phase); the note list is the old one followed by one audit
    note, which carries the time of the update, the author
    intelligent_migration and a text naming the phase id, the justification
    of the recommended phase of that id (Intelligent analysis when there is
    none) and the migration type; the other columns are kept, the update
    time apart. *)
Theorem reparenting_rule (now : string) (ps : phase_structure) (tid pid : string)
    (w : world) (t : task) :
  select_task tid (work w) = Some t ->
  (forall items, quiet w -> notes t = Text (Encoded (JArr items)) ->
                 exists w', _migrate_task_to_phase now tid pid ps w = (Ok true, w'))
  /\ (forall w',
        _migrate_task_to_phase now tid pid ps w = (Ok true, w') ->
        exists items t' why migration_type,
          notes t = Text (Encoded (JArr items))
          /\ select_task tid (work w') = Some t'
          /\ (parent_task t = None ->
              parent_task t' = Some pid /\ migration_type = "root_to_phase")
          /\ (forall p, parent_task t = Some p ->
                        Dict.get (phase_assignments ps) p = Some pid ->
                        parent_task t' = Some p /\ migration_type = "hierarchy_preserved")
          /\ (forall p, parent_task t = Some p ->
                        Dict.get (phase_assignments ps) p <> Some pid ->
                        parent_task t' = Some pid /\ migration_type = "orphan_to_phase")
          /\ (forall p, find (fun p => String.eqb (phase_id p) pid) (recommended_phases ps)
                        = Some p ->
                        why = justification p)
          /\ (find (fun p => String.eqb (phase_id p) pid) (recommended_phases ps) = None ->
              why = "Intelligent analysis")
          /\ content t' = content t
          /\ updated_at t' = now
          /\ (exists n, notes t' = Text (json_dumps (JArr (items ++ [n])))
                        /\ length (items ++ [n]) = S (length items)
                        /\ n = JObj [("timestamp", JStr now);
                                     ("author", JStr "intelligent_migration");
                                     ("content",
                                      JStr ("🧠 Intelligent migration: Assigned to " +++ pid
                                            +++ " based on AI analysis. " +++ why
                                            +++ ". Migration type: " +++ migration_type
                                            +++ "."))])).
Proof.
  intros Hsel. split.
  - intros items Hq Hnotes.
    destruct (migrate_task_quiet now ps tid pid w Hq) as (b & w' & Hrun & -> & _).
    exists w'. rewrite Hrun. unfold migrates, migrated_notes.
    rewrite Hsel, Hnotes. reflexivity.
  - intros w' Hrun.
    apply migrate_task_true in Hrun.
    destruct Hrun as (t0 & n & Hsel0 & Hnotes & Hwork & _).
    rewrite Hsel in Hsel0. injection Hsel0 as <-.
    unfold migrated_notes in Hnotes.
    destruct (notes t) as [|[raw|v]] eqn:En; cbn [load_notes json_loads] in Hnotes;
      try discriminate.
    destruct v as [| | | |items|]; cbn [append_to] in Hnotes; try discriminate.
    injection Hnotes as <-.
    exists items, (migrated_row now ps pid
                     (JArr (items ++ [migration_note now ps pid
                                        (snd (new_parent_of ps pid (parent_task t)))])) t),
      (match find (fun p => String.eqb (phase_id p) pid) (recommended_phases ps) with
       | Some p => justification p
       | None => "Intelligent analysis"
       end),
      (snd (new_parent_of ps pid (parent_task t))).
    split; [reflexivity|]. split.
    { rewrite Hwork, select_update by apply set_parent_and_notes_id.
      rewrite String.eqb_refl, Hsel. reflexivity. }
    unfold migrated_row.
    cbn [set_parent_and_notes parent_task notes content task_id title description
         assigned_to created_by status priority created_at updated_at child_tasks
         depends_on_tasks].
    unfold new_parent_of.
    repeat apply conj.
    + intros ->. split; reflexivity.
    + intros p -> Hp. rewrite Hp, String.eqb_refl. split; reflexivity.
    + intros p -> Hp.
      destruct (Dict.get (phase_assignments ps) p) as [pp|]; [|split; reflexivity].
      destruct (String.eqb pp pid) eqn:E; [|split; reflexivity].
      apply String.eqb_eq in E. congruence.
    + intros p ->. reflexivity.
    + intros ->. reflexivity.
    + unfold content. reflexivity.
    + reflexivity.
    + eexists. split; [reflexivity|]. split.
      * rewrite length_app. cbn [length]. lia.
      * reflexivity.
Qed.

Lemma reparenting_rule_witness :
  let rows := [Sample.schema; Sample.calculator; Sample.search;
               Sample.with_parent "t4" Sample.filtering] in
  let w := at_rest (Sample.db rows) [] in
  select_task "t8" (work w) = Some (Sample.with_parent "t4" Sample.filtering)
  /\ exists w',
       _migrate_task_to_phase Sample.clock "t8" phase_2_intelligence (Sample.plan rows) w
       = (Ok true, w').
Proof.
  intros rows w.
  assert (Hsel : select_task "t8" (work w) = Some (Sample.with_parent "t4" Sample.filtering))
    by reflexivity.
  split; [exact Hsel|].
  apply (proj1 (reparenting_rule Sample.clock (Sample.plan rows) "t8" phase_2_intelligence
                  w _ Hsel) []).
  - intros [].
  - reflexivity.
Defined.

(** ** Persisting the plan *)

Section ExecuteMigration.
Variable now : string.
Variable ps : phase_structure.

Lemma select_migrate_db (k k' pid : string) (d : database) :
  select_task k' (migrate_db now ps k pid d) =
  if String.eqb k' k
  then option_map (after_migration now ps pid) (select_task k d)
  else select_task k' d.
Proof.
  unfold migrate_db, after_migration, migrated_row.
  destruct (select_task k d) as [t|] eqn:E.
  - destruct (migrated_notes now ps pid t) as [n|e] eqn:En.
    + rewrite select_update by apply set_parent_and_notes_id.
      rewrite E. cbn [option_map]. now rewrite En.
    + destruct (String.eqb k' k) eqn:E'; [|reflexivity].
      apply String.eqb_eq in E'. subst k'. rewrite E. cbn [option_map].
      now rewrite En.
  - destruct (String.eqb k' k) eqn:E'; [|reflexivity].
    apply String.eqb_eq in E'. subst k'. now rewrite E.
Qed.

(** The loop touches the row of an id only at the item of that id. *)
Lemma select_migrate_all (items : list (string * string)) :
  NoDup (Dict.keys items) ->
  forall d k t,
    select_task k d = Some t ->
    (forall pid, In (k, pid) items ->
                 select_task k (migrate_all_db now ps items d)
                 = Some (after_migration now ps pid t))
    /\ (~ In k (Dict.keys items) ->
        select_task k (migrate_all_db now ps items d) = Some t).
Proof.
  unfold Dict.keys, migrate_all_db.
  induction items as [|[k0 p0] items IH]; cbn [map fst snd fold_left];
    intros Hnd d k t Hsel.
  - split; [intros pid []|intros _; exact Hsel].
  - inversion Hnd as [|? ? Hnot Hnd']; subst.
    pose proof (select_migrate_db k0 k p0 d) as Hstep.
    destruct (String.eqb k k0) eqn:E.
    + apply String.eqb_eq in E. subst k0. rewrite Hsel in Hstep.
      cbn [option_map] in Hstep.
      destruct (IH Hnd' _ _ _ Hstep) as [_ IH2].
      split.
      * intros pid [[= <-]|Hin]; [now apply IH2|].
        exfalso. apply Hnot. apply (in_map fst) in Hin. exact Hin.
      * intros Hno. exfalso. apply Hno. now left.
    + rewrite Hsel in Hstep. destruct (IH Hnd' _ _ _ Hstep) as [IH1 IH2].
      apply String.eqb_neq in E. split.
      * intros pid [[= -> ->]|Hin]; [congruence | now apply IH1].
      * intros Hno. apply IH2. cbn [In] in Hno. tauto.
Qed.

Lemma select_create_phases (phases : list phase) :
  forall d k t,
    select_task k d = Some t ->
    select_task k (fold_left (create_phase_db now) phases d) = Some t.
Proof.
  induction phases as [|p phases IH]; cbn [fold_left]; intros d k t H; [exact H|].
  apply IH. unfold create_phase_db.
  destruct (select_task (phase_id p) d); [exact H | now apply select_insert].
Qed.

Lemma create_phase_quiet (p : phase) (w : world) :
  quiet w ->
  yields (_create_phase now p) w
    (fun _ w' => disk w' = disk w
                 /\ work w' = create_phase_db now (work w) p /\ quiet w').
Proof.
  intros Hq. unfold _create_phase.
  eapply yields_bind; [apply (query_quiet _ w Hq)|].
  intros found w1 (-> & Hd & Hw & Hq1). unfold create_phase_db.
  destruct (select_task (phase_id p) (work w)).
  - apply yields_ret. rewrite Hd, Hw. tauto.
  - eapply yields_weaken; [apply (execute_quiet _ w1 Hq1)|].
    intros _ w2 (Hd2 & Hw2 & Hq2). rewrite Hd2, Hw2, Hd, Hw. tauto.
Qed.

Lemma create_phases_quiet (phases : list phase) :
  forall w,
    quiet w ->
    yields (for_each phases (_create_phase now)) w
      (fun _ w' => disk w' = disk w
                   /\ work w' = fold_left (create_phase_db now) phases (work w)
                   /\ quiet w').
Proof.
  induction phases as [|p phases IH]; intros w Hq; cbn [for_each fold_left].
  - apply yields_ret. tauto.
  - eapply yields_bind; [apply (create_phase_quiet p w Hq)|].
    intros _ w1 (Hd & Hw & Hq1).
    eapply yields_weaken; [apply (IH w1 Hq1)|].
    intros _ w2 (Hd2 & Hw2 & Hq2). rewrite Hd2, Hw2, Hd, Hw. tauto.
Qed.

Lemma migrate_all_quiet (items : list (string * string)) :
  forall count w,
    quiet w ->
    yields (migrate_all now items ps count) w
      (fun _ w' => disk w' = disk w
                   /\ work w' = migrate_all_db now ps items (work w)
                   /\ quiet w').
Proof.
  unfold migrate_all_db.
  induction items as [|[tid pid] items IH]; intros count w Hq;
    cbn [migrate_all fold_left fst snd].
  - apply yields_ret. tauto.
  - eapply yields_bind; [apply (migrate_task_quiet now ps tid pid w Hq)|].
    intros b w1 (_ & Hd & Hw & Hq1).
    eapply yields_weaken; [apply (IH _ w1 Hq1)|].
    intros _ w2 (Hd2 & Hw2 & Hq2). rewrite Hd2, Hw2, Hd, Hw. tauto.
Qed.

(** With no failing store call, [_execute_migration] returns [True] and
    commits the phases and the migrated rows. *)
Lemma execute_migration_quiet (deps : dependency_analysis) (w : world) :
  quiet w ->
  yields (_execute_migration now ps deps) w
    (fun b w' =>
       b = true
       /\ disk w' = migrate_all_db now ps (phase_assignments ps)
                      (fold_left (create_phase_db now) (recommended_phases ps) (disk w))
       /\ work w' = disk w'
       /\ quiet w').
Proof.
  intros Hq. unfold _execute_migration. apply yields_try.
  eapply yields_bind; [apply (get_db_connection_quiet w Hq)|].
  intros _ w1 (Hd1 & Hw1 & Hq1).
  eapply yields_bind; [apply (create_phases_quiet _ w1 Hq1)|].
  intros _ w2 (Hd2 & Hw2 & Hq2).
  eapply yields_bind; [apply (migrate_all_quiet _ 0 w2 Hq2)|].
  intros _ w3 (Hd3 & Hw3 & Hq3).
  eapply yields_bind; [apply (commit_quiet w3 Hq3)|].
  intros _ w4 (Hd4 & Hw4 & Hq4).
  apply yields_ret. rewrite Hd4, Hw4, Hw3, Hw2, Hw1. tauto.
Qed.

End ExecuteMigration.

(** ** What the steps of the manager keep *)

Section ManagerFrame.
Variable I : world -> Prop.
Variable writes : (database -> database) -> Prop.
Hypothesis HI : stable I writes.
Variable now : string.

Lemma keeps_needs_migration : keeps I _needs_migration.
Proof. unfold _needs_migration. keeps_steps HI. Qed.

Lemma keeps_load_all_tasks : keeps I _load_all_tasks.
Proof. unfold _load_all_tasks. keeps_steps HI. Qed.

Section Fixes.
Hypothesis writes_depends_on :
  forall id deps, writes (update_tasks id (set_depends_on deps now)).
Hypothesis writes_context : forall r, writes (replace_context r).

Lemma keeps_fix_one (dep : implicit_dependency) : keeps I (fix_one now dep).
Proof. unfold fix_one. keeps_steps HI. apply writes_depends_on. Qed.

Lemma keeps_fix_all (deps : list implicit_dependency) :
  forall count, keeps I (fix_all now deps count).
Proof.
  induction deps as [|dep deps IH]; intros count; cbn [fix_all].
  - apply keeps_ret.
  - apply keeps_bind; [apply keeps_fix_one | intros b; apply IH].
Qed.

Lemma keeps_fix_dependencies (deps : dependency_analysis) (ps : phase_structure) :
  keeps I (_fix_dependencies now deps ps).
Proof.
  unfold _fix_dependencies.
  apply keeps_try; [|intros; apply keeps_ret].
  apply keeps_bind; [apply (keeps_get_db_connection _ _ HI) | intros _].
  apply keeps_bind; [apply keeps_fix_all | intros _].
  keeps_steps HI.
Qed.

Lemma keeps_update_migration_status (stats : migration_stats) :
  keeps I (_update_migration_status now stats).
Proof. unfold _update_migration_status. keeps_steps HI. apply writes_context. Qed.

End Fixes.

Section Persist.
Hypothesis writes_insert : forall t, writes (insert_task t).
Hypothesis writes_reparent :
  forall id p n, writes (update_tasks id (set_parent_and_notes p now n)).

Lemma keeps_create_phase (p : phase) : keeps I (_create_phase now p).
Proof. unfold _create_phase. keeps_steps HI. apply writes_insert. Qed.

Lemma keeps_migrate_task (ps : phase_structure) (tid pid : string) :
  keeps I (_migrate_task_to_phase now tid pid ps).
Proof.
  unfold _migrate_task_to_phase, migrate_task_body. keeps_steps HI.
  apply writes_reparent.
Qed.

Lemma keeps_migrate_all (ps : phase_structure) (items : list (string * string)) :
  forall count, keeps I (migrate_all now items ps count).
Proof.
  induction items as [|[tid pid] items IH]; intros count; cbn [migrate_all].
  - apply keeps_ret.
  - apply keeps_bind; [apply keeps_migrate_task | intros b; apply IH].
Qed.

Lemma keeps_execute_migration (ps : phase_structure) (deps : dependency_analysis) :
  keeps I (_execute_migration now ps deps).
Proof.
  unfold _execute_migration.
  apply keeps_try; [|intros; apply keeps_ret].
  apply keeps_bind; [apply (keeps_get_db_connection _ _ HI) | intros _].
  apply keeps_bind;
    [apply keeps_for_each; intros p; apply keeps_create_phase | intros _].
  apply keeps_bind; [apply keeps_migrate_all | intros _].
  keeps_steps HI.
Qed.

End Persist.

End ManagerFrame.

(** ** The orchestrator *)

Section Orchestrator.
Variable now : string.

(** Every step of the manager catches what it raises. *)
Lemma total_needs_migration : total _needs_migration.
Proof. apply total_try_ret. Qed.

Lemma total_load_all_tasks : total _load_all_tasks.
Proof. apply total_try_ret. Qed.

Lemma total_execute_migration (ps : phase_structure) (deps : dependency_analysis) :
  total (_execute_migration now ps deps).
Proof. apply total_try_ret. Qed.

Lemma total_fix_dependencies (deps : dependency_analysis) (ps : phase_structure) :
  total (_fix_dependencies now deps ps).
Proof. apply total_try_ret. Qed.

Lemma total_update_migration_status (stats : migration_stats) :
  total (_update_migration_status now stats).
Proof. apply total_try_ret. Qed.

Lemma total_run : total (run_intelligent_migration now).
Proof. apply total_try_ret. Qed.

End Orchestrator.

(** ** The columns the migration writes *)

Section Columns.

Lemma row_view_columns (id : string) (d : database) :
  row_view id d = lookup_columns id (columns d).
Proof.
  unfold row_view, lookup_columns, columns, select_task.
  induction (tasks d) as [|t l IH]; cbn [map find fst snd option_map]; [reflexivity|].
  destruct (String.eqb (task_id t) id); [reflexivity | exact IH].
Qed.

Lemma count_phases_columns (d : database) :
  count_phases d = length (filter (fun c => like_phase (fst (fst c))) (columns d)).
Proof.
  unfold count_phases, columns.
  induction (tasks d) as [|t l IH]; cbn [map filter fst]; [reflexivity|].
  destruct (like_phase (task_id t)); cbn [length]; now rewrite IH.
Qed.

Lemma keeps_columns_depends_on (id : string) (deps : text) (now : string) :
  keeps_columns (update_tasks id (set_depends_on deps now)).
Proof.
  intros d. unfold columns, update_tasks. cbn [tasks]. rewrite map_map.
  apply map_ext. intros t. now destruct (String.eqb (task_id t) id).
Qed.

Lemma keeps_columns_context (r : context_row) : keeps_columns (replace_context r).
Proof. intros d. reflexivity. Qed.

Lemma stable_settled (L : list (string * option string * cell)) :
  stable (settled L) keeps_columns.
Proof.
  unfold settled. split; cbn [disk work].
  - tauto.
  - tauto.
  - tauto.
  - intros q w Hq [Hd Hw]. now rewrite Hq.
Qed.

(** Fixing the dependencies and recording the audit leave the id, parent
    and notes columns of the committed table as they were. *)
Lemma fix_and_audit_keep_columns (now : string) (deps : dependency_analysis)
    (ps : phase_structure) (stats : migration_stats) (w : world) :
  work w = disk w ->
  exists w1 w2,
    _fix_dependencies now deps ps w = (Ok tt, w1)
    /\ _update_migration_status now stats w1 = (Ok tt, w2)
    /\ columns (disk w2) = columns (disk w).
Proof.
  intros Hw.
  assert (H0 : settled (columns (disk w)) w) by (unfold settled; now rewrite Hw).
  destruct (total_try_ret
              (get_db_connection ;;;
               fixed_count <- fix_all now (implicit_dependencies deps) 0 ;;
               commit ;;; ret tt) tt w) as ([] & w1 & H1).
  pose proof (keeps_fix_dependencies _ _ (stable_settled _) now
                (fun id deps => keeps_columns_depends_on id deps now)
                deps ps w _ w1 H1 H0) as S1.
  destruct (total_try_ret
              (get_db_connection ;;;
               execute (replace_context
                          (mkContext "agent_mcp_intelligent_migration"
                             (json_dumps (migration_record now stats)) now
                             "intelligent_migration"
                             "AI-powered intelligent multi-phase migration with dependency optimization")) ;;;
               commit ;;; ret tt) tt w1) as ([] & w2 & H2).
  pose proof (keeps_update_migration_status _ _ (stable_settled _) now
                keeps_columns_context stats w1 _ w2 H2 S1) as S2.
  exists w1, w2. repeat split; try assumption. apply S2.
Qed.

End Columns.

(** ** The guard and the load *)

Section GuardAndLoad.

Lemma needs_migration_quiet (w : world) :
  quiet w ->
  yields _needs_migration w
    (fun b w' => b = needs_migration_of (disk w) /\ disk w' = disk w /\ quiet w').
Proof.
  intros Hq. unfold _needs_migration. apply yields_try.
  eapply yields_bind; [apply (get_db_connection_quiet w Hq)|].
  intros _ w1 (Hd1 & Hw1 & Hq1).
  eapply yields_bind; [apply (query_quiet count_phases w1 Hq1)|].
  intros phase_count w2 (-> & Hd2 & Hw2 & Hq2).
  eapply yields_bind; [apply (query_quiet count_tasks w2 Hq2)|].
  intros total w3 (-> & Hd3 & Hw3 & Hq3).
  apply yields_ret. unfold needs_migration_of.
  rewrite Hw2, Hw1, Hd3, Hd2, Hd1. tauto.
Qed.

Lemma load_all_tasks_quiet (w : world) :
  quiet w ->
  yields _load_all_tasks w
    (fun all_tasks w' => all_tasks = select_all (disk w) /\ disk w' = disk w /\ quiet w').
Proof.
  intros Hq. unfold _load_all_tasks. apply yields_try.
  eapply yields_bind; [apply (get_db_connection_quiet w Hq)|].
  intros _ w1 (Hd1 & Hw1 & Hq1).
  eapply yields_bind; [apply (query_quiet select_all w1 Hq1)|].
  intros all_tasks w2 (-> & Hd2 & Hw2 & Hq2).
  apply yields_ret. rewrite Hw1, Hd2, Hd1. tauto.
Qed.

Lemma in_insert_by_created_at (x t : task) (sorted : list task) :
  In x (insert_by_created_at t sorted) <-> x = t \/ In x sorted.
Proof.
  induction sorted as [|u r IH]; cbn [insert_by_created_at In].
  - intuition auto.
  - destruct (String.ltb (created_at t) (created_at u)); cbn [In];
      rewrite ?IH; intuition auto.
Qed.

Lemma in_select_all (x : task) (d : database) : In x (select_all d) <-> In x (tasks d).
Proof.
  unfold select_all, order_by_created_at.
  assert (G : forall l acc,
             In x (fold_left (fun sorted t => insert_by_created_at t sorted) l acc)
             <-> In x l \/ In x acc).
  { induction l as [|t l IH]; intros acc; cbn [fold_left In].
    - tauto.
    - rewrite IH, in_insert_by_created_at. intuition auto. }
  rewrite G. cbn [In]. tauto.
Qed.

Lemma select_task_in (id : string) (d : database) (t : task) :
  select_task id d = Some t -> In t (tasks d) /\ task_id t = id.
Proof.
  unfold select_task. intros H. apply find_some in H.
  destruct H as [Hin E]. apply String.eqb_eq in E. tauto.
Qed.

End GuardAndLoad.

(** With no failing store call and a text in every description, the entry
    point returns [True] and leaves the id, parent and notes columns as
    [_execute_migration] committed them when the guard let the run through,
    and as they were otherwise. *)
Lemma run_quiet_columns (now : string) (w : world) :
  quiet w ->
  (forall t, In t (tasks (disk w)) -> description t <> None) ->
  exists w',
    run_intelligent_migration now w = (Ok true, w')
    /\ columns (disk w')
       = columns (if needs_migration_of (disk w) && truthy (select_all (disk w))
                  then persisted now (disk w) else disk w).
Proof.
  intros Hq Htext.
  assert (Hall : forall t, In t (select_all (disk w)) -> description t <> None)
    by (intros t Ht; apply Htext; now apply in_select_all).
  unfold run_intelligent_migration, try_except, bind at 1.
  destruct (needs_migration_quiet w Hq) as (needed & w1 & H1 & -> & Hd1 & Hq1).
  rewrite H1.
  destruct (needs_migration_of (disk w)); cbn [negb andb];
    [|eexists; split; [reflexivity | now rewrite Hd1]].
  unfold bind at 1.
  destruct (load_all_tasks_quiet w1 Hq1) as (all_tasks & w2 & H2 & -> & Hd2 & Hq2).
  rewrite H2, Hd1.
  destruct (truthy (select_all (disk w))); cbn [negb];
    [|eexists; split; [reflexivity | now rewrite Hd2, Hd1]].
  unfold bind at 1, lift at 1. rewrite (analysis_returns _ Hall).
  unfold bind at 1.
  destruct (execute_migration_quiet now
              (determine_optimal_phases (analyze_project_domain (select_all (disk w)))
                 (layers (select_all (disk w))))
              (analyze_task_dependencies (select_all (disk w))) w2 Hq2)
    as (b & w3 & H3 & -> & Hd3 & Hw3 & Hq3).
  rewrite H3. unfold bind at 1.
  match goal with
  | |- context [_update_migration_status now ?s] =>
      destruct (fix_and_audit_keep_columns now
                  (analyze_task_dependencies (select_all (disk w)))
                  (determine_optimal_phases (analyze_project_domain (select_all (disk w)))
                     (layers (select_all (disk w))))
                  s w3 Hw3) as (w4 & w5 & H4 & H5 & Hcols)
  end.
  rewrite H4. unfold bind at 1. rewrite H5.
  eexists. split; [reflexivity|].
  rewrite Hcols, Hd3, Hd2, Hd1. unfold persisted, plan_of.
  now rewrite (phase_plan_layers _ Hall).
Qed.

(** With no failing store call and a text in every description, the entry
    point returns [True]. *)
Lemma run_quiet (now : string) (w : world) :
  quiet w ->
  (forall t, In t (tasks (disk w)) -> description t <> None) ->
  exists w', run_intelligent_migration now w = (Ok true, w').
Proof.
  intros Hq Htext. destruct (run_quiet_columns now w Hq Htext) as (w' & H & _).
  now exists w'.
Qed.

Lemma migrated_notes_unreadable (now : string) (ps : phase_structure) (pid : string)
    (t : task) :
  notes t = Null \/ (exists raw, notes t = Text (Malformed raw)) ->
  exists e, migrated_notes now ps pid t = Raise e
            /\ load_notes (notes t) = Raise e
            /\ (e = TypeError \/ e = JSONDecodeError).
Proof.
  unfold migrated_notes.
  intros [H|[raw H]]; rewrite H; cbn [load_notes json_loads]; eauto.
Qed.

Lemma get_none_keys {V : Type} (d : Dict.t V) (k : string) :
  Dict.get d k = None -> ~ In k (Dict.keys d).
Proof.
  unfold Dict.keys. induction d as [|[k0 v0] d IH]; cbn [Dict.get map fst In]; [tauto|].
  destruct (String.eqb k k0) eqn:E; [discriminate|].
  apply String.eqb_neq in E. intros H [H'|H']; [congruence | now apply IH].
Qed.

(** The rows of the table committed by [_execute_migration] for the plan of
    a database: a row of an assigned id is the migrated one, or the old one
    when its notes do not load as a list. *)
Lemma select_persisted (now : string) (d : database) (id : string) (t : task) :
  select_task id d = Some t ->
  select_task id (persisted now d)
  = Some (match Dict.get (phase_assignments (plan_of d)) id with
          | Some pid => after_migration now (plan_of d) pid t
          | None => t
          end).
Proof.
  intros Hsel. unfold persisted.
  pose proof (select_create_phases now (recommended_phases (plan_of d)) _ _ _ Hsel) as Hc.
  destruct (select_migrate_all now (plan_of d) (phase_assignments (plan_of d))
              (phase_plan_keys_unique _) _ _ _ Hc) as [Hat Hnot].
  destruct (Dict.get (phase_assignments (plan_of d)) id) as [pid|] eqn:E.
  - apply Hat. now apply get_In.
  - apply Hnot. now apply get_none_keys.
Qed.

(** C10. A task whose notes column is NULL or a text that is not JSON: the
    [try] block of its reparenting raises ([TypeError] or
    [JSONDecodeError]), [_migrate_task_to_phase] catches it and returns
    [False] with the store as it was, and the loop goes on without counting
    the task; [_execute_migration] still returns [True] and commits, the row
    of the task is the old one and every other assigned task whose notes
    load as a list is committed with its new parent and extended notes; the
    entry point, on a store that needs the migration and whose description
    columns hold texts, returns [True], the task keeps its parent and notes,
    and every task whose notes load as a list has its new parent and one
    more note. *)
Theorem unreadable_notes_skipped (now : string) (d : database) (tid : string) (t : task) :
  select_task tid d = Some t ->
  notes t = Null \/ (exists raw, notes t = Text (Malformed raw)) ->
  (forall ps pid w, select_task tid (work w) = Some t ->
     (quiet w -> exists e w', migrate_task_body now tid pid ps w = (Raise e, w')
                              /\ (e = TypeError \/ e = JSONDecodeError))
     /\ exists w', _migrate_task_to_phase now tid pid ps w = (Ok false, w')
                   /\ work w' = work w /\ disk w' = disk w
                   /\ forall rest count,
                        migrate_all now ((tid, pid) :: rest) ps count w
                        = migrate_all now rest ps count w')
  /\ (forall ps deps pid,
        NoDup (Dict.keys (phase_assignments ps)) ->
        In (tid, pid) (phase_assignments ps) ->
        exists w', _execute_migration now ps deps (at_rest d []) = (Ok true, w')
                   /\ select_task tid (disk w') = Some t
                   /\ forall tid' pid' t' items,
                        In (tid', pid') (phase_assignments ps) ->
                        select_task tid' d = Some t' ->
                        notes t' = Text (Encoded (JArr items)) ->
                        select_task tid' (disk w')
                        = Some (migrated_row now ps pid'
                                  (JArr (items ++
                                           [migration_note now ps pid'
                                              (snd (new_parent_of ps pid' (parent_task t')))]))
                                  t'))
  /\ (count_phases d = 0 ->
      (forall u, In u (tasks d) -> description u <> None) ->
      exists w', run_intelligent_migration now (at_rest d []) = (Ok true, w')
                 /\ row_view tid (disk w') = Some (parent_task t, notes t)
                 /\ forall tid' t' items,
                      select_task tid' d = Some t' ->
                      notes t' = Text (Encoded (JArr items)) ->
                      exists pid',
                        Dict.get (phase_assignments (plan_of d)) tid' = Some pid'
                        /\ row_view tid' (disk w')
                           = Some (Some (fst (new_parent_of (plan_of d) pid' (parent_task t'))),
                                   Text (Encoded
                                           (JArr (items ++
                                                    [migration_note now (plan_of d) pid'
                                                       (snd (new_parent_of (plan_of d) pid'
                                                               (parent_task t')))]))))).
Proof.
  intros Hsel Hbad.
  split; [|split].
  - intros ps pid w Hw.
    destruct (migrated_notes_unreadable now ps pid t Hbad) as (e & He & Hload & Hkind).
    assert (body : exists w', migrate_task_body now tid pid ps w
                              = (if hd false (faults w) then Raise OperationalError
                                 else Raise e, w')
                              /\ work w' = work w /\ disk w' = disk w).
    { unfold migrate_task_body, bind at 1, query, bind at 1, store_call.
      destruct (hd false (faults w)).
      - eexists. split; [reflexivity|]. cbn [work disk]. tauto.
      - cbn [work]. rewrite Hw.
        destruct (new_parent_of ps pid (parent_task t)) as [np mt].
        unfold bind at 1, lift at 1. rewrite Hload.
        eexists. split; [reflexivity|]. cbn [work disk]. tauto. }
    destruct body as (w' & Hbody & Hwork & Hdisk).
    split.
    + intros Hq. rewrite (quiet_hd w Hq) in Hbody. eauto.
    + assert (Hstep : _migrate_task_to_phase now tid pid ps w = (Ok false, w')).
      { unfold _migrate_task_to_phase, try_except. rewrite Hbody.
        destruct (hd false (faults w)); reflexivity. }
      exists w'. repeat split; try assumption.
      intros rest count. cbn [migrate_all]. unfold bind. rewrite Hstep. reflexivity.
  - intros ps deps pid Hnd Hin.
    destruct (migrated_notes_unreadable now ps pid t Hbad) as (e & He & _).
    assert (Hq : quiet (at_rest d [])) by (intros []).
    destruct (execute_migration_quiet now ps deps _ Hq)
      as (b & w' & Hrun & -> & Hdisk & _).
    exists w'. split; [exact Hrun|]. cbn [at_rest disk] in Hdisk.
    assert (Hcreated : forall k u, select_task k d = Some u ->
               select_task k (fold_left (create_phase_db now) (recommended_phases ps) d)
               = Some u)
      by (intros k u; apply select_create_phases).
    split.
    + rewrite Hdisk.
      destruct (select_migrate_all now ps _ Hnd _ _ _ (Hcreated _ _ Hsel)) as [Hat _].
      rewrite (Hat pid Hin). unfold after_migration. now rewrite He.
    + intros tid' pid' t' items Hin' Hsel' Hnotes'.
      rewrite Hdisk.
      destruct (select_migrate_all now ps _ Hnd _ _ _ (Hcreated _ _ Hsel')) as [Hat _].
      rewrite (Hat pid' Hin'). unfold after_migration, migrated_notes.
      rewrite Hnotes'. reflexivity.
  - intros Hguard Htext.
    assert (Hq : quiet (at_rest d [])) by (intros []).
    assert (Hplan : plan_of d
                    = determine_optimal_phases (analyze_project_domain (select_all d))
                        (layers (select_all d))).
    { apply phase_plan_layers. intros u Hu. apply Htext. now apply in_select_all. }
    destruct (run_quiet_columns now _ Hq Htext) as (w' & Hrun & Hcols).
    cbn [at_rest disk] in Hcols.
    destruct (select_task_in _ _ _ Hsel) as [Hin _].
    assert (Hneeded : needs_migration_of d && truthy (select_all d) = true).
    { unfold needs_migration_of, count_tasks. rewrite Hguard.
      apply (in_select_all t d) in Hin as Hin'.
      destruct (tasks d); [destruct Hin|].
      destruct (select_all _); [destruct Hin'|]. reflexivity. }
    rewrite Hneeded in Hcols.
    assert (Hview : forall k, row_view k (disk w') = row_view k (persisted now d))
      by (intros k; now rewrite !row_view_columns, Hcols).
    exists w'. split; [exact Hrun|]. split.
    + rewrite Hview. unfold row_view. rewrite (select_persisted now d tid t Hsel).
      cbn [option_map].
      destruct (Dict.get (phase_assignments (plan_of d)) tid) as [pid|]; [|reflexivity].
      destruct (migrated_notes_unreadable now (plan_of d) pid t Hbad) as (e & He & _).
      unfold after_migration. now rewrite He.
    + intros tid' t' items Hsel' Hnotes'.
      destruct (select_task_in _ _ _ Hsel') as [Hin' Hid'].
      destruct (every_task_assigned (analyze_project_domain (select_all d))
                  (layers (select_all d)) t') as [pid' Hpid'].
      { apply (Permutation_in (l := select_all d)).
        - symmetry. unfold layers.
          now rewrite classify_all_buckets.
        - now apply in_select_all. }
      rewrite Hid' in Hpid'. rewrite <- Hplan in Hpid'.
      exists pid'. split; [exact Hpid'|].
      rewrite Hview. unfold row_view. rewrite (select_persisted now d tid' t' Hsel').
      rewrite Hpid'. unfold after_migration, migrated_notes. rewrite Hnotes'.
      reflexivity.
Qed.

Lemma unreadable_notes_skipped_witness :
  let rows := [Sample.schema; Sample.with_notes Null Sample.calculator;
               Sample.search; Sample.filtering] in
  exists w',
    run_intelligent_migration Sample.clock (at_rest (Sample.db rows) []) = (Ok true, w')
    /\ row_view "t1" (disk w') = Some (None, Null).
Proof.
  intros rows.
  assert (Hsel : select_task "t1" (Sample.db rows)
                 = Some (Sample.with_notes Null Sample.calculator)) by reflexivity.
  assert (Hbad : notes (Sample.with_notes Null Sample.calculator) = Null
                 \/ (exists raw, notes (Sample.with_notes Null Sample.calculator)
                                 = Text (Malformed raw)))
    by (left; reflexivity).
  assert (Hguard : count_phases (Sample.db rows) = 0) by reflexivity.
  assert (Htext : forall u, In u (tasks (Sample.db rows)) -> description u <> None)
    by (intros u [<-|[<-|[<-|[<-|[]]]]]; discriminate).
  destruct (unreadable_notes_skipped Sample.clock (Sample.db rows) "t1" _ Hsel Hbad)
    as (_ & _ & Hrun).
  destruct (Hrun Hguard Htext) as (w' & Hok & Hrow & _).
  exists w'. split; assumption.
Defined.

(** ** Store failures *)

Section StoreFailures.
Variable now : string.

(** A failure at any of the three store calls of the needed-check (the
    connection and the two counts) makes it return [False]. *)
Lemma needs_migration_fails (w : world) :
  In true (firstn 3 (faults w)) -> exists w', _needs_migration w = (Ok false, w').
Proof.
  intros H.
  unfold _needs_migration, try_except, get_db_connection, query, bind, store_call, ret.
  destruct w as [d wk f]. cbn [faults disk work] in *.
  destruct f as [|[] [|[] [|[] l]]]; cbn [firstn In] in H;
    try (exfalso; intuition discriminate); eexists; reflexivity.
Qed.

(** A failure at either store call of the load makes it return the empty list. *)
Lemma load_all_tasks_fails (w : world) :
  In true (firstn 2 (faults w)) -> exists w', _load_all_tasks w = (Ok [], w').
Proof.
  intros H.
  unfold _load_all_tasks, try_except, get_db_connection, query, bind, store_call, ret.
  destruct w as [d wk f]. cbn [faults disk work] in *.
  destruct f as [|[] [|[] l]]; cbn [firstn In] in H;
    try (exfalso; intuition discriminate); eexists; reflexivity.
Qed.

(** A failure at either store call of the reparenting of a task (the
    SELECT and the UPDATE) makes it return [False]. *)
Lemma migrate_task_fails (tid pid : string) (ps : phase_structure) (w : world) :
  In true (firstn 2 (faults w)) ->
  exists w', _migrate_task_to_phase now tid pid ps w = (Ok false, w').
Proof.
  intros H.
  destruct (total_migrate_task now ps tid pid w) as ([] & w' & Hrun);
    [exfalso | now exists w'].
  revert Hrun.
  unfold _migrate_task_to_phase, migrate_task_body, try_except, bind at 1, query,
    bind at 1, store_call.
  destruct (faults w) as [|b1 f] eqn:E; [destruct H|].
  cbn [hd tl].
  destruct b1; [discriminate|].
  cbn [work].
  destruct (select_task tid (work w)) as [t|]; [|discriminate].
  destruct (new_parent_of ps pid (parent_task t)) as [np mt].
  unfold bind at 1, lift at 1.
  destruct (load_notes (notes t)) as [v|e]; [|discriminate].
  unfold bind at 1, lift at 1.
  destruct (append_to v _) as [v'|e]; [|discriminate].
  unfold bind at 1, execute, bind at 1, store_call. cbn [faults hd tl].
  destruct f as [|b2 f]; cbn [firstn In] in H; [intuition discriminate|].
  cbn [hd].
  destruct b2; [discriminate|]. intuition discriminate.
Qed.

(** A phase creation has no handler of its own: a failing SELECT, or a
    failing INSERT when no row has the phase id, raises. *)
Lemma create_phase_fails (p : phase) (w : world) :
  hd false (faults w) = true
  \/ (select_task (phase_id p) (work w) = None /\ hd false (tl (faults w)) = true) ->
  exists w', _create_phase now p w = (Raise OperationalError, w').
Proof.
  unfold _create_phase, query, execute, bind, store_call.
  intros [H|[Hnone H]].
  - rewrite H. eexists. reflexivity.
  - destruct (hd false (faults w)); [eexists; reflexivity|].
    cbv beta iota. cbn [work faults disk]. rewrite Hnone.
    cbv beta iota. cbn [work faults disk]. rewrite H. eexists. reflexivity.
Qed.

(** The loop over the assignments never raises: each reparenting catches
    what it raises. *)
Lemma migrate_all_returns (ps : phase_structure) (items : list (string * string)) :
  forall count w, exists n w', migrate_all now items ps count w = (Ok n, w').
Proof.
  induction items as [|[tid pid] items IH]; intros count w; cbn [migrate_all].
  - eexists _, _. reflexivity.
  - unfold bind.
    destruct (total_migrate_task now ps tid pid w) as (b & w1 & ->).
    apply IH.
Qed.

(** [_execute_migration] returns [True] exactly when its connection, the
    phase creations and its commit return. *)
Lemma execute_migration_true_iff (ps : phase_structure) (deps : dependency_analysis)
    (w : world) :
  exists b w',
    _execute_migration now ps deps w = (Ok b, w')
    /\ (b = true <->
        exists w1 w2 n w3,
          get_db_connection w = (Ok tt, w1)
          /\ for_each (recommended_phases ps) (_create_phase now) w1 = (Ok tt, w2)
          /\ migrate_all now (phase_assignments ps) ps 0 w2 = (Ok n, w3)
          /\ commit w3 = (Ok tt, w')).
Proof.
  unfold _execute_migration, try_except, bind at 1.
  destruct (get_db_connection w) as [[[]|e] w1] eqn:E1.
  2:{ eexists _, _. split; [reflexivity|]. split; [discriminate|].
      intros (? & ? & ? & ? & [=] & _). }
  unfold bind at 1.
  destruct (for_each (recommended_phases ps) (_create_phase now) w1) as [[[]|e] w2] eqn:E2.
  2:{ eexists _, _. split; [reflexivity|]. split; [discriminate|].
      intros (? & ? & ? & ? & [= <-] & H & _). rewrite E2 in H. discriminate. }
  unfold bind at 1.
  destruct (migrate_all_returns ps (phase_assignments ps) 0 w2) as (n & w3 & E3).
  rewrite E3. unfold bind at 1.
  destruct (commit w3) as [[[]|e] w4] eqn:E4.
  - eexists _, _. split; [reflexivity|]. split; [|reflexivity].
    intros _. exists w1, w2, n, w3. repeat split; assumption.
  - eexists _, _. split; [reflexivity|]. split; [discriminate|].
    intros (? & ? & ? & ? & [= <-] & H2 & H3 & H4).
    rewrite E2 in H2. injection H2 as <-. rewrite E3 in H3. injection H3 as <- <-.
    rewrite E4 in H4. discriminate.
Qed.

(** The result of the entry point, from the results of its steps. *)
Lemma run_not_needed (w w1 : world) :
  _needs_migration w = (Ok false, w1) ->
  run_intelligent_migration now w = (Ok true, w1).
Proof.
  intros H. unfold run_intelligent_migration, try_except, bind at 1. now rewrite H.
Qed.

Lemma run_nothing_loaded (w w1 w2 : world) :
  _needs_migration w = (Ok true, w1) ->
  _load_all_tasks w1 = (Ok [], w2) ->
  run_intelligent_migration now w = (Ok true, w2).
Proof.
  intros H1 H2. unfold run_intelligent_migration, try_except, bind at 1.
  rewrite H1. cbn [negb]. unfold bind at 1. now rewrite H2.
Qed.

Lemma run_null_description (w w1 w2 : world) (all_tasks : list task) :
  _needs_migration w = (Ok true, w1) ->
  _load_all_tasks w1 = (Ok all_tasks, w2) ->
  (exists t, In t all_tasks /\ description t = None) ->
  run_intelligent_migration now w = (Ok false, w2).
Proof.
  intros H1 H2 Hnull. unfold run_intelligent_migration, try_except, bind at 1.
  rewrite H1. cbn [negb]. unfold bind at 1. rewrite H2.
  destruct all_tasks as [|t l]; [destruct Hnull as (? & [] & _)|]. cbn [truthy negb].
  unfold bind at 1, lift at 1. now rewrite (analysis_raises _ Hnull).
Qed.

Lemma run_after_execute (w w1 w2 w3 : world) (all_tasks : list task)
    (cx : complexity_analysis) (ok : bool) :
  _needs_migration w = (Ok true, w1) ->
  _load_all_tasks w1 = (Ok all_tasks, w2) ->
  all_tasks <> [] ->
  analyze_task_complexity_layers all_tasks = Ok cx ->
  _execute_migration now
    (determine_optimal_phases (analyze_project_domain all_tasks) cx)
    (analyze_task_dependencies all_tasks) w2 = (Ok ok, w3) ->
  exists w', run_intelligent_migration now w = (Ok ok, w') /\ (ok = false -> w' = w3).
Proof.
  intros H1 H2 Hne Hcx H3. unfold run_intelligent_migration, try_except, bind at 1.
  rewrite H1. cbn [negb]. unfold bind at 1. rewrite H2.
  destruct all_tasks as [|t l]; [congruence|]. cbn [truthy negb].
  unfold bind at 1, lift at 1. rewrite Hcx.
  unfold bind at 1. rewrite H3.
  destruct ok; [|eexists; split; reflexivity].
  unfold bind at 1.
  match goal with
  | |- context [_fix_dependencies now ?d ?p w3] =>
      destruct (total_fix_dependencies now d p w3) as ([] & w4 & H4)
  end.
  rewrite H4. unfold bind at 1.
  match goal with
  | |- context [_update_migration_status now ?s w4] =>
      destruct (total_update_migration_status now s w4) as ([] & w5 & H5)
  end.
  rewrite H5. eexists. split; [reflexivity | discriminate].
Qed.

End StoreFailures.

(** C4 (as the code has it). The entry point always returns a boolean to
    its caller; it returns [False] only if some store call failed or a task
    row has a NULL description (the layer analysis then raises
    [AttributeError], which the outer handler catches).  A store call that
    fails anywhere in a step makes the step report its failure value:
    [False] for the needed-check (any of its three calls), the empty list
    for the load (either of its two calls), [False] for the reparenting of
    one task (either of its two calls); a phase creation raises, and
    [_execute_migration] returns [True] exactly when its connection, the
    phase creations and its commit return, the loop over the tasks never
    raising; the dependency fix and the audit record return nothing,
    whatever fails.  The entry point returns [True] when the needed-check
    fails or answers no, and when the load fails or finds nothing; it
    returns [False] when a description is NULL and when
    [_execute_migration] returns [False]; it returns [True] when
    [_execute_migration] returns [True], whatever the later steps do. *)
Theorem store_failure_outcomes (now : string) (w : world) :
  (exists b w', run_intelligent_migration now w = (Ok b, w')
                /\ (b = false ->
                    In true (faults w)
                    \/ exists t, In t (tasks (disk w)) /\ description t = None))
  /\ (In true (firstn 3 (faults w)) ->
      exists w', _needs_migration w = (Ok false, w')
                 /\ run_intelligent_migration now w = (Ok true, w'))
  /\ (In true (firstn 2 (faults w)) ->
      exists w', _load_all_tasks w = (Ok [], w'))
  /\ (In true (firstn 2 (faults w)) ->
      forall ps tid pid,
        exists w', _migrate_task_to_phase now tid pid ps w = (Ok false, w'))
  /\ (forall p,
        hd false (faults w) = true
        \/ (select_task (phase_id p) (work w) = None /\ hd false (tl (faults w)) = true) ->
        exists w', _create_phase now p w = (Raise OperationalError, w'))
  /\ (forall ps deps,
        (hd false (faults w) = true ->
         _execute_migration now ps deps w = (Ok false, tick w))
        /\ exists b w',
             _execute_migration now ps deps w = (Ok b, w')
             /\ (b = true <->
                 exists w1 w2 n w3,
                   get_db_connection w = (Ok tt, w1)
                   /\ for_each (recommended_phases ps) (_create_phase now) w1 = (Ok tt, w2)
                   /\ migrate_all now (phase_assignments ps) ps 0 w2 = (Ok n, w3)
                   /\ commit w3 = (Ok tt, w')))
  /\ (forall ps items count, exists n w', migrate_all now items ps count w = (Ok n, w'))
  /\ (forall ps deps, exists w', _fix_dependencies now deps ps w = (Ok tt, w'))
  /\ (forall stats, exists w', _update_migration_status now stats w = (Ok tt, w'))
  /\ (forall w1, _needs_migration w = (Ok false, w1) ->
                 run_intelligent_migration now w = (Ok true, w1))
  /\ (forall w1 w2 all_tasks,
        _needs_migration w = (Ok true, w1) ->
        (In true (firstn 2 (faults w1)) ->
         exists w', run_intelligent_migration now w = (Ok true, w'))
        /\ (_load_all_tasks w1 = (Ok all_tasks, w2) ->
            (all_tasks = [] -> run_intelligent_migration now w = (Ok true, w2))
            /\ ((exists t, In t all_tasks /\ description t = None) ->
                run_intelligent_migration now w = (Ok false, w2))
            /\ (forall cx ok w3,
                  all_tasks <> [] ->
                  analyze_task_complexity_layers all_tasks = Ok cx ->
                  _execute_migration now
                    (determine_optimal_phases (analyze_project_domain all_tasks) cx)
                    (analyze_task_dependencies all_tasks) w2 = (Ok ok, w3) ->
                  exists w', run_intelligent_migration now w = (Ok ok, w')
                             /\ (ok = false -> w' = w3)))).
Proof.
  repeat apply conj.
  - destruct (total_run now w) as (b & w' & Hrun).
    exists b, w'. split; [exact Hrun|].
    intros ->.
    destruct (in_dec bool_dec true (faults w)) as [Hin|Hq]; [now left|].
    destruct (null_or_text (tasks (disk w))) as [Htext|Hnull]; [|now right].
    destruct (run_quiet now w Hq Htext) as (w'' & Hrun').
    rewrite Hrun in Hrun'. discriminate.
  - intros Hfail. destruct (needs_migration_fails w Hfail) as (w' & H).
    exists w'. split; [exact H | now apply run_not_needed].
  - apply load_all_tasks_fails.
  - intros Hfail ps tid pid. now apply migrate_task_fails.
  - intros p. apply create_phase_fails.
  - intros ps deps. split; [|apply execute_migration_true_iff].
    intros Hfail.
    unfold _execute_migration, try_except, bind at 1, get_db_connection, bind at 1.
    now rewrite (store_call_fails w Hfail).
  - intros ps items count. apply migrate_all_returns.
  - intros ps deps. destruct (total_fix_dependencies now deps ps w) as ([] & w' & H).
    now exists w'.
  - intros stats. destruct (total_update_migration_status now stats w) as ([] & w' & H).
    now exists w'.
  - intros w1. apply run_not_needed.
  - intros w1 w2 all_tasks Hneeded. split; [|intros Hload; repeat apply conj].
    + intros Hfail. destruct (load_all_tasks_fails w1 Hfail) as (w' & H).
      exists w'. now apply (run_nothing_loaded now w w1 w').
    + intros ->. now apply (run_nothing_loaded now w w1 w2).
    + now apply (run_null_description now w w1 w2 all_tasks).
    + intros cx ok w3. now apply (run_after_execute now w w1 w2 w3 all_tasks cx ok).
Qed.

Lemma store_failure_outcomes_witness :
  let w := at_rest (Sample.db [Sample.calculator]) [false; true] in
  In true (firstn 3 (faults w))
  /\ exists w', _needs_migration w = (Ok false, w')
                /\ run_intelligent_migration Sample.clock w = (Ok true, w').
Proof.
  intros w.
  assert (H : In true (firstn 3 (faults w))) by (right; left; reflexivity).
  split; [exact H|].
  apply (proj1 (proj2 (store_failure_outcomes Sample.clock w)) H).
Defined.

(** A store with one task whose first store call, the connection of the
    needed-check, fails: the needed-check returns its failure value and the
    entry point returns [True], not [False]. *)
Lemma needed_check_failure_returns_true :
  let w := at_rest (Sample.db [Sample.calculator]) [true] in
  hd false (faults w) = true
  /\ fst (_needs_migration w) = Ok false
  /\ fst (run_intelligent_migration Sample.clock w) = Ok true
  /\ fst (run_intelligent_migration Sample.clock w) <> Ok false.
Proof. vm_compute. repeat split. discriminate. Qed.

Lemma note_count_tasks (k : string) (d d' : database) :
  tasks d = tasks d' -> Sample.note_count k d = Sample.note_count k d'.
Proof. unfold Sample.note_count, select_task. now intros ->. Qed.

(** C2. A store with one core_functionality task: the first run returns
    [True] and creates no phase record, so the guard lets the second run
    through; the second run returns [True] and rewrites the task (a second
    audit note is appended). *)
Theorem second_run_migrates_again :
  let d0 := Sample.db [Sample.calculator] in
  let r1 := run_intelligent_migration Sample.clock (at_rest d0 []) in
  let d1 := disk (snd r1) in
  let r2 := run_intelligent_migration "2025-06-01T12:05:00" (at_rest d1 []) in
  let d2 := disk (snd r2) in
  fst r1 = Ok true
  /\ count_phases d1 = 0
  /\ fst r2 = Ok true
  /\ Sample.note_count "t1" d1 = Some 1
  /\ Sample.note_count "t1" d2 = Some 2
  /\ tasks d2 <> tasks d1.
Proof.
  intros d0 r1 d1 r2 d2.
  assert (N1 : Sample.note_count "t1" d1 = Some 1) by (vm_compute; reflexivity).
  assert (N2 : Sample.note_count "t1" d2 = Some 2) by (vm_compute; reflexivity).
  assert (R1 : fst r1 = Ok true) by (vm_compute; reflexivity).
  assert (R2 : fst r2 = Ok true) by (vm_compute; reflexivity).
  assert (P1 : count_phases d1 = 0) by (vm_compute; reflexivity).
  repeat (split; [assumption|]).
  intros E. apply (note_count_tasks "t1") in E.
  rewrite N1, N2 in E. discriminate.
Qed.

(** ** Running again *)

Section RunningAgain.

Lemma needs_migration_true (w w' : world) :
  _needs_migration w = (Ok true, w') -> needs_migration_of (disk w) = true.
Proof.
  unfold _needs_migration, try_except, get_db_connection, query, bind, store_call, ret.
  destruct (hd false (faults w)); cbv beta iota; cbn [disk work faults];
    [discriminate|].
  destruct (hd false (tl (faults w))); cbv beta iota; cbn [disk work faults];
    [discriminate|].
  destruct (hd false (tl (tl (faults w)))); cbv beta iota; cbn [disk work faults];
    [discriminate|].
  intros [= H _]. exact H.
Qed.

Lemma stable_untouched (d : database) :
  stable (fun w => disk w = d /\ work w = d) (fun _ => False).
Proof.
  split; cbn [disk work]; tauto.
Qed.

(** When the guard does not ask for a migration the entry point returns
    [True] and leaves the store as it is, whatever the store calls do. *)
Lemma guarded_run_is_noop (now : string) (d : database) (schedule : list bool) :
  needs_migration_of d = false ->
  exists w', run_intelligent_migration now (at_rest d schedule) = (Ok true, w')
             /\ disk w' = d.
Proof.
  intros Hguard.
  destruct (total_needs_migration (at_rest d schedule)) as (b & w1 & H1).
  assert (Hd : disk w1 = d /\ work w1 = d).
  { apply (keeps_needs_migration _ _ (stable_untouched d) _ _ _ H1). now split. }
  exists w1. split; [|tauto].
  unfold run_intelligent_migration, try_except, bind at 1. rewrite H1.
  destruct b; [|reflexivity].
  apply needs_migration_true in H1. cbn [at_rest disk] in H1. congruence.
Qed.

Lemma needs_migration_of_columns (d d' : database) :
  columns d = columns d' -> needs_migration_of d = needs_migration_of d'.
Proof.
  intros H. unfold needs_migration_of.
  rewrite !count_phases_columns, H. f_equal.
  unfold count_tasks.
  replace (length (tasks d)) with (length (columns d))
    by (unfold columns; apply length_map).
  replace (length (tasks d')) with (length (columns d'))
    by (unfold columns; apply length_map).
  now rewrite H.
Qed.

Lemma count_phases_found (id : string) (d : database) (t : task) :
  select_task id d = Some t -> like_phase id = true -> count_phases d <> 0.
Proof.
  intros Hsel Hlike. apply select_task_in in Hsel. destruct Hsel as [Hin <-].
  unfold count_phases.
  assert (H : In t (filter (fun u => like_phase (task_id u)) (tasks d)))
    by (apply filter_In; tauto).
  destruct (filter _ (tasks d)); [destruct H | discriminate].
Qed.

Lemma select_created (now : string) (p : phase) (d : database) :
  exists t, select_task (phase_id p) (create_phase_db now d p) = Some t.
Proof.
  unfold create_phase_db.
  destruct (select_task (phase_id p) d) as [t|] eqn:E; [eauto|].
  exists (phase_data now p).
  unfold select_task, insert_task in *. cbn [tasks].
  induction (tasks d) as [|u l IH]; cbn [app find] in *.
  - unfold phase_data. cbn [task_id]. now rewrite String.eqb_refl.
  - destruct (String.eqb (task_id u) (phase_id p)); [discriminate | now apply IH].
Qed.

Lemma select_created_phases (now : string) (phases : list phase) (p : phase) :
  In p phases ->
  forall d, exists t,
    select_task (phase_id p) (fold_left (create_phase_db now) phases d) = Some t.
Proof.
  induction phases as [|q phases IH]; intros Hin d; [destruct Hin|].
  cbn [fold_left]. destruct Hin as [->|Hin]; [|now apply IH].
  destruct (select_created now p d) as [t Ht].
  exists t. now apply select_create_phases.
Qed.

Lemma select_survives_migration (now : string) (ps : phase_structure)
    (items : list (string * string)) (id : string) :
  forall d, (exists t, select_task id d = Some t) ->
            exists t, select_task id (migrate_all_db now ps items d) = Some t.
Proof.
  unfold migrate_all_db.
  induction items as [|[k pid] items IH]; intros d [t Ht]; cbn [fold_left fst snd];
    [eauto|].
  apply IH. rewrite select_migrate_db.
  destruct (String.eqb id k) eqn:E; [|eauto].
  apply String.eqb_eq in E. subst k. rewrite Ht. cbn [option_map]. eauto.
Qed.

Lemma recommended_phase_ids (da : domain_analysis) (cx : complexity_analysis) (p : phase) :
  In p (recommended_phases (determine_optimal_phases da cx)) ->
  like_phase (phase_id p) = true.
Proof.
  unfold determine_optimal_phases.
  destruct (redistribute cx) as [F C]. cbn [recommended_phases].
  repeat match goal with
         | |- context [if ?b then _ else _] => destruct b
         end;
    rewrite ?in_app_iff; cbn [In];
    intros H; repeat (destruct H as [H|H]); try destruct H; subst; reflexivity.
Qed.

Lemma phase_plan_phase_ids (tasks : list task) (p : phase) :
  In p (recommended_phases (phase_plan tasks)) -> like_phase (phase_id p) = true.
Proof.
  unfold phase_plan.
  destruct (analyze_task_complexity_layers tasks) as [cx|e]; [|intros []].
  apply recommended_phase_ids.
Qed.

(** Once the first run records a phase, or when no migration is needed to
    begin with, a second run returns [True] and leaves the store as the
    first run left it, whatever the store calls of the second run do. *)
Lemma rerun_is_noop (now now' : string) (d : database) (schedule : list bool) :
  needs_migration_of d = false \/ recommended_phases (plan_of d) <> [] ->
  exists w1,
    run_intelligent_migration now (at_rest d []) = (Ok true, w1)
    /\ exists w2,
         run_intelligent_migration now' (at_rest (disk w1) schedule) = (Ok true, w2)
         /\ disk w2 = disk w1.
Proof.
  intros [Hno|Hphases].
  { destruct (guarded_run_is_noop now d [] Hno) as (w1 & Hrun & Hd1).
    exists w1. split; [exact Hrun|]. apply guarded_run_is_noop. now rewrite Hd1. }
  assert (Htext : forall t, In t (tasks d) -> description t <> None).
  { destruct (null_or_text (select_all d)) as [H|H].
    - intros t Ht. apply H. now apply in_select_all.
    - exfalso. apply Hphases. unfold plan_of. now rewrite (phase_plan_null _ H). }
  assert (Hq : quiet (at_rest d [])) by (intros []).
  destruct (run_quiet_columns now _ Hq Htext) as (w1 & Hrun & Hcols).
  cbn [at_rest disk] in Hcols.
  exists w1. split; [exact Hrun|].
  apply guarded_run_is_noop.
  destruct (needs_migration_of d && truthy (select_all d)) eqn:Hguard.
  - destruct (recommended_phases (plan_of d)) as [|p phases] eqn:Hrec; [congruence|].
    assert (Hin : In p (recommended_phases (plan_of d))) by (rewrite Hrec; now left).
    assert (Hlike : like_phase (phase_id p) = true)
      by (apply (phase_plan_phase_ids _ p Hin)).
    destruct (select_survives_migration now (plan_of d) (phase_assignments (plan_of d))
                (phase_id p) _
                (select_created_phases now _ p Hin d)) as [t Ht].
    fold (persisted now d) in Ht.
    pose proof (count_phases_found _ _ _ Ht Hlike) as Hcount.
    rewrite (needs_migration_of_columns _ _ Hcols).
    unfold needs_migration_of.
    destruct (count_phases (persisted now d)); [congruence | reflexivity].
  - rewrite (needs_migration_of_columns _ _ Hcols).
    destruct (needs_migration_of d) eqn:Hneed; [|reflexivity].
    cbn [andb] in Hguard.
    unfold needs_migration_of, count_tasks in Hneed.
    apply andb_true_iff in Hneed. destruct Hneed as [_ Hlen].
    destruct (tasks d) as [|t l] eqn:Et; [discriminate|].
    assert (Hin : In t (select_all d))
      by (apply in_select_all; rewrite Et; now left).
    destruct (select_all d); [destruct Hin | discriminate].
Qed.

End RunningAgain.

(** * Further properties *)

(** ** The phase planner as a whole *)

Section PlannerFacts.

Lemma keys_get {V : Type} (d : Dict.t V) (k : string) :
  In k (Dict.keys d) -> exists v, Dict.get d k = Some v.
Proof.
  unfold Dict.keys. induction d as [|[k0 v0] d IH]; cbn [map fst In Dict.get]; [tauto|].
  intros [->|H].
  - rewrite String.eqb_refl. eauto.
  - destruct (String.eqb k k0); eauto.
Qed.

Lemma last_in_or_default {A : Type} (l : list A) (d : A) : last l d = d \/ In (last l d) l.
Proof.
  induction l as [|x l IH]; [now left|].
  destruct l as [|y l]; [right; now left|].
  change (last (x :: y :: l) d) with (last (y :: l) d).
  destruct IH as [IH|IH]; [now left | right; now right].
Qed.

Lemma recommended_ids_known (da : domain_analysis) (cx : complexity_analysis) (id : string) :
  In id (map phase_id (recommended_phases (determine_optimal_phases da cx))) ->
  In id phase_ids.
Proof.
  unfold determine_optimal_phases.
  destruct (redistribute cx) as [F C]. cbn [recommended_phases].
  repeat match goal with
         | |- context [if ?b then _ else _] => destruct b
         end;
    rewrite ?map_app, ?in_app_iff; cbn [map In phase_id phase_ids]; intuition auto.
Qed.

(** The ids of the recommended phases, spelled out by the four tests. *)
Lemma recommended_ids (da : domain_analysis) (cx : complexity_analysis) :
  map phase_id (recommended_phases (determine_optimal_phases da cx))
  = (if truthy (fst (redistribute cx)) then [phase_1_foundation] else [])
    ++ (if Nat.leb 3 (length (core_functionality_tasks cx))
        then [phase_2_intelligence] else [])
    ++ (if Nat.leb 5 (length (snd (redistribute cx))) then [phase_3_coordination] else [])
    ++ (if Nat.leb 2 (length (optimization_tasks cx)) then [phase_4_optimization] else []).
Proof.
  unfold determine_optimal_phases.
  destruct (redistribute cx) as [F C]. cbn [recommended_phases fst snd].
  rewrite (truthy_length (core_functionality_tasks cx) 3),
    (truthy_length C 5), (truthy_length (optimization_tasks cx) 2) by lia.
  destruct (truthy F); destruct (Nat.leb 3 _); destruct (Nat.leb 5 _);
    destruct (Nat.leb 2 _); reflexivity.
Qed.

End PlannerFacts.

(** X1. The mapping of the phase planner has one entry per key, an entry
    for every task of the partition, no entry for an id that is not the id
    of a task of the partition, and only the four phase ids as values. *)
Theorem planner_mapping_total (da : domain_analysis) (cx : complexity_analysis) :
  let ps := determine_optimal_phases da cx in
  NoDup (Dict.keys (phase_assignments ps))
  /\ (forall t, In t (all_buckets cx) ->
                exists pid, Dict.get (phase_assignments ps) (task_id t) = Some pid)
  /\ (forall k pid, Dict.get (phase_assignments ps) k = Some pid ->
                    In k (map task_id (all_buckets cx)) /\ In pid phase_ids).
Proof.
  intros ps. subst ps. split; [apply assignment_keys_unique|].
  split; [intros t; apply every_task_assigned|].
  intros k pid Hget.
  destruct (assignment_lookup da cx k) as [tO Hlook]. cbv zeta in Hlook.
  split.
  - rewrite Hget in Hlook. unfold all_buckets. rewrite !map_app, !in_app_iff.
    destruct (existsb _ (optimization_tasks cx)) eqn:EO.
    { apply existsb_key_In in EO. tauto. }
    destruct (existsb _ (snd (redistribute cx))) eqn:EC.
    { apply existsb_key_In, in_map_iff in EC. destruct EC as [t [<- Ht]].
      apply coordination_members in Ht.
      destruct Ht as [Ht|[Ht|Ht]]; apply (in_map task_id) in Ht; tauto. }
    destruct (existsb _ (core_functionality_tasks cx)) eqn:EI.
    { apply existsb_key_In in EI. tauto. }
    destruct (existsb _ (fst (redistribute cx))) eqn:EF; [|discriminate].
    apply existsb_key_In, in_map_iff in EF. destruct EF as [t [<- Ht]].
    apply foundation_members in Ht.
    destruct Ht as [Ht|Ht]; apply (in_map task_id) in Ht; tauto.
  - revert Hget. clear Hlook tO. unfold determine_optimal_phases.
    destruct (redistribute cx) as [F C] eqn:R. cbn [phase_assignments].
    assert (first_loop :
              Dict.get (if truthy F then Dict.set_all task_id phase_1_foundation F []
                        else []) k
              = if existsb (fun x => String.eqb k (task_id x)) F
                then Some phase_1_foundation else None).
    { destruct F; [reflexivity|]. cbn [truthy]. now rewrite get_set_all. }
    assert (Hlast : forall l, (forall id, In id l -> In id phase_ids) ->
                              In (last l phase_1_foundation) phase_ids).
    { intros l Hl. destruct (last_in_or_default l phase_1_foundation) as [->|H];
        [now left | now apply Hl]. }
    repeat match goal with
           | |- context [if ?b then _ else _] => destruct b
           end;
      rewrite ?get_set_all, ?first_loop;
      repeat match goal with
             | |- context [if ?b then _ else _] => destruct b
             end;
      intros [= <-];
      try (cbn [phase_ids In]; tauto);
      apply Hlast; intros id; rewrite ?map_app, ?in_app_iff; cbn [map In phase_id phase_ids];
      intuition auto.
Qed.

(** X2. An Optimization phase is recommended exactly when the optimization
    bucket has two tasks or more; its tasks are then assigned to it, and
    otherwise to the last phase recommended, or to [phase_1_foundation] when
    no phase is recommended. *)
Theorem optimization_rule (da : domain_analysis) (cx : complexity_analysis) :
  let ps := determine_optimal_phases da cx in
  (In phase_4_optimization (map phase_id (recommended_phases ps))
   <-> 2 <= length (optimization_tasks cx))
  /\ (forall t, In t (optimization_tasks cx) ->
        Dict.get (phase_assignments ps) (task_id t)
        = Some (if Nat.leb 2 (length (optimization_tasks cx))
                then phase_4_optimization
                else last (map phase_id (recommended_phases ps)) phase_1_foundation)).
Proof.
  intros ps. subst ps. split.
  - rewrite recommended_ids, !in_app_iff.
    destruct (Nat.leb 2 (length (optimization_tasks cx))) eqn:E.
    + apply Nat.leb_le in E. split; [intros _; exact E|intros _].
      right. right. right. now left.
    + apply Nat.leb_gt in E. split; [|lia].
      destruct (truthy _); destruct (Nat.leb 3 _); destruct (Nat.leb 5 _);
        cbn [In]; intuition discriminate.
  - intros t Hin. apply existsb_id_true in Hin.
    unfold determine_optimal_phases.
    destruct (redistribute cx) as [F C]. cbn [phase_assignments recommended_phases].
    rewrite (truthy_length (optimization_tasks cx) 2) by lia.
    destruct (Nat.leb 2 (length (optimization_tasks cx)));
      rewrite get_set_all, Hin; reflexivity.
Qed.

(** X3. The recommended phases come in the order Foundation, Intelligence,
    Coordination, Optimization, each at most once, and each holds at least
    its threshold of tasks: one, three, five and two. *)
Theorem recommended_phases_ordered (da : domain_analysis) (cx : complexity_analysis) :
  let ps := determine_optimal_phases da cx in
  let ids := map phase_id (recommended_phases ps) in
  NoDup ids
  /\ ids = filter (fun id => existsb (String.eqb id) ids) phase_ids
  /\ (forall p, In p (recommended_phases ps) ->
                phase_threshold (phase_id p) <= length (tasks_of p)).
Proof.
  intros ps ids. subst ids ps. split; [|split].
  - rewrite recommended_ids.
    destruct (truthy _); destruct (Nat.leb 3 _); destruct (Nat.leb 5 _);
      destruct (Nat.leb 2 _); cbn [app];
      repeat constructor; cbn [In]; intuition discriminate.
  - rewrite recommended_ids.
    destruct (truthy _); destruct (Nat.leb 3 _); destruct (Nat.leb 5 _);
      destruct (Nat.leb 2 _); reflexivity.
  - intros p. unfold determine_optimal_phases.
    destruct (redistribute cx) as [F C]. cbn [recommended_phases].
    rewrite (truthy_length (core_functionality_tasks cx) 3),
      (truthy_length C 5), (truthy_length (optimization_tasks cx) 2) by lia.
    assert (HF : truthy F = true ->
                 1 <= length F /\ 1 <= length (F ++ core_functionality_tasks cx)).
    { destruct F; [discriminate|]. cbn [app length]. lia. }
    destruct (truthy F);
      destruct (Nat.leb 3 (length (core_functionality_tasks cx))) eqn:E3;
      destruct (Nat.leb 5 (length C)) eqn:E5;
      destruct (Nat.leb 2 (length (optimization_tasks cx))) eqn:E2;
      rewrite ?in_app_iff; cbn [In];
      try apply Nat.leb_le in E3; try apply Nat.leb_le in E5; try apply Nat.leb_le in E2;
      intros H; repeat (destruct H as [H|H]); try destruct H;
      cbn [phase_id tasks_of]; try (specialize (HF eq_refl));
      change (phase_threshold phase_1_foundation) with 1;
      change (phase_threshold phase_2_intelligence) with 3;
      change (phase_threshold phase_3_coordination) with 5;
      change (phase_threshold phase_4_optimization) with 2; lia.
Qed.

(** X4. When the Intelligence phase is not created and the foundation list
    is not empty, the Foundation phase record lists the core_functionality
    tasks after the foundation ones, while its justification still counts
    the foundation tasks alone. *)
Theorem foundation_record_after_merge (da : domain_analysis) (cx : complexity_analysis) :
  fst (redistribute cx) <> [] ->
  length (core_functionality_tasks cx) < 3 ->
  hd_error (recommended_phases (determine_optimal_phases da cx))
  = Some (mkPhase phase_1_foundation "Phase 1: Foundation"
            (fst (redistribute cx) ++ core_functionality_tasks cx)
            ("Core infrastructure and setup tasks"
               +++ tasks_suffix (length (fst (redistribute cx))))).
Proof.
  intros HF HI. unfold determine_optimal_phases.
  destruct (redistribute cx) as [F C]. cbn [fst recommended_phases] in *.
  rewrite (truthy_length (core_functionality_tasks cx) 3) by lia.
  replace (Nat.leb 3 (length (core_functionality_tasks cx))) with false
    by (symmetry; apply Nat.leb_gt; exact HI).
  destruct F as [|f F]; [congruence|]. cbn [truthy].
  destruct (truthy C && Nat.leb 5 (length C));
    destruct (truthy (optimization_tasks cx) && Nat.leb 2 (length (optimization_tasks cx)));
    reflexivity.
Qed.

Lemma foundation_record_after_merge_witness :
  option_map (fun p => (map task_id (tasks_of p), justification p))
    (hd_error (recommended_phases (Sample.plan [Sample.schema; Sample.calculator])))
  = Some (["t4"; "t1"], "Core infrastructure and setup tasks (1 tasks)").
Proof.
  assert (HF : fst (redistribute (layers
                                    [Sample.schema; Sample.calculator])) <> [])
    by (vm_compute; discriminate).
  assert (HI : length (core_functionality_tasks
                         (layers
                            [Sample.schema; Sample.calculator])) < 3)
    by (vm_compute; lia).
  unfold Sample.plan.
  rewrite (phase_plan_layers [Sample.schema; Sample.calculator])
    by (intros t [<-|[<-|[]]]; discriminate).
  rewrite (foundation_record_after_merge
             (analyze_project_domain [Sample.schema; Sample.calculator]) _ HF HI).
  vm_compute. reflexivity.
Defined.

Lemma bucket_ids_disjoint (tasks : list task) (l1 l2 : layer) (t u : task) :
  NoDup (map task_id tasks) ->
  l1 <> l2 ->
  In t (bucket l1 (layers tasks)) ->
  In u (bucket l2 (layers tasks)) ->
  task_id t <> task_id u.
Proof.
  intros Hnd Hne Ht Hu E.
  apply in_bucket in Ht. apply in_bucket in Hu.
  destruct Ht as [Ht <-]. destruct Hu as [Hu <-].
  pose proof (find_by_id_unique tasks t Hnd Ht) as Ft.
  pose proof (find_by_id_unique tasks u Hnd Hu) as Fu.
  rewrite E in Ft. rewrite Ft in Fu. injection Fu as ->. now apply Hne.
Qed.

Lemma not_in_other_bucket (tasks : list task) (l1 l2 : layer) (t : task) :
  NoDup (map task_id tasks) ->
  l1 <> l2 ->
  In t (bucket l1 (layers tasks)) ->
  existsb (fun x => String.eqb (task_id t) (task_id x))
          (bucket l2 (layers tasks)) = false.
Proof.
  intros Hnd Hne Ht. apply existsb_id_false. intros H.
  apply in_map_iff in H. destruct H as [u [E Hu]].
  apply (bucket_ids_disjoint tasks l1 l2 t u Hnd Hne Ht Hu). now symmetry.
Qed.

(** The planner on the partition of a task list with unique ids: the
    tasks of the infrastructure and unclassified buckets. *)
Lemma foundation_of_layers (tasks : list task) (t : task) :
  let cx := layers tasks in
  let ps := determine_optimal_phases (analyze_project_domain tasks) cx in
  NoDup (map task_id tasks) ->
  In t (infrastructure_tasks cx ++ unclassified_tasks cx) ->
  redistribute cx = (infrastructure_tasks cx ++ unclassified_tasks cx,
                     user_interface_tasks cx ++ integration_tasks cx)
  /\ In phase_1_foundation (map phase_id (recommended_phases ps))
  /\ Dict.get (phase_assignments ps) (task_id t) = Some phase_1_foundation.
Proof.
  intros cx ps Hnd Hin. subst ps.
  pose proof (redistribute_classified tasks) as Hred. fold cx in Hred. cbv zeta in Hred.
  split; [exact Hred|]. split.
  - rewrite recommended_ids, Hred. cbn [fst].
    destruct (infrastructure_tasks cx ++ unclassified_tasks cx); [destruct Hin|].
    now left.
  - destruct (assignment_lookup (analyze_project_domain tasks) cx (task_id t))
      as [tO Hget].
    cbv zeta in Hget. rewrite Hget, Hred. cbn [fst snd].
    rewrite (existsb_id_true _ _ Hin), existsb_app.
    assert (other : forall l1 l2, l1 <> l2 -> In t (bucket l1 cx) ->
                existsb (fun x => String.eqb (task_id t) (task_id x)) (bucket l2 cx)
                = false)
      by (intros l1 l2 Hne Ht; now apply (not_in_other_bucket tasks l1 l2 t Hnd)).
    assert (elsewhere : exists l1, In t (bucket l1 cx)
                                   /\ l1 <> Optimization /\ l1 <> UserInterface
                                   /\ l1 <> Integration /\ l1 <> CoreFunctionality).
    { apply in_app_iff in Hin. destruct Hin as [Hin|Hin];
        [exists Infrastructure | exists Unclassified];
        (split; [exact Hin | repeat split; discriminate]). }
    destruct elsewhere as (l1 & Ht & HO & HU & HG & HC).
    pose proof (other l1 Optimization HO Ht) as EO.
    pose proof (other l1 UserInterface HU Ht) as EU.
    pose proof (other l1 Integration HG Ht) as EG.
    pose proof (other l1 CoreFunctionality HC Ht) as EC.
    cbn [bucket] in EO, EU, EG, EC. rewrite EO, EU, EG, EC. reflexivity.
Qed.

(** X5. On a task list with unique ids whose descriptions are texts, the
    classifier returns a partition on which a Foundation phase is
    recommended as soon as there is an infrastructure or an unclassified
    task, and every such task is assigned to it; no unclassified task
    reaches the coordination list. *)
Theorem foundation_rule (tasks : list task) (t : task) :
  (forall u, In u tasks -> description u <> None) ->
  NoDup (map task_id tasks) ->
  exists cx,
    analyze_task_complexity_layers tasks = Ok cx
    /\ let ps := determine_optimal_phases (analyze_project_domain tasks) cx in
       (In t (infrastructure_tasks cx ++ unclassified_tasks cx) ->
        redistribute cx = (infrastructure_tasks cx ++ unclassified_tasks cx,
                           user_interface_tasks cx ++ integration_tasks cx)
        /\ In phase_1_foundation (map phase_id (recommended_phases ps))
        /\ Dict.get (phase_assignments ps) (task_id t) = Some phase_1_foundation).
Proof.
  intros Htext Hnd. exists (layers tasks).
  split; [now apply analysis_returns|].
  intros ps Hin. now apply foundation_of_layers.
Qed.

Lemma foundation_rule_witness :
  Dict.get (phase_assignments (Sample.plan [Sample.schema; Sample.calculator])) "t4"
  = Some phase_1_foundation.
Proof.
  assert (Htext : forall u, In u [Sample.schema; Sample.calculator] ->
                            description u <> None)
    by (intros u [<-|[<-|[]]]; discriminate).
  assert (Hnd : NoDup (map task_id [Sample.schema; Sample.calculator]))
    by (repeat constructor; cbn; intuition discriminate).
  destruct (foundation_rule [Sample.schema; Sample.calculator] Sample.schema Htext Hnd)
    as (cx & Hcx & Hrule).
  unfold Sample.plan, phase_plan. rewrite Hcx.
  apply Hrule.
  vm_compute in Hcx. injection Hcx as <-. left. reflexivity.
Defined.

(** The planner on the partition of a task list with unique ids: the
    tasks of the user_interface and integration buckets. *)
Lemma coordination_of_layers (tasks : list task) (t : task) :
  let cx := layers tasks in
  let ps := determine_optimal_phases (analyze_project_domain tasks) cx in
  NoDup (map task_id tasks) ->
  In t (user_interface_tasks cx ++ integration_tasks cx) ->
  (In phase_3_coordination (map phase_id (recommended_phases ps))
   <-> 5 <= length (user_interface_tasks cx) + length (integration_tasks cx))
  /\ (5 <= length (user_interface_tasks cx) + length (integration_tasks cx) ->
      Dict.get (phase_assignments ps) (task_id t) = Some phase_3_coordination).
Proof.
  intros cx ps Hnd Hin. subst ps.
  pose proof (redistribute_classified tasks) as Hred. fold cx in Hred. cbv zeta in Hred.
  split.
  - rewrite coordination_phase_iff, Hred. cbn [snd]. now rewrite length_app.
  - intros Hlen.
    destruct (assignment_lookup (analyze_project_domain tasks) cx (task_id t))
      as [tO Hget].
    cbv zeta in Hget. rewrite Hget, Hred. cbn [fst snd].
    assert (EO : existsb (fun x => String.eqb (task_id t) (task_id x))
                         (optimization_tasks cx) = false).
    { apply in_app_iff in Hin. destruct Hin as [Hin|Hin].
      - apply (not_in_other_bucket tasks UserInterface Optimization t Hnd);
          [discriminate | exact Hin].
      - apply (not_in_other_bucket tasks Integration Optimization t Hnd);
          [discriminate | exact Hin]. }
    rewrite EO, (existsb_id_true _ _ Hin), (truthy_length _ 5) by lia.
    replace (Nat.leb 5 (length (user_interface_tasks cx ++ integration_tasks cx)))
      with true; [reflexivity|].
    symmetry. apply Nat.leb_le. rewrite length_app. exact Hlen.
Qed.

(** X6. On a task list with unique ids whose descriptions are texts, the
    classifier returns a partition on which a Coordination phase is
    recommended exactly when the user_interface and integration buckets hold
    five tasks or more together, and each of their tasks is then assigned to
    it. *)
Theorem coordination_rule (tasks : list task) (t : task) :
  (forall u, In u tasks -> description u <> None) ->
  NoDup (map task_id tasks) ->
  exists cx,
    analyze_task_complexity_layers tasks = Ok cx
    /\ let ps := determine_optimal_phases (analyze_project_domain tasks) cx in
       (In t (user_interface_tasks cx ++ integration_tasks cx) ->
        (In phase_3_coordination (map phase_id (recommended_phases ps))
         <-> 5 <= length (user_interface_tasks cx) + length (integration_tasks cx))
        /\ (5 <= length (user_interface_tasks cx) + length (integration_tasks cx) ->
            Dict.get (phase_assignments ps) (task_id t) = Some phase_3_coordination)).
Proof.
  intros Htext Hnd. exists (layers tasks).
  split; [now apply analysis_returns|].
  intros ps Hin. now apply coordination_of_layers.
Qed.

Lemma coordination_rule_witness :
  let tasks := [Sample.button; Sample.component; Sample.api_client;
                Sample.row "t9" "Settings form" ""; Sample.row "t10" "Page layout" ""] in
  Dict.get (phase_assignments (Sample.plan tasks)) "t5" = Some phase_3_coordination.
Proof.
  intros tasks.
  assert (Htext : forall u, In u tasks -> description u <> None)
    by (intros u [<-|[<-|[<-|[<-|[<-|[]]]]]]; discriminate).
  assert (Hnd : NoDup (map task_id tasks))
    by (repeat constructor; cbn; intuition discriminate).
  destruct (coordination_rule tasks Sample.api_client Htext Hnd) as (cx & Hcx & Hrule).
  unfold Sample.plan, phase_plan. rewrite Hcx.
  vm_compute in Hcx. injection Hcx as <-.
  apply Hrule; [vm_compute; tauto | vm_compute; lia].
Defined.

(** ** Project domain *)

Lemma max_key_from_first (d : Dict.t nat) :
  forall best best_score,
    (max_key_from best best_score d = best
     /\ forall kv, In kv d -> snd kv <= best_score)
    \/ (exists pre s post,
          d = pre ++ (max_key_from best best_score d, s) :: post
          /\ best_score < s
          /\ (forall kv, In kv pre -> snd kv < s)
          /\ (forall kv, In kv post -> snd kv <= s)).
Proof.
  induction d as [|[k v] d IH]; intros best bs; cbn [max_key_from].
  - left. split; [reflexivity | intros kv []].
  - destruct (Nat.ltb bs v) eqn:E.
    + apply Nat.ltb_lt in E. right.
      destruct (IH k v) as [[Hr Hall]|(pre & s & post & Hd & Hlt & Hpre & Hpost)].
      * exists [], v, d. rewrite Hr. repeat split; [exact E | intros kv [] | exact Hall].
      * exists ((k, v) :: pre), s, post. repeat split.
        -- cbn [app]. now rewrite <- Hd.
        -- lia.
        -- intros kv [<-|H]; [exact Hlt | now apply Hpre].
        -- exact Hpost.
    + apply Nat.ltb_ge in E.
      destruct (IH best bs) as [[Hr Hall]|(pre & s & post & Hd & Hlt & Hpre & Hpost)].
      * left. split; [exact Hr|]. intros kv [<-|H]; [exact E | now apply Hall].
      * right. exists ((k, v) :: pre), s, post. repeat split.
        -- cbn [app]. now rewrite <- Hd.
        -- exact Hlt.
        -- intros kv [<-|H]; [cbn [snd]; lia | now apply Hpre].
        -- exact Hpost.
Qed.

(** X7. The primary domain is the first domain of the table with the
    highest keyword score: the domains before it score strictly less, the
    ones after it at most as much.  The scores are listed for the six
    domains in the order of the table, each at most the size of its keyword
    set, and the project complexity is the number of tasks. *)
Theorem primary_domain_first_maximum (tasks : list task) :
  let da := analyze_project_domain tasks in
  (exists pre s post,
     domain_scores da = pre ++ (primary_domain da, s) :: post
     /\ (forall kv, In kv pre -> snd kv < s)
     /\ (forall kv, In kv post -> snd kv <= s))
  /\ map fst (domain_scores da) = map fst domain_indicators
  /\ (forall k v, In (k, v) (domain_scores da) ->
                  exists keywords, In (k, keywords) domain_indicators
                                   /\ v <= length keywords)
  /\ project_complexity da = length tasks.
Proof.
  intros da. subst da. unfold analyze_project_domain.
  cbn [domain_scores primary_domain project_complexity].
  set (combined := Text.join " " _).
  set (scores := map (fun row => (fst row, keyword_score (snd row) combined))
                     domain_indicators).
  split; [|split; [|split]].
  - assert (Hne : exists k v r, scores = (k, v) :: r).
    { unfold scores, domain_indicators. cbn [map]. eauto. }
    destruct Hne as (k & v & r & Hs). rewrite Hs. cbn [max_key].
    destruct (max_key_from_first r k v) as [[Hr Hall]|(pre & s & post & Hd & Hlt & Hpre & Hpost)].
    + exists [], v, r. rewrite Hr. repeat split; [intros kv [] | exact Hall].
    + exists ((k, v) :: pre), s, post. repeat split.
      * cbn [app]. now rewrite <- Hd.
      * intros kv [<-|H]; [exact Hlt | now apply Hpre].
      * exact Hpost.
  - unfold scores. rewrite map_map. reflexivity.
  - intros k v Hin. unfold scores in Hin. apply in_map_iff in Hin.
    destruct Hin as [[k' kws] [[= <- <-] Hin]]. exists kws. split; [exact Hin|].
    unfold keyword_score. cbn [snd]. apply filter_length_le.
  - reflexivity.
Qed.

(** ** Dependencies *)

Lemma keys_fold_set_fresh {V A : Type} (key : A -> string) (val : A -> V) (xs : list A) :
  forall d : Dict.t V,
    NoDup (Dict.keys d ++ map key xs) ->
    Dict.keys (fold_left (fun d x => Dict.set d (key x) (val x)) xs d)
    = Dict.keys d ++ map key xs.
Proof.
  induction xs as [|x xs IH]; intros d Hnd; cbn [fold_left map].
  - now rewrite app_nil_r.
  - assert (Hfresh : existsb (String.eqb (key x)) (Dict.keys d) = false).
    { destruct (existsb _ (Dict.keys d)) eqn:E; [|reflexivity].
      apply existsb_exists in E. destruct E as [k [Hk E]].
      apply String.eqb_eq in E. subst k.
      apply NoDup_remove_2 in Hnd. exfalso. apply Hnd.
      apply in_app_iff. now left. }
    rewrite IH; rewrite keys_set, Hfresh, <- app_assoc; [reflexivity | exact Hnd].
Qed.

(** X8. For a task list with unique ids, the explicit-dependency map has
    the task ids as its keys, in the order of the list; a stored list that
    was written by [json.dumps] is recorded as the value it encodes, and a
    NULL column is recorded as [None]. *)
Theorem explicit_dependencies_per_task (tasks : list task) :
  NoDup (map task_id tasks) ->
  let explicit := explicit_dependencies (analyze_task_dependencies tasks) in
  Dict.keys explicit = map task_id tasks
  /\ (forall t, In t tasks ->
        (forall v, depends_on_tasks t = Text (json_dumps v) ->
                   Dict.get explicit (task_id t) = Some v)
        /\ (depends_on_tasks t = Null -> Dict.get explicit (task_id t) = Some JNull)).
Proof.
  intros Hnd explicit. subst explicit.
  cbn [analyze_task_dependencies explicit_dependencies]. unfold explicit_pass.
  split.
  - now rewrite (keys_fold_set_fresh task_id
                   (fun t => explicit_value (depends_on_tasks t)) tasks []).
  - intros t Hin.
    assert (Hget : Dict.get (fold_left
                               (fun d x => Dict.set d (task_id x)
                                             (explicit_value (depends_on_tasks x)))
                               tasks []) (task_id t)
                   = Some (explicit_value (depends_on_tasks t))).
    { rewrite (get_fold_set task_id (fun x => explicit_value (depends_on_tasks x))).
      rewrite find_by_id_unique; [reflexivity | | now apply in_rev in Hin].
      rewrite map_rev. now apply NoDup_rev. }
    split; [intros v Hv | intros Hv]; rewrite Hget, Hv; reflexivity.
Qed.

Lemma explicit_dependencies_per_task_witness :
  let tasks := [Sample.with_depends_on (Text (json_dumps (JArr [JStr "t3"]))) Sample.calculator;
                Sample.with_depends_on Null Sample.button] in
  Dict.keys (explicit_dependencies (analyze_task_dependencies tasks)) = ["t1"; "t3"].
Proof.
  intros tasks.
  assert (Hnd : NoDup (map task_id tasks))
    by (repeat constructor; cbn; intuition discriminate).
  apply (proj1 (explicit_dependencies_per_task tasks Hnd)).
Defined.

(** X9. Every inferred edge joins two tasks of the list that have different
    ids, its dependent keyword and dependency keyword come from one pair of
    the pattern table, and a list of fewer than two tasks gives no edge. *)
Theorem implicit_edges_join_distinct_tasks (tasks : list task) (e : implicit_dependency) :
  In e (implicit_dependencies (analyze_task_dependencies tasks)) ->
  dependent e <> dependency e
  /\ 2 <= length tasks
  /\ exists a b,
       In a tasks /\ In b tasks
       /\ dependent e = task_id a /\ dependency e = task_id b
       /\ reason e = implicit_reason (Text.lower (title a)) (Text.lower (title b))
       /\ exists p, In p dependency_patterns
                    /\ Text.contains (fst p) (Text.lower (title a)) = true
                    /\ Text.contains (snd p) (Text.lower (title b)) = true.
Proof.
  intros H. apply in_implicit_dependencies in H.
  destruct H as (a & b & Ha & Hb & Hne & S & ->). cbn [dependent dependency reason].
  split; [exact Hne|]. split.
  - destruct tasks as [|x [|y l]]; cbn [length]; try lia.
    + destruct Ha.
    + destruct Ha as [<-|[]]. destruct Hb as [<-|[]]. congruence.
  - exists a, b. repeat split; try assumption.
    now apply should_depend_on_in_spec.
Qed.

Lemma implicit_edges_join_distinct_tasks_witness :
  let tasks := [Sample.component; Sample.api_client] in
  let e := mkImplicit "t6" "t5" "'chart component' likely depends on 'rest api'" in
  In e (implicit_dependencies (analyze_task_dependencies tasks))
  /\ dependent e <> dependency e.
Proof.
  intros tasks e.
  assert (H : In e (implicit_dependencies (analyze_task_dependencies tasks)))
    by (vm_compute; left; reflexivity).
  split; [exact H|].
  apply (proj1 (implicit_edges_join_distinct_tasks tasks e H)).
Defined.

(** ** What is committed *)

Section Committed.
Variable d : database.

(** Only [conn.commit()] writes the committed database. *)
Lemma disk_store_call : keeps (fun w => disk w = d) store_call.
Proof. intros w r w' [= <- <-] H. exact H. Qed.

Lemma disk_get_db_connection : keeps (fun w => disk w = d) get_db_connection.
Proof.
  apply keeps_bind; [apply disk_store_call|].
  intros _ w r w' [= <- <-] H. exact H.
Qed.

Lemma disk_query {A : Type} (q : database -> A) : keeps (fun w => disk w = d) (query q).
Proof.
  apply keeps_bind; [apply disk_store_call|].
  intros _ w r w' [= <- <-] H. exact H.
Qed.

Lemma disk_execute (q : database -> database) : keeps (fun w => disk w = d) (execute q).
Proof.
  apply keeps_bind; [apply disk_store_call|].
  intros _ w r w' [= <- <-] H. exact H.
Qed.

Ltac disk_steps :=
  repeat (intros;
          match goal with
          | |- keeps _ (bind _ _) => apply keeps_bind
          | |- keeps _ (try_except _ _) => apply keeps_try
          | |- keeps _ (ret _) => apply keeps_ret
          | |- keeps _ (lift _) => apply keeps_lift
          | |- keeps _ (query _) => apply disk_query
          | |- keeps _ (execute _) => apply disk_execute
          | |- keeps _ get_db_connection => apply disk_get_db_connection
          | |- keeps _ (match ?x with _ => _ end) => destruct x
          end).

Lemma disk_needs_migration : keeps (fun w => disk w = d) _needs_migration.
Proof. unfold _needs_migration. disk_steps. Qed.

Lemma disk_load_all_tasks : keeps (fun w => disk w = d) _load_all_tasks.
Proof. unfold _load_all_tasks. disk_steps. Qed.

Lemma disk_create_phase (now : string) (p : phase) :
  keeps (fun w => disk w = d) (_create_phase now p).
Proof. unfold _create_phase. disk_steps. Qed.

Lemma disk_migrate_task (now : string) (ps : phase_structure) (tid pid : string) :
  keeps (fun w => disk w = d) (_migrate_task_to_phase now tid pid ps).
Proof. unfold _migrate_task_to_phase, migrate_task_body. disk_steps. Qed.

Lemma disk_migrate_all (now : string) (ps : phase_structure)
    (items : list (string * string)) :
  forall count, keeps (fun w => disk w = d) (migrate_all now items ps count).
Proof.
  induction items as [|[tid pid] items IH]; intros count; cbn [migrate_all].
  - apply keeps_ret.
  - apply keeps_bind; [apply disk_migrate_task | intros b; apply IH].
Qed.

Lemma disk_fix_one (now : string) (dep : implicit_dependency) :
  keeps (fun w => disk w = d) (fix_one now dep).
Proof. unfold fix_one. disk_steps. Qed.

Lemma disk_fix_all (now : string) (deps : list implicit_dependency) :
  forall count, keeps (fun w => disk w = d) (fix_all now deps count).
Proof.
  induction deps as [|dep deps IH]; intros count; cbn [fix_all].
  - apply keeps_ret.
  - apply keeps_bind; [apply disk_fix_one | intros b; apply IH].
Qed.

End Committed.

(** [_execute_migration] commits at its last store call or not at all. *)
Lemma execute_migration_atomic (now : string) (ps : phase_structure)
    (deps : dependency_analysis) (w w' : world) (b : bool) :
  _execute_migration now ps deps w = (Ok b, w') ->
  (b = false -> disk w' = disk w) /\ (b = true -> disk w' = work w').
Proof.
  unfold _execute_migration, try_except, bind at 1.
  destruct (get_db_connection w) as [[[]|e] w1] eqn:E1.
  2:{ intros [= <- <-]. split; [intros _|discriminate].
      apply (disk_get_db_connection (disk w) _ _ _ E1 eq_refl). }
  pose proof (disk_get_db_connection (disk w) _ _ _ E1 eq_refl) as D1.
  unfold bind at 1.
  destruct (for_each (recommended_phases ps) (_create_phase now) w1) as [[[]|e] w2] eqn:E2.
  2:{ intros [= <- <-]. split; [intros _|discriminate].
      apply (keeps_for_each _ _ _ (disk_create_phase (disk w) now) _ _ _ E2 D1). }
  pose proof (keeps_for_each _ _ _ (disk_create_phase (disk w) now) _ _ _ E2 D1) as D2.
  unfold bind at 1.
  destruct (migrate_all now (phase_assignments ps) ps 0 w2) as [[n|e] w3] eqn:E3.
  2:{ intros [= <- <-]. split; [intros _|discriminate].
      apply (disk_migrate_all (disk w) now ps _ _ _ _ _ E3 D2). }
  pose proof (disk_migrate_all (disk w) now ps _ _ _ _ _ E3 D2) as D3.
  unfold commit, bind, store_call, ret.
  destruct (hd false (faults w3)); intros [= <- <-]; cbn [disk work].
  - split; [intros _; exact D3 | discriminate].
  - split; [discriminate | reflexivity].
Qed.

(** X10. [_execute_migration] commits all or nothing: when it returns
    [False] the committed store is the one it started from, whichever store
    call failed; when it returns [True] the committed store is the working
    copy with all its writes. *)
Theorem execute_migration_all_or_nothing (now : string) (ps : phase_structure)
    (deps : dependency_analysis) (w w' : world) (b : bool) :
  _execute_migration now ps deps w = (Ok b, w') ->
  (b = false -> disk w' = disk w) /\ (b = true -> disk w' = work w').
Proof. apply execute_migration_atomic. Qed.

Lemma execute_migration_all_or_nothing_witness :
  let rows := [Sample.schema; Sample.calculator] in
  let w := at_rest (Sample.db rows)
             [false; false; false; false; false; false; false; true] in
  let r := _execute_migration Sample.clock (Sample.plan rows)
             (analyze_task_dependencies rows) w in
  fst r = Ok false /\ disk (snd r) = Sample.db rows.
Proof.
  intros rows w r.
  assert (H : r = (Ok false, snd r)) by (vm_compute; reflexivity).
  split; [now rewrite H|].
  apply (proj1 (execute_migration_all_or_nothing Sample.clock (Sample.plan rows)
                  (analyze_task_dependencies rows) w (snd r) false H) eq_refl).
Defined.

(** X11. A run that returns [False] has committed nothing: the store is the
    one the run started from. *)
Theorem failed_run_commits_nothing (now : string) (w w' : world) :
  run_intelligent_migration now w = (Ok false, w') -> disk w' = disk w.
Proof.
  unfold run_intelligent_migration, try_except, bind at 1.
  destruct (total_needs_migration w) as (needed & w1 & H1). rewrite H1.
  pose proof (disk_needs_migration (disk w) _ _ _ H1 eq_refl) as D1.
  destruct needed; cbn [negb]; [|discriminate].
  unfold bind at 1.
  destruct (total_load_all_tasks w1) as (all_tasks & w2 & H2). rewrite H2.
  pose proof (disk_load_all_tasks (disk w) _ _ _ H2 D1) as D2.
  destruct (truthy all_tasks); cbn [negb]; [|discriminate].
  unfold bind at 1, lift at 1.
  destruct (analyze_task_complexity_layers all_tasks) as [cx|e];
    [|intros [= <-]; exact D2].
  unfold bind at 1.
  match goal with
  | |- context [_execute_migration now ?ps ?deps w2] =>
      destruct (total_execute_migration now ps deps w2) as (ok & w3 & H3);
      pose proof (execute_migration_atomic now ps deps w2 w3 ok H3) as [Hfalse _]
  end.
  rewrite H3. destruct ok.
  - unfold bind at 1.
    match goal with
    | |- context [_fix_dependencies now ?dp ?p w3] =>
        destruct (total_fix_dependencies now dp p w3) as ([] & w4 & H4)
    end.
    rewrite H4. unfold bind at 1.
    match goal with
    | |- context [_update_migration_status now ?s w4] =>
        destruct (total_update_migration_status now s w4) as ([] & w5 & H5)
    end.
    rewrite H5. discriminate.
  - intros [= <-]. rewrite (Hfalse eq_refl). exact D2.
Qed.

Lemma failed_run_commits_nothing_witness :
  let d := Sample.db [Sample.schema; Sample.calculator] in
  let w := at_rest d [false; false; false; false; false; false; false; false;
                      false; false; false; false; true] in
  fst (run_intelligent_migration Sample.clock w) = Ok false
  /\ disk (snd (run_intelligent_migration Sample.clock w)) = d.
Proof.
  intros d w.
  assert (H : run_intelligent_migration Sample.clock w
              = (Ok false, snd (run_intelligent_migration Sample.clock w)))
    by (vm_compute; reflexivity).
  split; [now rewrite H|].
  apply (failed_run_commits_nothing Sample.clock w _ H).
Defined.

(** ** Phase records *)

Lemma select_insert_new (k : string) (r : task) (d : database) :
  select_task k d = None ->
  select_task k (insert_task r d) = if String.eqb (task_id r) k then Some r else None.
Proof.
  unfold select_task, insert_task. cbn [tasks].
  induction (tasks d) as [|u l IH]; cbn [app find]; [reflexivity|].
  destruct (String.eqb (task_id u) k); [discriminate | exact IH].
Qed.

(** X12. With no failing store call, [_create_phase] inserts the phase row
    at the end of the table when no row has the phase id, and leaves the
    table alone when one has; the inserted row has no parent, status
    [pending], priority [high], empty child and dependency lists and one
    note; creating the phase a second time changes nothing. *)
Theorem create_phase_once (now now' : string) (p : phase) (w : world) :
  quiet w ->
  exists w1 w2,
    _create_phase now p w = (Ok tt, w1)
    /\ disk w1 = disk w
    /\ (select_task (phase_id p) (work w) = None ->
        tasks (work w1) = tasks (work w) ++ [phase_data now p]
        /\ select_task (phase_id p) (work w1) = Some (phase_data now p))
    /\ (select_task (phase_id p) (work w) <> None -> work w1 = work w)
    /\ _create_phase now' p w1 = (Ok tt, w2)
    /\ work w2 = work w1 /\ disk w2 = disk w
    /\ parent_task (phase_data now p) = None
    /\ status (phase_data now p) = "pending"
    /\ priority (phase_data now p) = "high"
    /\ child_tasks (phase_data now p) = Text (json_dumps (JArr []))
    /\ depends_on_tasks (phase_data now p) = Text (json_dumps (JArr []))
    /\ exists n, notes (phase_data now p) = Text (json_dumps (JArr [n])).
Proof.
  intros Hq.
  destruct (create_phase_quiet now p w Hq) as ([] & w1 & H1 & Hd1 & Hw1 & Hq1).
  destruct (create_phase_quiet now' p w1 Hq1) as ([] & w2 & H2 & Hd2 & Hw2 & Hq2).
  exists w1, w2. split; [exact H1|]. split; [exact Hd1|].
  assert (Hfound : exists t, select_task (phase_id p) (work w1) = Some t)
    by (rewrite Hw1; apply select_created).
  split; [|split; [|split; [exact H2|split; [|split]]]].
  - intros Hnone. rewrite Hw1. unfold create_phase_db. rewrite Hnone.
    split; [reflexivity|].
    rewrite (select_insert_new _ _ _ Hnone). unfold phase_data at 1. cbn [task_id].
    now rewrite String.eqb_refl.
  - intros Hsome. rewrite Hw1. unfold create_phase_db.
    destruct (select_task (phase_id p) (work w)); [reflexivity | congruence].
  - rewrite Hw2. unfold create_phase_db. destruct Hfound as [t ->]. reflexivity.
  - now rewrite Hd2.
  - unfold phase_data. cbn [parent_task status priority child_tasks depends_on_tasks notes].
    repeat split. eexists. reflexivity.
Qed.

Lemma create_phase_once_witness :
  let p := mkPhase phase_1_foundation "Phase 1: Foundation" [Sample.schema] "one task" in
  let w := at_rest (Sample.db [Sample.schema]) [] in
  exists w1, _create_phase Sample.clock p w = (Ok tt, w1)
             /\ map task_id (tasks (work w1)) = ["t4"; "phase_1_foundation"].
Proof.
  intros p w.
  assert (Hq : quiet w) by (intros []).
  destruct (create_phase_once Sample.clock Sample.clock p w Hq)
    as (w1 & w2 & H1 & _ & Hnew & _).
  exists w1. split; [exact H1|].
  destruct (Hnew eq_refl) as [Htasks _]. rewrite Htasks. reflexivity.
Defined.

(** ** Reparenting outcome *)

(** X13. With no failing store call, [_migrate_task_to_phase] returns
    [True] exactly when a row has the task id and its notes load as a list;
    when it returns [False] (no such row, NULL notes, notes that are not
    JSON, or JSON that is not a list) it leaves the working copy as it was;
    it never writes the committed store. *)
Theorem migrate_task_outcome (now : string) (ps : phase_structure) (tid pid : string)
    (w : world) :
  quiet w ->
  exists b w',
    _migrate_task_to_phase now tid pid ps w = (Ok b, w')
    /\ disk w' = disk w
    /\ (b = true <-> exists t items, select_task tid (work w) = Some t
                                     /\ notes t = Text (Encoded (JArr items)))
    /\ (b = false -> work w' = work w).
Proof.
  intros Hq.
  destruct (migrate_task_quiet now ps tid pid w Hq) as (b & w' & Hrun & -> & Hd & Hw & _).
  exists (migrates now ps tid pid (work w)), w'.
  split; [exact Hrun|]. split; [exact Hd|].
  rewrite Hw. unfold migrates, migrate_db, migrated_notes.
  destruct (select_task tid (work w)) as [t|].
  - destruct (notes t) as [|[raw|v]] eqn:En; cbn [load_notes json_loads].
    + split; [split; [discriminate|]|reflexivity].
      intros (t' & items & [= <-] & H). congruence.
    + split; [split; [discriminate|]|reflexivity].
      intros (t' & items & [= <-] & H). congruence.
    + destruct v as [| | | |items|]; cbn [append_to];
        try (split; [split; [discriminate|]|reflexivity];
             intros (t' & items' & [= <-] & H); congruence).
      split; [split; [intros _; eauto | reflexivity] | discriminate].
  - split; [split; [discriminate|]|reflexivity].
    intros (t' & items & H & _). discriminate.
Qed.

Lemma migrate_task_outcome_witness :
  let w := at_rest (Sample.db [Sample.schema]) [] in
  exists w', _migrate_task_to_phase Sample.clock "missing" phase_1_foundation
               (Sample.plan [Sample.schema]) w = (Ok false, w')
             /\ work w' = work w.
Proof.
  intros w.
  assert (Hq : quiet w) by (intros []).
  destruct (migrate_task_outcome Sample.clock (Sample.plan [Sample.schema])
              "missing" phase_1_foundation w Hq) as (b & w' & Hrun & _ & Hiff & Hsame).
  destruct b.
  - exfalso. destruct (proj1 Hiff eq_refl) as (t & items & Hsel & _). discriminate Hsel.
  - exists w'. split; [exact Hrun | now apply Hsame].
Defined.

(** ** What persisting leaves alone *)

Section PersistFrame.
Variable now : string.
Variable ps : phase_structure.

Lemma content_migrate_db (k pid : string) (d : database) :
  map content (tasks (migrate_db now ps k pid d)) = map content (tasks d).
Proof.
  unfold migrate_db.
  destruct (select_task k d) as [t|]; [|reflexivity].
  destruct (migrated_notes now ps pid t) as [n|e]; [|reflexivity].
  unfold update_tasks. cbn [tasks]. rewrite map_map. apply map_ext.
  intros u. now destruct (String.eqb (task_id u) k).
Qed.

Lemma content_migrate_all_db (items : list (string * string)) :
  forall d, map content (tasks (migrate_all_db now ps items d)) = map content (tasks d).
Proof.
  unfold migrate_all_db.
  induction items as [|[k pid] items IH]; intros d; cbn [fold_left fst snd];
    [reflexivity|].
  now rewrite IH, content_migrate_db.
Qed.

Lemma tasks_create_phases (phases : list phase) :
  forall d, exists created,
    tasks (fold_left (create_phase_db now) phases d)
    = tasks d ++ map (phase_data now) created
    /\ incl created phases.
Proof.
  induction phases as [|p phases IH]; intros d; cbn [fold_left].
  - exists []. split; [now rewrite app_nil_r | intros x []].
  - destruct (IH (create_phase_db now d p)) as (created & Ht & Hincl).
    unfold create_phase_db in *.
    destruct (select_task (phase_id p) d).
    + exists created. split; [exact Ht|]. intros x Hx. right. now apply Hincl.
    + exists (p :: created). split.
      * rewrite Ht. cbn [insert_task tasks map]. now rewrite <- app_assoc.
      * intros x [<-|Hx]; [now left | right; now apply Hincl].
Qed.

(** When no row has a phase id yet, each recommended phase gets its row, in order. *)
Lemma tasks_create_fresh_phases (phases : list phase) :
  NoDup (map phase_id phases) ->
  forall d,
    (forall p, In p phases -> select_task (phase_id p) d = None) ->
    tasks (fold_left (create_phase_db now) phases d)
    = tasks d ++ map (phase_data now) phases.
Proof.
  induction phases as [|p phases IH]; intros Hnd d Hnone; cbn [fold_left map].
  - now rewrite app_nil_r.
  - inversion Hnd as [|? ? Hnot Hnd']; subst.
    unfold create_phase_db at 2. rewrite (Hnone p (or_introl eq_refl)).
    rewrite IH; [cbn [insert_task tasks]; now rewrite <- app_assoc | exact Hnd' |].
    intros q Hq. rewrite select_insert_new by (apply Hnone; now right).
    unfold phase_data. cbn [task_id].
    destruct (String.eqb (phase_id p) (phase_id q)) eqn:E; [|reflexivity].
    apply String.eqb_eq in E. exfalso. apply Hnot. rewrite E. now apply in_map.
Qed.

End PersistFrame.

(** X14. With no failing store call, [_execute_migration] returns [True]
    and commits the rows it found, in their order and with their id, title,
    description, assignee, creator, status, priority, creation time, child
    list and dependency list unchanged, followed by the rows of the phases
    it created, which are rows of recommended phases; no row is removed. *)
Theorem persisting_keeps_content (now : string) (ps : phase_structure)
    (deps : dependency_analysis) (d : database) :
  exists w' created,
    _execute_migration now ps deps (at_rest d []) = (Ok true, w')
    /\ map content (tasks (disk w'))
       = map content (tasks d) ++ map content (map (phase_data now) created)
    /\ incl created (recommended_phases ps)
    /\ project_context (disk w') = project_context d.
Proof.
  assert (Hq : quiet (at_rest d [])) by (intros []).
  destruct (execute_migration_quiet now ps deps _ Hq) as (b & w' & Hrun & -> & Hdisk & _).
  cbn [at_rest disk] in Hdisk.
  destruct (tasks_create_phases now (recommended_phases ps) d) as (created & Ht & Hincl).
  exists w', created. split; [exact Hrun|]. split; [|split; [exact Hincl|]].
  - now rewrite Hdisk, content_migrate_all_db, Ht, map_app.
  - rewrite Hdisk. clear.
    assert (Hm : forall items d0,
               project_context (migrate_all_db now ps items d0) = project_context d0).
    { unfold migrate_all_db.
      induction items as [|[k pid] items IH]; intros d0; cbn [fold_left fst snd];
        [reflexivity|].
      rewrite IH. unfold migrate_db.
      destruct (select_task k d0) as [t|]; [|reflexivity].
      now destruct (migrated_notes now ps pid t). }
    rewrite Hm.
    induction (recommended_phases ps) as [|p phases IH] in d |- *; cbn [fold_left];
      [reflexivity|].
    rewrite IH. unfold create_phase_db.
    now destruct (select_task (phase_id p) d).
Qed.

Lemma ids_of_columns (d : database) :
  map task_id (tasks d) = map (fun c => fst (fst c)) (columns d).
Proof. unfold columns. rewrite map_map. reflexivity. Qed.

Lemma ids_of_content (d d' : database) (extra : list task) :
  map content (tasks d') = map content (tasks d) ++ map content extra ->
  map task_id (tasks d') = map task_id (tasks d) ++ map task_id extra.
Proof.
  intros H.
  assert (G : forall l, map task_id l
                        = map (fun c => fst (fst (fst (fst (fst (fst (fst (fst (fst c)))))))))
                              (map content l))
    by (intros l; rewrite map_map; reflexivity).
  now rewrite !G, H, map_app.
Qed.

Lemma recommended_ids_nodup (da : domain_analysis) (cx : complexity_analysis) :
  NoDup (map phase_id (recommended_phases (determine_optimal_phases da cx))).
Proof.
  rewrite recommended_ids.
  destruct (truthy _); destruct (Nat.leb 3 _); destruct (Nat.leb 5 _);
    destruct (Nat.leb 2 _); cbn [app];
    repeat constructor; cbn [In]; intuition discriminate.
Qed.

Lemma phase_plan_ids_nodup (tasks : list task) :
  NoDup (map phase_id (recommended_phases (phase_plan tasks))).
Proof.
  unfold phase_plan.
  destruct (analyze_task_complexity_layers tasks) as [cx|e]; [|constructor].
  apply recommended_ids_nodup.
Qed.

(** X15. On a store that holds tasks, each with a text in its description
    column, and no phase-like id, with no failing store call, the entry
    point returns [True] and the committed table holds the ids it held, in
    their order, followed by the ids of the recommended phases, one row each
    in the order of their recommendation, and nothing else. *)
Theorem run_appends_phase_rows (now : string) (d : database) :
  count_phases d = 0 ->
  tasks d <> [] ->
  (forall t, In t (tasks d) -> description t <> None) ->
  exists w',
    run_intelligent_migration now (at_rest d []) = (Ok true, w')
    /\ map task_id (tasks (disk w'))
       = map task_id (tasks d) ++ map phase_id (recommended_phases (plan_of d)).
Proof.
  intros Hcount Hne Htext.
  assert (Hq : quiet (at_rest d [])) by (intros []).
  destruct (run_quiet_columns now _ Hq Htext) as (w' & Hrun & Hcols).
  cbn [at_rest disk] in Hcols.
  assert (Hneeded : needs_migration_of d && truthy (select_all d) = true).
  { unfold needs_migration_of, count_tasks. rewrite Hcount.
    destruct (tasks d) as [|t l] eqn:Et; [congruence|].
    assert (Hin : In t (select_all d)) by (apply in_select_all; rewrite Et; now left).
    destruct (select_all d); [destruct Hin | reflexivity]. }
  rewrite Hneeded in Hcols.
  exists w'. split; [exact Hrun|].
  rewrite ids_of_columns, Hcols, <- ids_of_columns.
  unfold persisted.
  assert (Hfresh : forall p, In p (recommended_phases (plan_of d)) ->
                             select_task (phase_id p) d = None).
  { intros p Hp. destruct (select_task (phase_id p) d) as [t|] eqn:E; [|reflexivity].
    exfalso. apply (count_phases_found _ _ _ E); [|exact Hcount].
    apply (phase_plan_phase_ids _ p Hp). }
  assert (Hnd : NoDup (map phase_id (recommended_phases (plan_of d))))
    by apply phase_plan_ids_nodup.
  rewrite (ids_of_content d _ (map (phase_data now) (recommended_phases (plan_of d)))).
  - rewrite map_map. reflexivity.
  - rewrite content_migrate_all_db,
      (tasks_create_fresh_phases now _ Hnd d Hfresh), map_app.
    reflexivity.
Qed.

(** ** Fixing the dependencies *)

Lemma yields_lift_ok {A B : Type} (v : A) (k : A -> M B) (w : world)
    (Q : B -> world -> Prop) :
  yields (k v) w Q -> yields (bind (lift (Ok v)) k) w Q.
Proof. intros H. exact H. Qed.

Section FixDependencies.
Variable now : string.

Lemma set_depends_on_id (deps : text) (t : task) :
  task_id (set_depends_on deps now t) = task_id t.
Proof. reflexivity. Qed.

Lemma deps_of_fix_db (dep : implicit_dependency) (d : database) (id : string) :
  deps_of id (fix_db now dep d) =
  if String.eqb id (dependent dep)
  then match deps_of (dependent dep) d with
       | Some l => Some (if existsb (is_str (dependency dep)) l then l
                         else l ++ [JStr (dependency dep)])
       | None => None
       end
  else deps_of id d.
Proof.
  unfold fix_db.
  destruct (deps_of (dependent dep) d) as [l|] eqn:E.
  - destruct (existsb (is_str (dependency dep)) l).
    + destruct (String.eqb id (dependent dep)) eqn:E'; [|reflexivity].
      apply String.eqb_eq in E'. now subst id.
    + unfold deps_of at 1. rewrite select_update by apply set_depends_on_id.
      destruct (String.eqb id (dependent dep)) eqn:E'; [|reflexivity].
      unfold deps_of in E.
      destruct (select_task (dependent dep) d) as [t|]; [|discriminate].
      reflexivity.
  - destruct (String.eqb id (dependent dep)) eqn:E'; [|reflexivity].
    apply String.eqb_eq in E'. now subst id.
Qed.

(** One iteration, when the dependent's list loads and no store call fails. *)
Lemma fix_one_quiet (dep : implicit_dependency) (w : world) (l : list json) :
  quiet w ->
  deps_of (dependent dep) (work w) = Some l ->
  yields (fix_one now dep) w
    (fun b w' => b = negb (existsb (is_str (dependency dep)) l)
                 /\ disk w' = disk w
                 /\ work w' = fix_db now dep (work w)
                 /\ quiet w').
Proof.
  intros Hq Hdeps. unfold fix_one.
  eapply yields_bind; [apply (query_quiet _ w Hq)|].
  intros found w1 (-> & Hd & Hw & Hq1).
  unfold fix_db. rewrite Hdeps. unfold deps_of in Hdeps.
  destruct (select_task (dependent dep) (work w)) as [row|]; [|discriminate].
  destruct (json_loads (or_empty_list (depends_on_tasks row))) as [[| | | |l0|]|e];
    try discriminate.
  injection Hdeps as ->.
  apply yields_lift_ok. cbn [py_in]. apply yields_lift_ok.
  destruct (existsb (is_str (dependency dep)) l).
  - apply yields_ret. rewrite Hd, Hw. tauto.
  - cbn [append_to negb]. apply yields_lift_ok.
    eapply yields_bind; [apply (execute_quiet _ w1 Hq1)|].
    intros _ w3 (Hd3 & Hw3 & Hq3).
    apply yields_ret. rewrite Hd3, Hw3, Hd, Hw. tauto.
Qed.

Lemma fix_all_quiet (edges : list implicit_dependency) :
  forall count w,
    quiet w ->
    (forall e, In e edges -> exists l, deps_of (dependent e) (work w) = Some l) ->
    yields (fix_all now edges count) w
      (fun _ w' => disk w' = disk w
                   /\ work w' = fix_all_db now edges (work w)
                   /\ quiet w').
Proof.
  unfold fix_all_db.
  induction edges as [|e edges IH]; intros count w Hq Hwf; cbn [fix_all fold_left].
  - apply yields_ret. tauto.
  - destruct (Hwf e (or_introl eq_refl)) as [l Hl].
    eapply yields_bind; [apply (fix_one_quiet e w l Hq Hl)|].
    intros b w1 (_ & Hd & Hw & Hq1).
    eapply yields_weaken.
    + apply (IH _ w1 Hq1). intros e' He'. rewrite Hw, deps_of_fix_db.
      destruct (Hwf e' (or_intror He')) as [l' Hl'].
      destruct (String.eqb (dependent e') (dependent e)); [rewrite Hl|]; eauto.
    + intros _ w2 (Hd2 & Hw2 & Hq2). rewrite Hd2, Hw2, Hd, Hw. tauto.
Qed.

Lemma fix_all_db_grows (edges : list implicit_dependency) :
  forall d id l,
    deps_of id d = Some l ->
    exists l', deps_of id (fix_all_db now edges d) = Some (l ++ l').
Proof.
  unfold fix_all_db.
  induction edges as [|e edges IH]; intros d id l Hl; cbn [fold_left].
  - exists []. now rewrite app_nil_r.
  - assert (H1 : exists l1, deps_of id (fix_db now e d) = Some (l ++ l1)).
    { rewrite deps_of_fix_db.
      destruct (String.eqb id (dependent e)) eqn:E.
      - apply String.eqb_eq in E. subst id. rewrite Hl.
        destruct (existsb _ l); [exists []; now rewrite app_nil_r | eauto].
      - exists []. now rewrite app_nil_r. }
    destruct H1 as [l1 H1]. destruct (IH _ _ _ H1) as [l2 H2].
    exists (l1 ++ l2). now rewrite H2, app_assoc.
Qed.

Lemma fix_all_db_adds (edges : list implicit_dependency) :
  forall d,
    (forall e, In e edges -> exists l, deps_of (dependent e) d = Some l) ->
    forall e, In e edges ->
              exists l, deps_of (dependent e) (fix_all_db now edges d) = Some l
                        /\ In (JStr (dependency e)) l.
Proof.
  induction edges as [|e0 edges IH]; intros d Hwf e Hin; [destruct Hin|].
  change (fix_all_db now (e0 :: edges) d) with (fix_all_db now edges (fix_db now e0 d)).
  destruct Hin as [->|Hin].
  - destruct (Hwf e (or_introl eq_refl)) as [l Hl].
    assert (H1 : exists l1, deps_of (dependent e) (fix_db now e d) = Some l1
                            /\ In (JStr (dependency e)) l1).
    { rewrite deps_of_fix_db, String.eqb_refl, Hl.
      destruct (existsb (is_str (dependency e)) l) eqn:E.
      - exists l. split; [reflexivity|].
        apply existsb_exists in E. destruct E as [x [Hx Ex]].
        destruct x; try discriminate. cbn [is_str] in Ex.
        apply String.eqb_eq in Ex. now subst.
      - eexists. split; [reflexivity|]. apply in_app_iff. right. now left. }
    destruct H1 as (l1 & H1 & Hin1).
    destruct (fix_all_db_grows edges _ _ _ H1) as [l2 H2].
    exists (l1 ++ l2). split; [exact H2|]. apply in_app_iff. now left.
  - apply IH; [|exact Hin].
    intros e' He'. rewrite deps_of_fix_db.
    destruct (Hwf e' (or_intror He')) as [l' Hl'].
    destruct (Hwf e0 (or_introl eq_refl)) as [l0 Hl0].
    destruct (String.eqb (dependent e') (dependent e0)); [rewrite Hl0|]; eauto.
Qed.

End FixDependencies.

(** X16. One iteration of [_fix_dependencies], with no failing store call,
    on a dependent whose stored list loads (NULL and the empty text count as
    the empty list): the dependency is appended to the list when it is not
    in it, and nothing is written when it is; applying the same edge again
    writes nothing. *)
Theorem fix_one_adds_once (now now' : string) (dep : implicit_dependency) (w : world)
    (l : list json) :
  quiet w ->
  deps_of (dependent dep) (work w) = Some l ->
  exists b w1 w2,
    fix_one now dep w = (Ok b, w1)
    /\ b = negb (existsb (is_str (dependency dep)) l)
    /\ (b = false -> work w1 = work w)
    /\ deps_of (dependent dep) (work w1)
       = Some (if b then l ++ [JStr (dependency dep)] else l)
    /\ fix_one now' dep w1 = (Ok false, w2)
    /\ work w2 = work w1
    /\ disk w2 = disk w.
Proof.
  intros Hq Hl.
  destruct (fix_one_quiet now dep w l Hq Hl) as (b & w1 & H1 & -> & Hd1 & Hw1 & Hq1).
  assert (Hl1 : deps_of (dependent dep) (work w1)
                = Some (if negb (existsb (is_str (dependency dep)) l)
                        then l ++ [JStr (dependency dep)] else l)).
  { rewrite Hw1, deps_of_fix_db, String.eqb_refl, Hl.
    now destruct (existsb (is_str (dependency dep)) l). }
  assert (Hmem : existsb (is_str (dependency dep))
                   (if negb (existsb (is_str (dependency dep)) l)
                    then l ++ [JStr (dependency dep)] else l) = true).
  { destruct (existsb (is_str (dependency dep)) l) eqn:E; cbn [negb]; [exact E|].
    rewrite existsb_app. cbn [existsb is_str]. rewrite String.eqb_refl.
    now rewrite orb_true_r. }
  destruct (fix_one_quiet now' dep w1 _ Hq1 Hl1) as (b2 & w2 & H2 & -> & Hd2 & Hw2 & _).
  rewrite Hmem in H2. cbn [negb] in H2.
  exists (negb (existsb (is_str (dependency dep)) l)), w1, w2.
  split; [exact H1|]. split; [reflexivity|]. split; [|split; [exact Hl1|]].
  - intros Hb. rewrite Hw1. unfold fix_db. rewrite Hl.
    destruct (existsb (is_str (dependency dep)) l); [reflexivity | discriminate].
  - split; [exact H2|]. split; [|now rewrite Hd2].
    rewrite Hw2. unfold fix_db. rewrite Hl1, Hmem. reflexivity.
Qed.

Lemma fix_one_adds_once_witness :
  let w := at_rest (Sample.db [Sample.with_depends_on Null Sample.component;
                               Sample.api_client]) [] in
  exists w1, fix_one Sample.clock (mkImplicit "t6" "t5" "why") w = (Ok true, w1)
             /\ deps_of "t6" (work w1) = Some [JStr "t5"].
Proof.
  intros w.
  assert (Hq : quiet w) by (intros []).
  assert (Hl : deps_of (dependent (mkImplicit "t6" "t5" "why")) (work w) = Some [])
    by reflexivity.
  destruct (fix_one_adds_once Sample.clock Sample.clock _ w [] Hq Hl)
    as (b & w1 & w2 & H1 & -> & _ & Hdeps & _).
  exists w1. split; [exact H1 | exact Hdeps].
Defined.

(** X17. With no failing store call, on a store where the dependent of
    every inferred edge has a row whose dependency list loads,
    [_fix_dependencies] commits a table in which each dependent's list
    contains the dependency of each of its edges, every list that loaded
    before is still there as a prefix of the new one, and the id, parent and
    notes columns are the ones it found. *)
Theorem fix_dependencies_adds_every_edge (now : string) (deps : dependency_analysis)
    (ps : phase_structure) (d : database) :
  (forall e, In e (implicit_dependencies deps) ->
             exists l, deps_of (dependent e) d = Some l) ->
  exists w',
    _fix_dependencies now deps ps (at_rest d []) = (Ok tt, w')
    /\ (forall e, In e (implicit_dependencies deps) ->
                  exists l, deps_of (dependent e) (disk w') = Some l
                            /\ In (JStr (dependency e)) l)
    /\ (forall id l, deps_of id d = Some l ->
                     exists l', deps_of id (disk w') = Some (l ++ l'))
    /\ columns (disk w') = columns d.
Proof.
  intros Hwf.
  assert (Hq : quiet (at_rest d [])) by (intros []).
  assert (Hrun : yields (_fix_dependencies now deps ps) (at_rest d [])
                   (fun _ w' => disk w' = fix_all_db now (implicit_dependencies deps) d)).
  { unfold _fix_dependencies. apply yields_try.
    eapply yields_bind; [apply (get_db_connection_quiet _ Hq)|].
    intros _ w1 (Hd1 & Hw1 & Hq1). cbn [at_rest disk] in Hd1, Hw1.
    eapply yields_bind.
    { apply (fix_all_quiet now _ 0 w1 Hq1). now rewrite Hw1. }
    intros _ w2 (Hd2 & Hw2 & Hq2).
    eapply yields_bind; [apply (commit_quiet w2 Hq2)|].
    intros _ w3 (Hd3 & _ & _).
    apply yields_ret. now rewrite Hd3, Hw2, Hw1. }
  destruct Hrun as ([] & w' & Hrun & Hdisk).
  exists w'. split; [exact Hrun|]. rewrite Hdisk.
  split; [|split].
  - apply fix_all_db_adds, Hwf.
  - intros id l. apply fix_all_db_grows.
  - clear. unfold fix_all_db.
    induction (implicit_dependencies deps) as [|e edges IH] in d |- *; cbn [fold_left];
      [reflexivity|].
    rewrite IH. unfold fix_db.
    destruct (deps_of (dependent e) d) as [l|]; [|reflexivity].
    destruct (existsb (is_str (dependency e)) l); [reflexivity|].
    apply keeps_columns_depends_on.
Qed.

Lemma fix_dependencies_adds_every_edge_witness :
  let rows := [Sample.with_depends_on Null Sample.component; Sample.api_client] in
  exists w',
    _fix_dependencies Sample.clock (analyze_task_dependencies rows) (Sample.plan rows)
      (at_rest (Sample.db rows) []) = (Ok tt, w')
    /\ exists l, deps_of "t6" (disk w') = Some l /\ In (JStr "t5") l.
Proof.
  intros rows.
  assert (Hwf : forall e, In e (implicit_dependencies (analyze_task_dependencies rows)) ->
                          exists l, deps_of (dependent e) (Sample.db rows) = Some l).
  { intros e He. vm_compute in He. destruct He as [<-|[]]. exists []. reflexivity. }
  destruct (fix_dependencies_adds_every_edge Sample.clock (analyze_task_dependencies rows)
              (Sample.plan rows) (Sample.db rows) Hwf) as (w' & Hrun & Hadds & _).
  exists w'. split; [exact Hrun|].
  apply (Hadds (mkImplicit "t6" "t5" "'chart component' likely depends on 'rest api'")).
  vm_compute. left. reflexivity.
Defined.

Section BrokenList.
Variable now : string.
Variable id : string.

Lemma fix_one_broken (dep : implicit_dependency) (w : world) :
  quiet w ->
  broken id (work w) ->
  exists r w',
    fix_one now dep w = (r, w')
    /\ quiet w'
    /\ match r with
       | Ok _ => broken id (work w') /\ dependent dep <> id
       | Raise _ => True
       end.
Proof.
  intros Hq Hbroken.
  destruct (query_quiet (select_task (dependent dep)) w Hq)
    as (found & w1 & Hsel & -> & Hd & Hw & Hq1).
  unfold fix_one, bind at 1. rewrite Hsel.
  assert (Hother : dependent dep <> id ->
                   forall f, (forall t, task_id (f t) = task_id t) ->
                             broken id (update_tasks (dependent dep) f (work w))).
  { intros Hne f Hf. destruct Hbroken as (t & raw & Ht & Hraw & Hnon).
    exists t, raw. rewrite select_update by exact Hf.
    destruct (String.eqb id (dependent dep)) eqn:E; [|tauto].
    apply String.eqb_eq in E. congruence. }
  destruct (select_task (dependent dep) (work w)) as [row|] eqn:Erow.
  - destruct (String.eqb (dependent dep) id) eqn:E.
    + apply String.eqb_eq in E. destruct Hbroken as (t & raw & Ht & Hraw & Hnon).
      rewrite E, Ht in Erow. injection Erow as <-.
      rewrite Hraw. destruct raw as [|c raw]; [congruence|].
      cbn [or_empty_list json_loads]. unfold bind at 1, lift at 1.
      eexists _, _. split; [reflexivity|]. tauto.
    + apply String.eqb_neq in E.
      unfold bind at 1, lift at 1.
      destruct (json_loads (or_empty_list (depends_on_tasks row))) as [v|e];
        [|eexists _, _; split; [reflexivity | tauto]].
      unfold bind at 1, lift at 1.
      destruct (py_in (dependency dep) v) as [present|e];
        [|eexists _, _; split; [reflexivity | tauto]].
      destruct present.
      * eexists _, _. split; [reflexivity|]. rewrite Hw. tauto.
      * unfold bind at 1, lift at 1.
        destruct (append_to v (JStr (dependency dep))) as [v'|e];
          [|eexists _, _; split; [reflexivity | tauto]].
        destruct (execute_quiet
                    (update_tasks (dependent dep) (set_depends_on (json_dumps v') now))
                    w1 Hq1) as ([] & w2 & Hex & Hd2 & Hw2 & Hq2).
        unfold bind. rewrite Hex. eexists _, _. split; [reflexivity|].
        split; [exact Hq2|]. rewrite Hw2, Hw. split; [|exact E].
        apply (Hother E). reflexivity.
  - eexists _, _. split; [reflexivity|]. split; [exact Hq1|]. rewrite Hw.
    split; [exact Hbroken|].
    intros E. destruct Hbroken as (t & raw & Ht & _). congruence.
Qed.

Lemma fix_all_broken (edges : list implicit_dependency) :
  forall count w,
    quiet w ->
    broken id (work w) ->
    (exists e, In e edges /\ dependent e = id) ->
    exists e w', fix_all now edges count w = (Raise e, w').
Proof.
  induction edges as [|e0 edges IH]; intros count w Hq Hbroken (e & Hin & He);
    [destruct Hin|].
  cbn [fix_all]. unfold bind.
  destruct (fix_one_broken e0 w Hq Hbroken) as (r & w1 & H1 & Hq1 & Hr).
  rewrite H1. destruct r as [b|ex]; [|eauto].
  destruct Hr as [Hbroken1 Hne].
  apply (IH _ w1 Hq1 Hbroken1).
  exists e. split; [|exact He].
  destruct Hin as [->|Hin]; [congruence | exact Hin].
Qed.

End BrokenList.

(** X18. When the dependent of one inferred edge has a row whose stored
    dependency text is not JSON, [_fix_dependencies] commits nothing, also
    not the dependencies of the other edges, and still returns normally. *)
Theorem broken_list_discards_all_fixes (now : string) (deps : dependency_analysis)
    (ps : phase_structure) (d : database) (e : implicit_dependency) :
  In e (implicit_dependencies deps) ->
  broken (dependent e) d ->
  exists w', _fix_dependencies now deps ps (at_rest d []) = (Ok tt, w')
             /\ disk w' = d.
Proof.
  intros Hin Hbroken.
  assert (Hq : quiet (at_rest d [])) by (intros []).
  destruct (get_db_connection_quiet _ Hq) as ([] & w1 & H1 & Hd1 & Hw1 & Hq1).
  cbn [at_rest disk] in Hd1, Hw1.
  destruct (fix_all_broken now (dependent e) (implicit_dependencies deps) 0 w1 Hq1)
    as (ex & w2 & H2).
  { now rewrite Hw1. }
  { eauto. }
  exists w2. split.
  - unfold _fix_dependencies, try_except, bind at 1. rewrite H1.
    unfold bind at 1. rewrite H2. reflexivity.
  - rewrite <- Hd1. apply (disk_fix_all (disk w1) now _ 0 _ _ _ H2 eq_refl).
Qed.

Lemma broken_list_discards_all_fixes_witness :
  let rows := [Sample.component; Sample.api_client;
               Sample.with_depends_on (Text (Malformed "oops"))
                 (Sample.row "t11" "Search form" "");
               Sample.row "t12" "Mail service" ""] in
  exists w',
    _fix_dependencies Sample.clock (analyze_task_dependencies rows) (Sample.plan rows)
      (at_rest (Sample.db rows) []) = (Ok tt, w')
    /\ deps_of "t6" (disk w') = Some [].
Proof.
  intros rows.
  assert (Hin : In (mkImplicit "t11" "t12" "'search form' likely depends on 'mail service'")
                   (implicit_dependencies (analyze_task_dependencies rows)))
    by (vm_compute; tauto).
  assert (Hbroken : broken "t11" (Sample.db rows)).
  { eexists _, "oops". split; [reflexivity|]. split; [reflexivity | discriminate]. }
  destruct (broken_list_discards_all_fixes Sample.clock (analyze_task_dependencies rows)
              (Sample.plan rows) (Sample.db rows) _ Hin Hbroken) as (w' & Hrun & Hdisk).
  exists w'. split; [exact Hrun|]. rewrite Hdisk. reflexivity.
Defined.

(** ** The audit record *)

Lemma filter_negb_none {A : Type} (f : A -> bool) (l : list A) :
  filter f (filter (fun x => negb (f x)) l) = [].
Proof.
  induction l as [|x l IH]; cbn [filter]; [reflexivity|].
  destruct (f x) eqn:E; cbn [negb filter]; [exact IH|]. now rewrite E.
Qed.

(** X19. With no failing store call, [_update_migration_status] leaves the
    tasks table alone and commits a context table that holds exactly one row
    under the migration key, the new record, placed last, and the rows of
    the other keys as they were. *)
Theorem audit_record_replaced (now : string) (stats : migration_stats) (w : world) :
  quiet w ->
  exists w' r,
    _update_migration_status now stats w = (Ok tt, w')
    /\ tasks (disk w') = tasks (disk w)
    /\ context_key r = audit_key
    /\ value r = json_dumps (migration_record now stats)
    /\ project_context (disk w')
       = filter (fun r' => negb (String.eqb (context_key r') audit_key))
                (project_context (disk w)) ++ [r]
    /\ filter (fun r' => String.eqb (context_key r') audit_key)
              (project_context (disk w')) = [r].
Proof.
  intros Hq.
  set (r := mkContext "agent_mcp_intelligent_migration"
              (json_dumps (migration_record now stats)) now "intelligent_migration"
              "AI-powered intelligent multi-phase migration with dependency optimization").
  assert (Hrun : yields (_update_migration_status now stats) w
                   (fun _ w' => disk w' = replace_context r (disk w))).
  { unfold _update_migration_status. apply yields_try.
    eapply yields_bind; [apply (get_db_connection_quiet _ Hq)|].
    intros _ w1 (Hd1 & Hw1 & Hq1).
    eapply yields_bind; [apply (execute_quiet _ w1 Hq1)|].
    intros _ w2 (Hd2 & Hw2 & Hq2).
    eapply yields_bind; [apply (commit_quiet w2 Hq2)|].
    intros _ w3 (Hd3 & _ & _).
    apply yields_ret. now rewrite Hd3, Hw2, Hw1. }
  destruct Hrun as ([] & w' & Hrun & Hdisk).
  exists w', r. split; [exact Hrun|]. rewrite Hdisk.
  unfold replace_context. cbn [tasks project_context].
  repeat split.
  rewrite filter_app. cbn [filter context_key r].
  change (String.eqb "agent_mcp_intelligent_migration" audit_key) with true.
  now rewrite (filter_negb_none (fun r' => String.eqb (context_key r') audit_key)).
Qed.

Lemma audit_record_replaced_witness :
  let old := mkContext audit_key (Malformed "old") "then" "someone" "an older record" in
  let w := at_rest (mkDatabase [Sample.schema] [old]) [] in
  let stats := mkStats 1 1 (analyze_project_domain [Sample.schema])
                 (Sample.plan [Sample.schema]) in
  exists w', _update_migration_status Sample.clock stats w = (Ok tt, w')
             /\ length (project_context (disk w')) = 1.
Proof.
  intros old w stats.
  assert (Hq : quiet w) by (intros []).
  destruct (audit_record_replaced Sample.clock stats w Hq)
    as (w' & r & Hrun & _ & _ & _ & Hctx & _).
  exists w'. split; [exact Hrun|]. rewrite Hctx. reflexivity.
Defined.

(** ** What the later steps leave alone *)

Lemma columns_after_connection {A : Type} (rest : M A) (x : A)
    (L : list (string * option string * cell)) (w : world) (r : result A) (w' : world) :
  keeps (settled L) rest ->
  try_except (get_db_connection ;;; rest) (fun _ => ret x) w = (r, w') ->
  columns (disk w) = L ->
  columns (disk w') = L.
Proof.
  intros Hrest. unfold try_except, bind at 1, get_db_connection, bind at 1, store_call.
  destruct (hd false (faults w)); cbn [disk work faults].
  - intros [= <- <-] H. exact H.
  - destruct (rest _) as [[a|e] w2] eqn:E; intros [= <- <-] H;
      apply (Hrest _ _ _ E); split; exact H.
Qed.

(** X20. Whatever the store calls do, [_fix_dependencies] and
    [_update_migration_status] leave the id, parent and notes columns of the
    committed tasks table as they found them. *)
Theorem later_steps_keep_reparenting (now : string) (deps : dependency_analysis)
    (ps : phase_structure) (stats : migration_stats) (w : world) :
  (forall r w', _fix_dependencies now deps ps w = (r, w') ->
                columns (disk w') = columns (disk w))
  /\ (forall r w', _update_migration_status now stats w = (r, w') ->
                   columns (disk w') = columns (disk w)).
Proof.
  split; intros r w' H.
  - unfold _fix_dependencies in H.
    apply (columns_after_connection _ _ (columns (disk w)) _ _ _) in H;
      [exact H | | reflexivity].
    apply keeps_bind;
      [apply (keeps_fix_all _ _ (stable_settled _) now
                (fun id dp => keeps_columns_depends_on id dp now)) | intros _].
    apply keeps_bind; [apply (keeps_commit _ _ (stable_settled _)) | intros _].
    apply keeps_ret.
  - unfold _update_migration_status in H.
    apply (columns_after_connection _ _ (columns (disk w)) _ _ _) in H;
      [exact H | | reflexivity].
    apply keeps_bind;
      [apply (keeps_execute _ _ (stable_settled _)), keeps_columns_context | intros _].
    apply keeps_bind; [apply (keeps_commit _ _ (stable_settled _)) | intros _].
    apply keeps_ret.
Qed.

(** ** The guard *)

(** X21. On a store that already holds a row with a phase-like id, or that
    holds no task, the entry point returns [True] and commits nothing,
    whatever the store calls do. *)
Theorem guarded_run_changes_nothing (now : string) (d : database) (schedule : list bool) :
  count_phases d <> 0 \/ tasks d = [] ->
  exists w', run_intelligent_migration now (at_rest d schedule) = (Ok true, w')
             /\ disk w' = d.
Proof.
  intros H. apply guarded_run_is_noop. unfold needs_migration_of, count_tasks.
  destruct H as [H| ->].
  - destruct (count_phases d); [congruence | reflexivity].
  - apply andb_false_r.
Qed.

Lemma guarded_run_changes_nothing_witness :
  let d := Sample.db [Sample.schema; Sample.row "Phase-notes" "Release notes" ""] in
  exists w', run_intelligent_migration Sample.clock (at_rest d [false; true]) = (Ok true, w')
             /\ disk w' = d.
Proof.
  intros d.
  apply (guarded_run_changes_nothing Sample.clock d [false; true]).
  left. vm_compute. discriminate.
Defined.

(** X22. With no failing store call in the first run: when the plan of the
    store recommends a phase, a second run, whatever its store calls do,
    returns [True] and leaves the store as the first run committed it. *)
Theorem second_run_noop_after_phase (now now' : string) (d : database)
    (schedule : list bool) :
  recommended_phases (plan_of d) <> [] ->
  exists w1,
    run_intelligent_migration now (at_rest d []) = (Ok true, w1)
    /\ exists w2,
         run_intelligent_migration now' (at_rest (disk w1) schedule) = (Ok true, w2)
         /\ disk w2 = disk w1.
Proof. intros H. apply rerun_is_noop. now right. Qed.

Lemma second_run_noop_after_phase_witness :
  let d := Sample.db [Sample.schema; Sample.calculator] in
  exists w1,
    run_intelligent_migration Sample.clock (at_rest d []) = (Ok true, w1)
    /\ exists w2,
         run_intelligent_migration Sample.clock (at_rest (disk w1) []) = (Ok true, w2)
         /\ disk w2 = disk w1.
Proof.
  intros d.
  apply (second_run_noop_after_phase Sample.clock Sample.clock d []).
  vm_compute. discriminate.
Defined.

(** ** The unclassified tasks *)

Lemma distribute_split (l : list task) :
  forall f c,
    fold_left distribute_unclassified l (f, c)
    = (f ++ filter to_foundation l, c ++ filter (fun t => negb (to_foundation t)) l).
Proof.
  induction l as [|t l IH]; intros f c; cbn [fold_left filter].
  - now rewrite !app_nil_r.
  - assert (Hstep : distribute_unclassified (f, c) t
                    = if to_foundation t then (f ++ [t], c) else (f, c ++ [t])).
    { unfold distribute_unclassified, to_foundation.
      destruct (String.eqb (status t) "completed"); [reflexivity|].
      now destruct (Text.any_in _ _). }
    rewrite Hstep.
    destruct (to_foundation t); cbn [negb]; rewrite IH, <- app_assoc; reflexivity.
Qed.

(** X23. For any partition, the planner sends an unclassified task to the
    coordination list exactly when its status is not [completed] and its
    lowercased title contains one of page, ui, interface, component, and to
    the foundation list otherwise; both lists keep the order of the buckets,
    the unclassified tasks coming last. *)
Theorem unclassified_distribution (cx : complexity_analysis) :
  redistribute cx
  = (infrastructure_tasks cx ++ filter to_foundation (unclassified_tasks cx),
     (user_interface_tasks cx ++ integration_tasks cx)
     ++ filter (fun t => negb (to_foundation t)) (unclassified_tasks cx))
  /\ (forall t, In t (unclassified_tasks cx) ->
        (In t (snd (redistribute cx))
         <-> (In t (user_interface_tasks cx ++ integration_tasks cx)
              \/ (status t <> "completed"
                  /\ Text.any_in ["page"; "ui"; "interface"; "component"]
                                 (Text.lower (title t)) = true)))).
Proof.
  assert (H : redistribute cx
              = (infrastructure_tasks cx ++ filter to_foundation (unclassified_tasks cx),
                 (user_interface_tasks cx ++ integration_tasks cx)
                 ++ filter (fun t => negb (to_foundation t)) (unclassified_tasks cx)))
    by (unfold redistribute; apply distribute_split).
  split; [exact H|].
  intros t Hin. rewrite H. cbn [snd]. rewrite in_app_iff, filter_In.
  unfold to_foundation.
  destruct (String.eqb (status t) "completed") eqn:E.
  - apply String.eqb_eq in E. cbn [orb negb]. intuition (try discriminate; congruence).
  - apply String.eqb_neq in E. cbn [orb].
    destruct (Text.any_in _ _); cbn [negb]; intuition (try discriminate; congruence).
Qed.

Lemma run_appends_phase_rows_witness :
  let d := Sample.db [Sample.schema; Sample.calculator] in
  exists w',
    run_intelligent_migration Sample.clock (at_rest d []) = (Ok true, w')
    /\ map task_id (tasks (disk w')) = ["t4"; "t1"; "phase_1_foundation"].
Proof.
  intros d.
  assert (Hcount : count_phases d = 0) by reflexivity.
  assert (Hne : tasks d <> []) by discriminate.
  assert (Htext : forall t, In t (tasks d) -> description t <> None)
    by (intros t [<-|[<-|[]]]; discriminate).
  destruct (run_appends_phase_rows Sample.clock d Hcount Hne Htext)
    as (w' & Hrun & Hids).
  exists w'. split; [exact Hrun|]. rewrite Hids. vm_compute. reflexivity.
Defined.

(** ** A NULL description *)

(** X24. On a store that needs the migration and holds a row whose
    description is NULL, with no failing store call: the layer analysis
    raises [AttributeError] on the loaded tasks, the handler of the entry
    point catches it, the entry point returns [False], and nothing is
    committed. *)
Theorem null_description_fails_run (now : string) (d : database) :
  needs_migration_of d = true ->
  (exists t, In t (tasks d) /\ description t = None) ->
  analyze_task_complexity_layers (select_all d) = Raise AttributeError
  /\ exists w',
       run_intelligent_migration now (at_rest d []) = (Ok false, w')
       /\ disk w' = d.
Proof.
  intros Hneeded (t & Hin & Hnull).
  assert (Hall : exists t, In t (select_all d) /\ description t = None)
    by (exists t; split; [now apply in_select_all | assumption]).
  split; [now apply analysis_raises|].
  assert (Hq : quiet (at_rest d [])) by (intros []).
  destruct (needs_migration_quiet _ Hq) as (needed & w1 & H1 & -> & Hd1 & Hq1).
  cbn [at_rest disk] in H1, Hd1. rewrite Hneeded in H1.
  destruct (load_all_tasks_quiet w1 Hq1) as (all_tasks & w2 & H2 & -> & Hd2 & Hq2).
  rewrite Hd1 in H2.
  exists w2. split; [|congruence].
  apply (run_null_description now _ w1 w2 (select_all d) H1 H2 Hall).
Qed.

Lemma null_description_fails_run_witness :
  let d := Sample.db [Sample.schema; Sample.without_description Sample.calculator] in
  exists w',
    run_intelligent_migration Sample.clock (at_rest d []) = (Ok false, w')
    /\ disk w' = d.
Proof.
  intros d.
  apply (proj2 (null_description_fails_run Sample.clock d eq_refl
                  (ex_intro _ (Sample.without_description Sample.calculator)
                     (conj (or_intror (or_introl eq_refl)) eq_refl)))).
Defined.
